(** * CuevanaScraper: a shallow embedding of [cuavanaslow.py]

    The development follows the order of the Python module: the [str]
    methods it relies on, the link prioritizer, then the functions that
    drive the browser, the player and the files, written in a small
    state-and-exception monad over the trace of external calls.

    Modelling conventions.
    - A Python [str] is the [string] of its UTF-8 bytes; [str.lower],
      [str.strip] and [str.split()] act on the code points the bytes encode.
    - A Python [dict] is a [gmap], a Python [set] a [gset]; [list(set)] is
      [elements], one of the orders Python may pick.
    - [None] as a result is [option]'s [None]; a tuple is a pair.
    - Selenium, [time], [os], [subprocess], [input] and the files are the
      environment: a function from the calls made so far and the call at
      hand to an answer or an exception. Every call is recorded in the
      trace, so that what a function did can be read off it.
    - [time.time()] counts milliseconds; [time.sleep] takes whole seconds.
    - A [while] loop takes a bound on its rounds ([fuel]); running out of it
      is a result of its own, which no handler catches.
    - Log lines are left out, except those of the redirect poll, which
      carry a value the function computes and does not return. *)

From Stdlib Require Import ZArith Ascii String List Bool Lia.
From stdpp Require Import base gmap strings list.

Import ListNotations.
Local Open Scope string_scope.
Local Open Scope list_scope.

(** ** Code points

    A Python [str] is a sequence of code points; here it is the [string] of
    its UTF-8 bytes. The methods of [str] that look at code points
    ([lower], [strip], [split()]) read them off the bytes. The tables are
    those of CPython 3.11 (Unicode 14.0). *)

Module Unicode.

Local Open Scope N_scope.

Definition byte (c : ascii) : N := N_of_ascii c.

Definition chr (n : N) : ascii := ascii_of_N n.

(** A continuation byte, 10xxxxxx. *)
Definition cont (b : N) : bool := (128 <=? b) && (b <=? 191).

(** The number of continuation bytes the lead byte [b] calls for. *)
Definition width (b : N) : nat :=
  if (194 <=? b) && (b <=? 223) then 1
  else if (224 <=? b) && (b <=? 239) then 2
  else if (240 <=? b) && (b <=? 244) then 3
  else 0.

(** Whether [s] begins with [n] continuation bytes. *)
Fixpoint conts (n : nat) (s : string) : bool :=
  match n with
  | O => true
  | S k =>
      match s with
      | String c s' => cont (byte c) && conts k s'
      | EmptyString => false
      end
  end.

(** [acc] extended by the six payload bits of each of the first [n] bytes
    of [s]. *)
Fixpoint payload (n : nat) (acc : N) (s : string) : N :=
  match n, s with
  | S k, String c s' => payload k (acc * 64 + (byte c - 128)) s'
  | _, _ => acc
  end.

(** The payload bits of a lead byte that calls for [n] continuation
    bytes. *)
Definition lead_bits (n : nat) (b : N) : N :=
  match n with
  | 1%nat => b - 192
  | 2%nat => b - 224
  | _ => b - 240
  end.

(** The values a sequence of [n] continuation bytes may encode: no
    overlong form, no surrogate, nothing above U+10FFFF. *)
Definition in_range (n : nat) (v : N) : bool :=
  match n with
  | 1%nat => true
  | 2%nat => (2048 <=? v) && negb ((55296 <=? v) && (v <=? 57343))
  | 3%nat => (65536 <=? v) && (v <=? 1114111)
  | _ => false
  end.

(** A byte that begins no well-formed sequence stands for itself, as a
    value above the code points. *)
Definition stray (b : N) : N := 1114112 + b.

(** The code point that begins with the byte [b] followed by [s], and the
    number of bytes of [s] that belong to it. *)
Definition front (b : N) (s : string) : N * nat :=
  if b <? 128 then (b, 0%nat)
  else
    let n := width b in
    let v := payload n (lead_bits n b) s in
    if conts n s && in_range n v then (v, n) else (stray b, 0%nat).

(** The code points of a string. [skip] counts the bytes still to be
    passed of the sequence being read. *)
Fixpoint decode_go (skip : nat) (s : string) : list N :=
  match s with
  | EmptyString => []
  | String c s' =>
      match skip with
      | S k => decode_go k s'
      | O => let '(cp, more) := front (byte c) s' in cp :: decode_go more s'
      end
  end.

Definition decode (s : string) : list N := decode_go 0 s.

(** The UTF-8 bytes of one code point. *)
Definition encode_cp (c : N) : string :=
  if c <? 128 then String (chr c) EmptyString
  else if c <? 2048 then
    String (chr (192 + c / 64)) (String (chr (128 + c mod 64)) EmptyString)
  else if c <? 65536 then
    String (chr (224 + c / 4096))
      (String (chr (128 + (c / 64) mod 64))
         (String (chr (128 + c mod 64)) EmptyString))
  else if c <? 1114112 then
    String (chr (240 + c / 262144))
      (String (chr (128 + (c / 4096) mod 64))
         (String (chr (128 + (c / 64) mod 64))
            (String (chr (128 + c mod 64)) EmptyString)))
  else String (chr (c - 1114112)) EmptyString.

Definition encode (cps : list N) : string :=
  String.concat EmptyString (map encode_cp cps).

(** Whether [c] lies in one of the ranges of an ascending table. *)
Fixpoint in_ranges (c : N) (table : list (N * N)) : bool :=
  match table with
  | [] => false
  | (lo, hi) :: rest =>
      if c <? lo then false else if c <=? hi then true else in_ranges c rest
  end.

(** The simple lower-case mappings: [(lo, hi, step, target)] maps the code
    points [lo], [lo + step], ... up to [hi] to [target], [target + step],
    ... *)
Definition lower_table : list (N * N * N * N) :=
  [
    (65, 90, 1, 97); (192, 214, 1, 224); (216, 222, 1, 248);
    (256, 302, 2, 257); (306, 310, 2, 307); (313, 327, 2, 314);
    (330, 374, 2, 331); (376, 376, 1, 255); (377, 381, 2, 378);
    (385, 385, 1, 595); (386, 388, 2, 387); (390, 390, 1, 596);
    (391, 391, 1, 392); (393, 394, 1, 598); (395, 395, 1, 396);
    (398, 398, 1, 477); (399, 399, 1, 601); (400, 400, 1, 603);
    (401, 401, 1, 402); (403, 403, 1, 608); (404, 404, 1, 611);
    (406, 406, 1, 617); (407, 407, 1, 616); (408, 408, 1, 409);
    (412, 412, 1, 623); (413, 413, 1, 626); (415, 415, 1, 629);
    (416, 420, 2, 417); (422, 422, 1, 640); (423, 423, 1, 424);
    (425, 425, 1, 643); (428, 428, 1, 429); (430, 430, 1, 648);
    (431, 431, 1, 432); (433, 434, 1, 650); (435, 437, 2, 436);
    (439, 439, 1, 658); (440, 440, 1, 441); (444, 444, 1, 445);
    (452, 452, 1, 454); (453, 453, 1, 454); (455, 455, 1, 457);
    (456, 456, 1, 457); (458, 458, 1, 460); (459, 475, 2, 460);
    (478, 494, 2, 479); (497, 497, 1, 499); (498, 500, 2, 499);
    (502, 502, 1, 405); (503, 503, 1, 447); (504, 542, 2, 505);
    (544, 544, 1, 414); (546, 562, 2, 547); (570, 570, 1, 11365);
    (571, 571, 1, 572); (573, 573, 1, 410); (574, 574, 1, 11366);
    (577, 577, 1, 578); (579, 579, 1, 384); (580, 580, 1, 649);
    (581, 581, 1, 652); (582, 590, 2, 583); (880, 882, 2, 881);
    (886, 886, 1, 887); (895, 895, 1, 1011); (902, 902, 1, 940);
    (904, 906, 1, 941); (908, 908, 1, 972); (910, 911, 1, 973);
    (913, 929, 1, 945); (931, 939, 1, 963); (975, 975, 1, 983);
    (984, 1006, 2, 985); (1012, 1012, 1, 952); (1015, 1015, 1, 1016);
    (1017, 1017, 1, 1010); (1018, 1018, 1, 1019); (1021, 1023, 1, 891);
    (1024, 1039, 1, 1104); (1040, 1071, 1, 1072); (1120, 1152, 2, 1121);
    (1162, 1214, 2, 1163); (1216, 1216, 1, 1231); (1217, 1229, 2, 1218);
    (1232, 1326, 2, 1233); (1329, 1366, 1, 1377); (4256, 4293, 1, 11520);
    (4295, 4295, 1, 11559); (4301, 4301, 1, 11565); (5024, 5103, 1, 43888);
    (5104, 5109, 1, 5112); (7312, 7354, 1, 4304); (7357, 7359, 1, 4349);
    (7680, 7828, 2, 7681); (7838, 7838, 1, 223); (7840, 7934, 2, 7841);
    (7944, 7951, 1, 7936); (7960, 7965, 1, 7952); (7976, 7983, 1, 7968);
    (7992, 7999, 1, 7984); (8008, 8013, 1, 8000); (8025, 8031, 2, 8017);
    (8040, 8047, 1, 8032); (8072, 8079, 1, 8064); (8088, 8095, 1, 8080);
    (8104, 8111, 1, 8096); (8120, 8121, 1, 8112); (8122, 8123, 1, 8048);
    (8124, 8124, 1, 8115); (8136, 8139, 1, 8050); (8140, 8140, 1, 8131);
    (8152, 8153, 1, 8144); (8154, 8155, 1, 8054); (8168, 8169, 1, 8160);
    (8170, 8171, 1, 8058); (8172, 8172, 1, 8165); (8184, 8185, 1, 8056);
    (8186, 8187, 1, 8060); (8188, 8188, 1, 8179); (8486, 8486, 1, 969);
    (8490, 8490, 1, 107); (8491, 8491, 1, 229); (8498, 8498, 1, 8526);
    (8544, 8559, 1, 8560); (8579, 8579, 1, 8580); (9398, 9423, 1, 9424);
    (11264, 11311, 1, 11312); (11360, 11360, 1, 11361); (11362, 11362, 1, 619);
    (11363, 11363, 1, 7549); (11364, 11364, 1, 637); (11367, 11371, 2, 11368);
    (11373, 11373, 1, 593); (11374, 11374, 1, 625); (11375, 11375, 1, 592);
    (11376, 11376, 1, 594); (11378, 11378, 1, 11379); (11381, 11381, 1, 11382);
    (11390, 11391, 1, 575); (11392, 11490, 2, 11393); (11499, 11501, 2, 11500);
    (11506, 11506, 1, 11507); (42560, 42604, 2, 42561); (42624, 42650, 2, 42625);
    (42786, 42798, 2, 42787); (42802, 42862, 2, 42803); (42873, 42875, 2, 42874);
    (42877, 42877, 1, 7545); (42878, 42886, 2, 42879); (42891, 42891, 1, 42892);
    (42893, 42893, 1, 613); (42896, 42898, 2, 42897); (42902, 42920, 2, 42903);
    (42922, 42922, 1, 614); (42923, 42923, 1, 604); (42924, 42924, 1, 609);
    (42925, 42925, 1, 620); (42926, 42926, 1, 618); (42928, 42928, 1, 670);
    (42929, 42929, 1, 647); (42930, 42930, 1, 669); (42931, 42931, 1, 43859);
    (42932, 42946, 2, 42933); (42948, 42948, 1, 42900); (42949, 42949, 1, 642);
    (42950, 42950, 1, 7566); (42951, 42953, 2, 42952); (42960, 42960, 1, 42961);
    (42966, 42968, 2, 42967); (42997, 42997, 1, 42998); (65313, 65338, 1, 65345);
    (66560, 66599, 1, 66600); (66736, 66771, 1, 66776); (66928, 66938, 1, 66967);
    (66940, 66954, 1, 66979); (66956, 66962, 1, 66995); (66964, 66965, 1, 67003);
    (68736, 68786, 1, 68800); (71840, 71871, 1, 71872); (93760, 93791, 1, 93792);
    (125184, 125217, 1, 125218) ].

(** The case-ignorable code points. *)
Definition case_ignorable_table : list (N * N) :=
  [
    (39, 39); (46, 46); (58, 58); (94, 94); (96, 96);
    (168, 168); (173, 173); (175, 175); (180, 180); (183, 184);
    (688, 879); (884, 885); (890, 890); (900, 901); (903, 903);
    (1155, 1161); (1369, 1369); (1375, 1375); (1425, 1469); (1471, 1471);
    (1473, 1474); (1476, 1477); (1479, 1479); (1524, 1524); (1536, 1541);
    (1552, 1562); (1564, 1564); (1600, 1600); (1611, 1631); (1648, 1648);
    (1750, 1757); (1759, 1768); (1770, 1773); (1807, 1807); (1809, 1809);
    (1840, 1866); (1958, 1968); (2027, 2037); (2042, 2042); (2045, 2045);
    (2070, 2093); (2137, 2139); (2184, 2184); (2192, 2193); (2200, 2207);
    (2249, 2306); (2362, 2362); (2364, 2364); (2369, 2376); (2381, 2381);
    (2385, 2391); (2402, 2403); (2417, 2417); (2433, 2433); (2492, 2492);
    (2497, 2500); (2509, 2509); (2530, 2531); (2558, 2558); (2561, 2562);
    (2620, 2620); (2625, 2626); (2631, 2632); (2635, 2637); (2641, 2641);
    (2672, 2673); (2677, 2677); (2689, 2690); (2748, 2748); (2753, 2757);
    (2759, 2760); (2765, 2765); (2786, 2787); (2810, 2815); (2817, 2817);
    (2876, 2876); (2879, 2879); (2881, 2884); (2893, 2893); (2901, 2902);
    (2914, 2915); (2946, 2946); (3008, 3008); (3021, 3021); (3072, 3072);
    (3076, 3076); (3132, 3132); (3134, 3136); (3142, 3144); (3146, 3149);
    (3157, 3158); (3170, 3171); (3201, 3201); (3260, 3260); (3263, 3263);
    (3270, 3270); (3276, 3277); (3298, 3299); (3328, 3329); (3387, 3388);
    (3393, 3396); (3405, 3405); (3426, 3427); (3457, 3457); (3530, 3530);
    (3538, 3540); (3542, 3542); (3633, 3633); (3636, 3642); (3654, 3662);
    (3761, 3761); (3764, 3772); (3782, 3782); (3784, 3789); (3864, 3865);
    (3893, 3893); (3895, 3895); (3897, 3897); (3953, 3966); (3968, 3972);
    (3974, 3975); (3981, 3991); (3993, 4028); (4038, 4038); (4141, 4144);
    (4146, 4151); (4153, 4154); (4157, 4158); (4184, 4185); (4190, 4192);
    (4209, 4212); (4226, 4226); (4229, 4230); (4237, 4237); (4253, 4253);
    (4348, 4348); (4957, 4959); (5906, 5908); (5938, 5939); (5970, 5971);
    (6002, 6003); (6068, 6069); (6071, 6077); (6086, 6086); (6089, 6099);
    (6103, 6103); (6109, 6109); (6155, 6159); (6211, 6211); (6277, 6278);
    (6313, 6313); (6432, 6434); (6439, 6440); (6450, 6450); (6457, 6459);
    (6679, 6680); (6683, 6683); (6742, 6742); (6744, 6750); (6752, 6752);
    (6754, 6754); (6757, 6764); (6771, 6780); (6783, 6783); (6823, 6823);
    (6832, 6862); (6912, 6915); (6964, 6964); (6966, 6970); (6972, 6972);
    (6978, 6978); (7019, 7027); (7040, 7041); (7074, 7077); (7080, 7081);
    (7083, 7085); (7142, 7142); (7144, 7145); (7149, 7149); (7151, 7153);
    (7212, 7219); (7222, 7223); (7288, 7293); (7376, 7378); (7380, 7392);
    (7394, 7400); (7405, 7405); (7412, 7412); (7416, 7417); (7468, 7530);
    (7544, 7544); (7579, 7679); (8125, 8125); (8127, 8129); (8141, 8143);
    (8157, 8159); (8173, 8175); (8189, 8190); (8203, 8207); (8216, 8217);
    (8228, 8228); (8231, 8231); (8234, 8238); (8288, 8292); (8294, 8303);
    (8305, 8305); (8319, 8319); (8336, 8348); (8400, 8432); (11388, 11389);
    (11503, 11505); (11631, 11631); (11647, 11647); (11744, 11775); (11823, 11823);
    (12293, 12293); (12330, 12333); (12337, 12341); (12347, 12347); (12441, 12446);
    (12540, 12542); (40981, 40981); (42232, 42237); (42508, 42508); (42607, 42610);
    (42612, 42621); (42623, 42623); (42652, 42655); (42736, 42737); (42752, 42785);
    (42864, 42864); (42888, 42890); (42994, 42996); (43000, 43001); (43010, 43010);
    (43014, 43014); (43019, 43019); (43045, 43046); (43052, 43052); (43204, 43205);
    (43232, 43249); (43263, 43263); (43302, 43309); (43335, 43345); (43392, 43394);
    (43443, 43443); (43446, 43449); (43452, 43453); (43471, 43471); (43493, 43494);
    (43561, 43566); (43569, 43570); (43573, 43574); (43587, 43587); (43596, 43596);
    (43632, 43632); (43644, 43644); (43696, 43696); (43698, 43700); (43703, 43704);
    (43710, 43711); (43713, 43713); (43741, 43741); (43756, 43757); (43763, 43764);
    (43766, 43766); (43867, 43871); (43881, 43883); (44005, 44005); (44008, 44008);
    (44013, 44013); (64286, 64286); (64434, 64450); (65024, 65039); (65043, 65043);
    (65056, 65071); (65106, 65106); (65109, 65109); (65279, 65279); (65287, 65287);
    (65294, 65294); (65306, 65306); (65342, 65342); (65344, 65344); (65392, 65392);
    (65438, 65439); (65507, 65507); (65529, 65531); (66045, 66045); (66272, 66272);
    (66422, 66426); (67456, 67461); (67463, 67504); (67506, 67514); (68097, 68099);
    (68101, 68102); (68108, 68111); (68152, 68154); (68159, 68159); (68325, 68326);
    (68900, 68903); (69291, 69292); (69446, 69456); (69506, 69509); (69633, 69633);
    (69688, 69702); (69744, 69744); (69747, 69748); (69759, 69761); (69811, 69814);
    (69817, 69818); (69821, 69821); (69826, 69826); (69837, 69837); (69888, 69890);
    (69927, 69931); (69933, 69940); (70003, 70003); (70016, 70017); (70070, 70078);
    (70089, 70092); (70095, 70095); (70191, 70193); (70196, 70196); (70198, 70199);
    (70206, 70206); (70367, 70367); (70371, 70378); (70400, 70401); (70459, 70460);
    (70464, 70464); (70502, 70508); (70512, 70516); (70712, 70719); (70722, 70724);
    (70726, 70726); (70750, 70750); (70835, 70840); (70842, 70842); (70847, 70848);
    (70850, 70851); (71090, 71093); (71100, 71101); (71103, 71104); (71132, 71133);
    (71219, 71226); (71229, 71229); (71231, 71232); (71339, 71339); (71341, 71341);
    (71344, 71349); (71351, 71351); (71453, 71455); (71458, 71461); (71463, 71467);
    (71727, 71735); (71737, 71738); (71995, 71996); (71998, 71998); (72003, 72003);
    (72148, 72151); (72154, 72155); (72160, 72160); (72193, 72202); (72243, 72248);
    (72251, 72254); (72263, 72263); (72273, 72278); (72281, 72283); (72330, 72342);
    (72344, 72345); (72752, 72758); (72760, 72765); (72767, 72767); (72850, 72871);
    (72874, 72880); (72882, 72883); (72885, 72886); (73009, 73014); (73018, 73018);
    (73020, 73021); (73023, 73029); (73031, 73031); (73104, 73105); (73109, 73109);
    (73111, 73111); (73459, 73460); (78896, 78904); (92912, 92916); (92976, 92982);
    (92992, 92995); (94031, 94031); (94095, 94111); (94176, 94177); (94179, 94180);
    (110576, 110579); (110581, 110587); (110589, 110590); (113821, 113822); (113824, 113827);
    (118528, 118573); (118576, 118598); (119143, 119145); (119155, 119170); (119173, 119179);
    (119210, 119213); (119362, 119364); (121344, 121398); (121403, 121452); (121461, 121461);
    (121476, 121476); (121499, 121503); (121505, 121519); (122880, 122886); (122888, 122904);
    (122907, 122913); (122915, 122916); (122918, 122922); (123184, 123197); (123566, 123566);
    (123628, 123631); (125136, 125142); (125252, 125259); (127995, 127999); (917505, 917505);
    (917536, 917631); (917760, 917999) ].

(** The cased code points that are not case-ignorable. *)
Definition cased_table : list (N * N) :=
  [
    (65, 90); (97, 122); (170, 170); (181, 181); (186, 186);
    (192, 214); (216, 246); (248, 442); (444, 447); (452, 659);
    (661, 687); (880, 883); (886, 887); (891, 893); (895, 895);
    (902, 902); (904, 906); (908, 908); (910, 929); (931, 1013);
    (1015, 1153); (1162, 1327); (1329, 1366); (1376, 1416); (4256, 4293);
    (4295, 4295); (4301, 4301); (4304, 4346); (4349, 4351); (5024, 5109);
    (5112, 5117); (7296, 7304); (7312, 7354); (7357, 7359); (7424, 7467);
    (7531, 7543); (7545, 7578); (7680, 7957); (7960, 7965); (7968, 8005);
    (8008, 8013); (8016, 8023); (8025, 8025); (8027, 8027); (8029, 8029);
    (8031, 8061); (8064, 8116); (8118, 8124); (8126, 8126); (8130, 8132);
    (8134, 8140); (8144, 8147); (8150, 8155); (8160, 8172); (8178, 8180);
    (8182, 8188); (8450, 8450); (8455, 8455); (8458, 8467); (8469, 8469);
    (8473, 8477); (8484, 8484); (8486, 8486); (8488, 8488); (8490, 8493);
    (8495, 8500); (8505, 8505); (8508, 8511); (8517, 8521); (8526, 8526);
    (8544, 8575); (8579, 8580); (9398, 9449); (11264, 11387); (11390, 11492);
    (11499, 11502); (11506, 11507); (11520, 11557); (11559, 11559); (11565, 11565);
    (42560, 42605); (42624, 42651); (42786, 42863); (42865, 42887); (42891, 42894);
    (42896, 42954); (42960, 42961); (42963, 42963); (42965, 42969); (42997, 42998);
    (43002, 43002); (43824, 43866); (43872, 43880); (43888, 43967); (64256, 64262);
    (64275, 64279); (65313, 65338); (65345, 65370); (66560, 66639); (66736, 66771);
    (66776, 66811); (66928, 66938); (66940, 66954); (66956, 66962); (66964, 66965);
    (66967, 66977); (66979, 66993); (66995, 67001); (67003, 67004); (68736, 68786);
    (68800, 68850); (71840, 71903); (93760, 93823); (119808, 119892); (119894, 119964);
    (119966, 119967); (119970, 119970); (119973, 119974); (119977, 119980); (119982, 119993);
    (119995, 119995); (119997, 120003); (120005, 120069); (120071, 120074); (120077, 120084);
    (120086, 120092); (120094, 120121); (120123, 120126); (120128, 120132); (120134, 120134);
    (120138, 120144); (120146, 120485); (120488, 120512); (120514, 120538); (120540, 120570);
    (120572, 120596); (120598, 120628); (120630, 120654); (120656, 120686); (120688, 120712);
    (120714, 120744); (120746, 120770); (120772, 120779); (122624, 122633); (122635, 122654);
    (125184, 125251); (127280, 127305); (127312, 127337); (127344, 127369) ].

Fixpoint lookup_lower (c : N) (table : list (N * N * N * N)) : N :=
  match table with
  | [] => c
  | (lo, hi, step, target) :: rest =>
      if c <? lo then c
      else if c <=? hi then
        if (c - lo) mod step =? 0 then target + (c - lo) else c
      else lookup_lower c rest
  end.

(** The lower-case mapping of one code point out of context. Only U+0130
    maps to more than one code point. *)
Definition lower_cp (c : N) : list N :=
  if c <? 128 then (if (65 <=? c) && (c <=? 90) then [c + 32] else [c])
  else if c =? 304 then [105; 775]
  else [lookup_lower c lower_table].

Definition case_ignorable (c : N) : bool := in_ranges c case_ignorable_table.

Definition cased (c : N) : bool := in_ranges c cased_table.

Fixpoint first_not_ignorable (cps : list N) : option N :=
  match cps with
  | [] => None
  | c :: rest => if case_ignorable c then first_not_ignorable rest else Some c
  end.

(** The capital sigma is a final sigma when, case-ignorable code points
    apart, a cased code point precedes it and none follows it. [before]
    holds the preceding code points, the nearest first. *)
Definition final_sigma (before after : list N) : bool :=
  match first_not_ignorable before with
  | Some c =>
      cased c &&
      match first_not_ignorable after with
      | Some d => negb (cased d)
      | None => true
      end
  | None => false
  end.

Fixpoint lower_go (before cps : list N) : list N :=
  match cps with
  | [] => []
  | c :: rest =>
      (if c =? 931 then [if final_sigma before rest then 962 else 963]
       else lower_cp c) ++ lower_go (c :: before) rest
  end.

End Unicode.

(** ** Python string primitives *)

Module Str.

(** [str.lower]: the lower-case mapping of every code point, the capital
    sigma according to its context. *)
Definition lower (s : string) : string :=
  Unicode.encode (Unicode.lower_go [] (Unicode.decode s)).

(** [needle in hay]: some suffix of [hay] starts with [needle]. *)
Fixpoint contains (needle hay : string) : bool :=
  String.prefix needle hay ||
  match hay with
  | EmptyString => false
  | String _ hay' => contains needle hay'
  end.

(** [str.isspace] of one code point: TAB..CR, FS..US, the space, NEL, the
    no-break space and the spaces and separators above them. *)
Definition is_space (c : N) : bool :=
  ((9 <=? c) && (c <=? 13) || (28 <=? c) && (c <=? 32)
   || (c =? 133) || (c =? 160) || (c =? 5760)
   || (8192 <=? c) && (c <=? 8202) || (c =? 8232) || (c =? 8233)
   || (c =? 8239) || (c =? 8287) || (c =? 12288))%N.

(** Whether [String c s] begins with a white space code point, and then
    the number of bytes of [s] that belong to it. *)
Definition space_front (c : ascii) (s : string) : option nat :=
  let '(cp, more) := Unicode.front (Unicode.byte c) s in
  if is_space cp then Some more else None.

(** [s.lstrip()]. [skip] counts the bytes still to be passed of the white
    space being dropped. *)
Fixpoint lstrip_go (skip : nat) (s : string) : string :=
  match s with
  | EmptyString => EmptyString
  | String c s' =>
      match skip with
      | S k => lstrip_go k s'
      | O =>
          match space_front c s' with
          | Some more => lstrip_go more s'
          | None => s
          end
      end
  end.

Definition lstrip (s : string) : string := lstrip_go 0 s.

(** [s.rstrip()]: the end of [s] that is white space only is dropped (an
    end that begins inside a code point is never white space only). *)
Fixpoint rstrip (s : string) : string :=
  match s with
  | EmptyString => EmptyString
  | String c s' =>
      if String.eqb (lstrip s) EmptyString then EmptyString
      else String c (rstrip s')
  end.

(** [s.strip()] *)
Definition strip (s : string) : string := rstrip (lstrip s).

(** [s.split(sep)] for a non-empty [sep]: the pieces between the
    occurrences of [sep] found scanning left to right, never fewer than one
    piece. [skip] counts the characters of a separator still to be passed.
    The result is the first piece and the later ones. *)
Fixpoint split_go (sep : string) (skip : nat) (s : string) {struct s}
  : string * list string :=
  match s with
  | EmptyString => (EmptyString, [])
  | String c s' =>
      match skip with
      | S k => split_go sep k s'
      | O =>
          if String.prefix sep s then
            let '(p, ps) := split_go sep (String.length sep - 1) s' in
            (EmptyString, p :: ps)
          else
            let '(p, ps) := split_go sep 0 s' in
            (String c p, ps)
      end
  end.

Definition split (sep s : string) : list string :=
  let '(p, ps) := split_go sep 0 s in p :: ps.

(** [s.split()]: the maximal runs of code points that are not white space.
    The first component is the run being read at the front of [s]; [skip]
    counts the bytes still to be passed of a white space. *)
Fixpoint split_ws_go (skip : nat) (s : string) : string * list string :=
  match s with
  | EmptyString => (EmptyString, [])
  | String c s' =>
      match skip with
      | S k => split_ws_go k s'
      | O =>
          match space_front c s' with
          | Some more =>
              let '(w, ws) := split_ws_go more s' in
              (EmptyString, match w with EmptyString => ws | _ => w :: ws end)
          | None =>
              let '(w, ws) := split_ws_go 0 s' in (String c w, ws)
          end
      end
  end.

Definition split_ws (s : string) : list string :=
  let '(w, ws) := split_ws_go 0 s in
  match w with EmptyString => ws | _ => w :: ws end.

(** [s.replace(old, new)] for a non-empty [old]: every occurrence found
    scanning left to right, without overlap. *)
Fixpoint replace_go (old new : string) (skip : nat) (s : string) {struct s}
  : string :=
  match s with
  | EmptyString => EmptyString
  | String c s' =>
      match skip with
      | S k => replace_go old new k s'
      | O =>
          if String.prefix old s then
            String.append new (replace_go old new (String.length old - 1) s')
          else String c (replace_go old new 0 s')
      end
  end.

Definition replace (old new s : string) : string := replace_go old new 0 s.

(** [sep.join(parts)] *)
Definition join (sep : string) (parts : list string) : string :=
  String.concat sep parts.

(** [s[n:]] *)
Fixpoint drop (n : nat) (s : string) : string :=
  match n, s with
  | S n', String _ s' => drop n' s'
  | _, _ => s
  end.

(** The double-quote character. *)
Definition dquote : ascii := ascii_of_nat 34.

(** [c in s] for one character. *)
Fixpoint has_char (c : ascii) (s : string) : bool :=
  match s with
  | EmptyString => false
  | String d s' => Ascii.eqb c d || has_char c s'
  end.

(** All characters of [s] but [c], in order. *)
Fixpoint remove_char (c : ascii) (s : string) : string :=
  match s with
  | EmptyString => EmptyString
  | String d s' =>
      if Ascii.eqb c d then remove_char c s' else String d (remove_char c s')
  end.

End Str.

(** ** Link prioritizer: [get_best_m3u8_link] *)

(** ['index' in link.lower() and 'master' not in link.lower()] *)
Definition is_priority_link (link : string) : bool :=
  Str.contains "index" (Str.lower link) &&
  negb (Str.contains "master" (Str.lower link)).

(** ['master' not in link.lower()] *)
Definition is_non_master_link (link : string) : bool :=
  negb (Str.contains "master" (Str.lower link)).

Definition get_best_m3u8_link (video_links : list string) : option string :=
  if bool_decide (video_links = []) then None
  else
    let priority_links := List.filter is_priority_link video_links in
    if negb (bool_decide (priority_links = [])) then priority_links !! 0%nat
    else
      let non_master_links := List.filter is_non_master_link video_links in
      if negb (bool_decide (non_master_links = [])) then non_master_links !! 0%nat
      else video_links !! 0%nat.

(** ** The outside world: calls, environments and the monad *)

(** A located page element (a Selenium [WebElement]) and a child process. *)
Definition handle := nat.
Definition pid := nat.

(** Locator strategies ([By.*]) used by the module. *)
Inductive by_ : Set := ByTagName | ByCssSelector | ByXPath.

(** The scripts handed to [driver.execute_script]. *)
Inductive script : Set :=
| ScriptClick          (* arguments[0].click(); *)
| ScriptScrollClick    (* scrollIntoView(...); arguments[0].click(); *)
| ScriptRemovePopups.  (* querySelectorAll(...).forEach(remove) *)

(** One record of the browser's performance log, after
    [json.loads(entry['message'])['message']]: either decoding or a key
    lookup fails, or the record has a method and possibly a response URL. *)
Inductive perf_entry : Set :=
| Malformed
| Message (method : string) (url : option string).

(** Log lines of the redirect poll, the only ones that expose a computed
    value the function does not return. *)
Inductive log_record : Set :=
| LogRedirected (elapsed : Z)     (* Redirected after {elapsed} seconds! *)
| LogFinalUrl (url : string)      (* Final URL: {current_url} *)
| LogWaiting (remaining : Z)      (* Waiting for redirect... {remaining} ... *)
| LogNoRedirect.                  (* No redirect after maximum wait time *)

(** Exceptions, by class. [WebDriverException] stands for every Selenium
    error other than the two the module names (a stale element among them). *)
Inductive exn : Set :=
| TimeoutException
| ElementClickInterceptedException
| WebDriverException
| UnboundLocalError
| ValueError
| OSError.

(** Every call that leaves the program. *)
Inductive call : Set :=
| ChromeStart                                     (* webdriver.Chrome(options=...) *)
| SetPageLoadTimeout (secs : nat)
| ExecuteCdpCmd (cmd : string)
| Quit                                            (* driver.quit() *)
| Get (url : string)                              (* driver.get(url) *)
| WaitReadyState (secs : nat)                     (* WebDriverWait(..).until(readyState) *)
| FindElement (b : by_) (value : string)
| FindElements (b : by_) (value : string)
| GetAttribute (h : handle) (name : string)
| GetText (h : handle)
| WaitPresence (b : by_) (value : string) (secs : nat)
| WaitVisibility (b : by_) (value : string) (secs : nat)
| ExecuteScript (s : script) (args : list handle)
| ActionClick (h : handle)                        (* ActionChains move_to_element click *)
| CurrentUrl                                      (* driver.current_url *)
| GetLogPerformance                               (* driver.get_log('performance') *)
| SwitchToFrame (h : handle)
| SwitchToDefaultContent
| Sleep (secs : nat)                              (* time.sleep *)
| TimeTime                                        (* time.time(), in milliseconds *)
| PathExists (path : string)                      (* os.path.exists *)
| ExpandUser (path : string)                      (* os.path.expanduser *)
| Popen (exe link : string)                       (* subprocess.Popen([exe, link]) *)
| Poll (p : pid)                                  (* process.poll() *)
| Terminate (p : pid)
| Input (prompt : string)
| Print (line : string)
| ReadLines (path : string)                       (* for line in open(path) *)
| ReadFile (path : string)                        (* open(path).read() *)
| WriteFile (path content : string)
| AppendFile (path content : string)
| Shuffle (items : list string)                   (* random.shuffle *)
| Log (r : log_record).

(** What each call answers with. *)
Definition resp (c : call) : Type :=
  match c with
  | FindElement _ _ | WaitPresence _ _ _ | WaitVisibility _ _ _ => handle
  | FindElements _ _ => list handle
  | GetAttribute _ _ => option string
  | GetText _ | CurrentUrl | ExpandUser _ | Input _ | ReadFile _ => string
  | GetLogPerformance => list perf_entry
  | TimeTime => Z
  | PathExists _ => bool
  | Popen _ _ => pid
  | Poll _ => option Z
  | ReadLines _ | Shuffle _ => list string
  | _ => unit
  end.

(** The calls made so far, oldest first. *)
Definition trace := list call.

(** An environment answers a call, or raises, knowing the calls before it. *)
Definition env := trace -> forall c : call, exn + resp c.

(** How a computation ends: a value, an exception, or a loop bound used up. *)
Inductive result (A : Type) : Type :=
| Ok (a : A)
| Exc (e : exn)
| OutOfFuel.
Arguments Ok {A} a.
Arguments Exc {A} e.
Arguments OutOfFuel {A}.

Definition M (A : Type) : Type := env -> trace -> trace * result A.

Definition ret {A} (a : A) : M A := fun _ t => (t, Ok a).

Definition raise {A} (e : exn) : M A := fun _ t => (t, Exc e).

Definition out_of_fuel {A} : M A := fun _ t => (t, OutOfFuel).

Definition bind {A B} (m : M A) (k : A -> M B) : M B :=
  fun w t =>
    match m w t with
    | (t', Ok a) => k a w t'
    | (t', Exc e) => (t', Exc e)
    | (t', OutOfFuel) => (t', OutOfFuel)
    end.

(** Issue a call: it enters the trace and the environment answers. *)
Definition do (c : call) : M (resp c) :=
  fun w t =>
    ((t ++ [c])%list, match w t c with inl e => Exc e | inr v => Ok v end).

(** [try: body  except Exception as e: handler(e)] *)
Definition try_except {A} (body : M A) (handler : exn -> M A) : M A :=
  fun w t =>
    match body w t with
    | (t', Exc e) => handler e w t'
    | r => r
    end.

Declare Scope m_scope.
Delimit Scope m_scope with M.
Notation "x <- m ;; k" := (bind m (fun x => k))
  (at level 100, m at next level, right associativity) : m_scope.
Notation "m ;; k" := (bind m (fun _ => k))
  (at level 100, right associativity) : m_scope.
Local Open Scope m_scope.


Definition spawn_of (c : call) : option (string * string) :=
  match c with Popen e l => Some (e, l) | _ => None end.

Definition session_of (c : call) : option unit :=
  match c with ChromeStart => Some tt | _ => None end.

Definition waited_xpath_of (c : call) : option string :=
  match c with WaitPresence ByXPath v _ => Some v | _ => None end.

Definition poll_of (c : call) : option unit :=
  match c with CurrentUrl => Some tt | _ => None end.

Definition sleep_of (c : call) : option nat :=
  match c with Sleep n => Some n | _ => None end.

Definition log_of (c : call) : option log_record :=
  match c with Log r => Some r | _ => None end.


(** The player processes started, with executable and link. *)
Definition spawns (t : trace) : list (string * string) := omap spawn_of t.

(** How many browser sessions were opened. *)
Definition sessions (t : trace) : nat := length (omap session_of t).

(** The locators of the options waited for. *)
Definition waited_xpaths (t : trace) : list string := omap waited_xpath_of t.

(** How often [driver.current_url] was read. *)
Definition polls (t : trace) : nat := length (omap poll_of t).

(** The seconds spent in [time.sleep]. *)
Definition slept (t : trace) : nat := list_sum (omap sleep_of t).

(** The log lines written. *)
Definition logged (t : trace) : list log_record := omap log_of t.

(** [p] only adds calls that satisfy [Q] to the trace. *)
Definition adds {A} (Q : call -> Prop) (p : M A) : Prop :=
  forall (w : env) (t : trace), exists d, (p w t).1 = t ++ d /\ Forall Q d.

(** ** Element waits: [wait_for_element] *)

(** Presence, then visibility; a timeout is logged and raised again, so the
    handler changes nothing. *)
Definition wait_for_element (b : by_) (value : string) (timeout : nat) : M handle :=
  try_except
    (element <- do (WaitPresence b value timeout);;
     do (WaitVisibility b value timeout);;
     ret element)
    (fun e => raise e).

(** ** Source option selector: [find_and_click_video_option] *)

Definition hd_options : list (string * string) :=
  [ ("vidhide_hd", "//span[contains(text(), 'vidhide - HD')]");
    ("filemoon_hd", "//span[contains(text(), 'filemoon - HD')]");
    ("voesx_hd", "//span[contains(text(), 'voesx - HD')]") ].

Definition cam_options : list (string * string) :=
  [ ("vidhide_cam", "//span[contains(text(), 'vidhide - CAM')]");
    ("filemoon_cam", "//span[contains(text(), 'filemoon - CAM')]");
    ("voesx_cam", "//span[contains(text(), 'voesx - CAM')]") ].

(** [any(source_flags.values())] *)
Definition has_flags (source_flags : gmap string bool) : bool :=
  existsb (fun kv => snd kv) (map_to_list source_flags).

(** [if source_flags.get(flag)] *)
Definition flag_set (source_flags : gmap string bool) (flag : string) : bool :=
  match source_flags !! flag with
  | Some true => true
  | _ => false
  end.

(** The options of one group whose flag is set, with the group's quality. *)
Definition flagged (source_flags : gmap string bool)
    (options : list (string * string)) (quality : string) : list (string * string) :=
  omap (fun '(flag, xpath) =>
          if flag_set source_flags flag then Some (xpath, quality) else None)
       options.

(** [options_to_try] as built by the two branches on [has_flags]. *)
Definition options_to_try (source_flags : gmap string bool) : list (string * string) :=
  if has_flags source_flags then
    (flagged source_flags hd_options "HD"
       ++ flagged source_flags cam_options "CAM")%list
  else
    (map (fun '(_, xpath) => (xpath, "HD")) hd_options
       ++ map (fun '(_, xpath) => (xpath, "CAM")) cam_options)%list.

(** The body of the loop over [options_to_try]: [true] when the option was
    found, clicked and the settle delay passed, [false] when anything in it
    raised (the [except Exception ... continue]). *)
Definition try_option (option : string * string) : M bool :=
  let '(option_xpath, _) := option in
  try_except
    (video_option <- wait_for_element ByXPath option_xpath 20;;
     do (ExecuteScript ScriptClick [video_option]);;
     do (Sleep 8);;
     ret true)
    (fun _ => ret false).

Fixpoint try_options (options : list (string * string)) : M (bool * bool) :=
  match options with
  | [] => ret (false, false)
  | option :: rest =>
      clicked <- try_option option;;
      if clicked then ret (true, false) else try_options rest
  end.

(** [source_flags=None] is [None]; it becomes the empty dict. *)
Definition find_and_click_video_option (source_flags : option (gmap string bool))
  : M (bool * bool) :=
  let source_flags := default ∅ source_flags in
  if has_flags source_flags && bool_decide (options_to_try source_flags = [])
  then ret (false, false)
  else try_options (options_to_try source_flags).

(** The trace after a run of attempts that all fail, if they all do. *)
Fixpoint failed_attempts (w : env) (t : trace) (options : list (string * string))
  : option trace :=
  match options with
  | [] => Some t
  | option :: rest =>
      match try_option option w t with
      | (t', Ok false) => failed_attempts w t' rest
      | _ => None
      end
  end.

(** The six known (flag, locator, quality) entries in declaration order. *)
Definition known_options : list (string * string * string) :=
  [ ("vidhide_hd", "//span[contains(text(), 'vidhide - HD')]", "HD");
    ("filemoon_hd", "//span[contains(text(), 'filemoon - HD')]", "HD");
    ("voesx_hd", "//span[contains(text(), 'voesx - HD')]", "HD");
    ("vidhide_cam", "//span[contains(text(), 'vidhide - CAM')]", "CAM");
    ("filemoon_cam", "//span[contains(text(), 'filemoon - CAM')]", "CAM");
    ("voesx_cam", "//span[contains(text(), 'voesx - CAM')]", "CAM") ].

(** A page on which exactly the options whose locator satisfies [present]
    can be found and clicked. *)
Definition page_with (present : string -> bool) : env :=
  fun _ c =>
    match c return exn + resp c with
    | WaitPresence ByXPath v _ => if present v then inr 1%nat else inl TimeoutException
    | WaitVisibility ByXPath v _ => if present v then inr 1%nat else inl TimeoutException
    | ExecuteScript _ _ => inr tt
    | Sleep _ => inr tt
    | _ => inl WebDriverException
    end.

Definition filemoon_hd_xpath : string := "//span[contains(text(), 'filemoon - HD')]".

(** A page on which no option is ever found. *)
Definition page_without_options : env := page_with (fun _ => false).

(** ** Embed/redirect resolver: [check_and_handle_iframe] *)

(** A log line enters the trace; logging cannot fail. *)
Definition log (r : log_record) : M unit :=
  fun _ t => (t ++ [Log r], Ok tt).

(** [s] between double quotes. *)
Definition quoted (s : string) : string :=
  String Str.dquote (String.append s (String Str.dquote EmptyString)).

(** img.icon[src=<quoted /s/images/logos/voe-logo-2.svg>] *)
Definition voe_logo_css : string :=
  String.append "img.icon[src="
    (String.append (quoted "/s/images/logos/voe-logo-2.svg") "]").

(** img[src=<quoted play.png>][alt=<quoted Reproducir>][id=<quoted start>] *)
Definition play_button_css : string :=
  String.concat ""
    [ "img[src="; quoted "play.png"; "][alt="; quoted "Reproducir";
      "][id="; quoted "start"; "]" ].

(** [max_wait], in seconds, and the clock's ticks per second. *)
Definition max_wait : Z := 30.
Definition ticks : Z := 1000.

(** The [while time.time() - start_time < max_wait] loop. [int(...)]
    truncates, hence [Z.quot]. One unit of [fuel] is one test of the
    loop condition. *)
Fixpoint poll_loop (fuel : nat) (player_url : string) (start_time : Z)
  : M (option string) :=
  match fuel with
  | O => out_of_fuel
  | S fuel' =>
      now <- do TimeTime;;
      if (now - start_time <? max_wait * ticks)%Z then
        current_url <- do CurrentUrl;;
        if negb (String.eqb current_url player_url) then
          now <- do TimeTime;;
          let elapsed := Z.quot (now - start_time) ticks in
          log (LogRedirected elapsed);;
          log (LogFinalUrl current_url);;
          ret (Some current_url)
        else
          now <- do TimeTime;;
          let elapsed := Z.quot (now - start_time) ticks in
          let remaining := (max_wait - elapsed)%Z in
          log (LogWaiting remaining);;
          do (Sleep 1);;
          poll_loop fuel' player_url start_time
      else
        log LogNoRedirect;;
        ret None
  end.

(** [start_time = time.time()] and the loop after it. *)
Definition wait_for_redirect (fuel : nat) (player_url : string) : M (option string) :=
  start_time <- do TimeTime;;
  poll_loop fuel player_url start_time.

(** The handler of the play-button [try]: the other way to click, then
    the same wait. [play_button] is unbound when the wait for it raised. *)
Definition alternative_click (fuel : nat) (player_url : string)
    (play_button : option handle) : M (option string) :=
  try_except
    (match play_button with
     | None => raise UnboundLocalError
     | Some button =>
         do (ActionClick button);;
         wait_for_redirect fuel player_url
     end)
    (fun _ => ret None).

(** The branch for a frame of the player (lines 339-414). The [try] body is
    split at the wait for the play button, so that the handler knows whether
    [play_button] was bound. *)
Definition handle_player_iframe (fuel : nat) (player_url : string)
  : M (option string) :=
  do (Get player_url);;
  do (Sleep 3);;
  found <- try_except
             (play_button <- do (WaitPresence ByCssSelector play_button_css 10);;
              ret (Some play_button))
             (fun _ => ret None);;
  match found with
  | None => alternative_click fuel player_url None
  | Some play_button =>
      try_except
        (do (ExecuteScript ScriptClick [play_button]);;
         wait_for_redirect fuel player_url)
        (fun _ => alternative_click fuel player_url (Some play_button))
  end.

(** The branch for a voe.sx frame (lines 315-336): [Some url] is the
    [return driver.current_url], [None] the [continue] of its handler. *)
Definition handle_voe_iframe (src : string) : M (option string) :=
  do (Get src);;
  do (Sleep 3);;
  try_except
    (voe_logo <- do (WaitPresence ByCssSelector voe_logo_css 10);;
     do (ExecuteScript ScriptClick [voe_logo]);;
     do (Sleep 3);;
     current_url <- do CurrentUrl;;
     ret (Some current_url))
    (fun _ => ret None).

(** The loop over the frames. *)
Fixpoint scan_iframes (fuel : nat) (iframes : list handle) : M (option string) :=
  match iframes with
  | [] => ret None
  | iframe :: rest =>
      src <- do (GetAttribute iframe "src");;
      match src with
      | None => scan_iframes fuel rest
      | Some src =>
          if String.eqb src "" then scan_iframes fuel rest
          else if Str.contains "voe.sx" src then
            resolved <- handle_voe_iframe src;;
            match resolved with
            | Some current_url => ret (Some current_url)
            | None => scan_iframes fuel rest
            end
          else if Str.contains "player.cuevana3.eu/player.php" src then
            handle_player_iframe fuel src
          else scan_iframes fuel rest
      end
  end.

Definition check_and_handle_iframe (fuel : nat) : M (option string) :=
  try_except
    (iframes <- do (FindElements ByTagName "iframe");;
     scan_iframes fuel iframes)
    (fun _ => ret None).

(** ** Resource harvester: [get_waaw_link], [find_m3u8_links] *)

(** The loop of [get_waaw_link] over the frames. *)
Fixpoint first_waaw_src (iframes : list handle) : M (option string) :=
  match iframes with
  | [] => ret None
  | iframe :: rest =>
      src <- do (GetAttribute iframe "src");;
      match src with
      | Some src =>
          if negb (String.eqb src "") && Str.contains "waaw.to" src
          then ret (Some src)
          else first_waaw_src rest
      | None => first_waaw_src rest
      end
  end.

Definition get_waaw_link : M (option string) :=
  try_except
    (iframes <- do (FindElements ByTagName "iframe");;
     first_waaw_src iframes)
    (fun _ => ret None).

(** One pass over performance-log records: the URL of every
    [Network.responseReceived] record that contains ".m3u8" is added to the
    set; a record that cannot be decoded is skipped. *)
Definition scan_entry (m3u8_links : gset string) (entry : perf_entry) : gset string :=
  match entry with
  | Malformed => m3u8_links
  | Message method url =>
      if Str.contains "Network.responseReceived" method then
        match url with
        | Some url =>
            if Str.contains ".m3u8" url then m3u8_links ∪ {[ url ]} else m3u8_links
        | None => m3u8_links
        end
      else m3u8_links
  end.

Definition scan_entries (m3u8_links : gset string) (logs : list perf_entry)
  : gset string :=
  fold_left scan_entry logs m3u8_links.

(** The [try] body for one frame. The set is a Python object mutated in
    place: what the frame's records added stays when the switch back to the
    top document raises, hence the inner handler. *)
Definition scan_frame (m3u8_links : gset string) (iframe : handle) : M (gset string) :=
  try_except
    (do (SwitchToFrame iframe);;
     do (Sleep 2);;
     iframe_logs <- do GetLogPerformance;;
     let found := scan_entries m3u8_links iframe_logs in
     try_except
       (do SwitchToDefaultContent;; ret found)
       (fun _ => ret found))
    (fun _ => ret m3u8_links).

(** The loop over the frames. *)
Fixpoint scan_frame_logs (m3u8_links : gset string) (iframes : list handle)
  : M (gset string) :=
  match iframes with
  | [] => ret m3u8_links
  | iframe :: rest =>
      m3u8_links' <- scan_frame m3u8_links iframe;;
      scan_frame_logs m3u8_links' rest
  end.

Definition find_m3u8_links (is_netu : bool) : M (list string) :=
  if is_netu then
    waaw_link <- get_waaw_link;;
    match waaw_link with
    | Some link => if String.eqb link "" then ret [] else ret [link]
    | None => ret []
    end
  else
    logs <- do GetLogPerformance;;
    let m3u8_links := scan_entries ∅ logs in
    iframes <- do (FindElements ByTagName "iframe");;
    m3u8_links <- scan_frame_logs m3u8_links iframes;;
    do (Sleep 5);;
    final_logs <- do GetLogPerformance;;
    ret (elements (scan_entries m3u8_links final_logs)).

(** ** Playback verifier: [try_play_in_vlc] *)

Definition vlc_default_path : string := "C:\Program Files\VideoLAN\VLC\vlc.exe".
Definition vlc_x86_path : string := "C:\Program Files (x86)\VideoLAN\VLC\vlc.exe".
Definition vlc_user_path : string := "~\AppData\Local\Programs\VideoLAN\VLC\vlc.exe".

(** The links the filter of line 457 drops. *)
Definition is_excluded_link (link : string) : bool :=
  Str.contains "swiftplayers.com/stream/" link ||
  Str.contains "jonathansociallike.com" link.

(** The [for path in alt_paths ... else] loop: the first path that exists. *)
Fixpoint first_existing_path (paths : list string) : M (option string) :=
  match paths with
  | [] => ret None
  | path :: rest =>
      found <- do (PathExists path);;
      if found then ret (Some path) else first_existing_path rest
  end.

(** The player executable, or [None] where the code returns False. *)
Definition locate_vlc : M (option string) :=
  found <- do (PathExists vlc_default_path);;
  if found then ret (Some vlc_default_path)
  else
    user_path <- do (ExpandUser vlc_user_path);;
    first_existing_path [vlc_x86_path; user_path].

Definition newline : string := String (ascii_of_nat 10) EmptyString.

(** The [while True] prompt: one unit of [fuel] per question. *)
Fixpoint ask_user (fuel : nat) : M string :=
  match fuel with
  | O => out_of_fuel
  | S fuel' =>
      answer <- do (Input (String.append newline
                      "Is the video playing correctly in VLC? (yes/no): "));;
      let response := Str.strip (Str.lower answer) in
      if String.eqb response "yes" || String.eqb response "no" then ret response
      else do (Print "Please answer 'yes' or 'no'");; ask_user fuel'
  end.

(** The [try] body for one link: [Some b] is [return b], [None] is
    [continue]. *)
Definition play_link (fuel : nat) (auto_test : bool) (link : string)
  : M (option bool) :=
  vlc_path <- locate_vlc;;
  match vlc_path with
  | None => ret (Some false)
  | Some vlc_path =>
      process <- do (Popen vlc_path link);;
      do (Sleep 5);;
      status <- do (Poll process);;
      if negb (bool_decide (status = None)) then ret None
      else if auto_test then
        do (Sleep 25);;
        status <- do (Poll process);;
        if bool_decide (status = None) then
          do (Terminate process);;
          do (Sleep 2);;
          ret (Some true)
        else ret None
      else
        response <- ask_user fuel;;
        if String.eqb response "yes" then ret (Some true)
        else
          do (Terminate process);;
          do (Sleep 2);;
          ret None
  end.

Fixpoint play_links (fuel : nat) (auto_test : bool) (links : list string) : M bool :=
  match links with
  | [] => ret false
  | link :: rest =>
      outcome <- try_except (play_link fuel auto_test link) (fun _ => ret None);;
      match outcome with
      | Some b => ret b
      | None => play_links fuel auto_test rest
      end
  end.

Definition try_play_in_vlc (fuel : nat) (video_links : list string) (auto_test : bool)
  : M bool :=
  if bool_decide (video_links = []) then ret false
  else
    let filtered_links :=
      List.filter (fun link => negb (is_excluded_link link)) video_links in
    if bool_decide (filtered_links = []) then ret false
    else play_links fuel auto_test filtered_links.

(** ** Movie details: [get_movie_details] *)

Record movie_details : Type := {
  title : string;
  image_url : option string;
  description : string;
  info : string;
  genres : list string;
  actors : list string
}.

(** [[a.text for a in elements]] *)
Fixpoint texts (elements : list handle) : M (list string) :=
  match elements with
  | [] => ret []
  | a :: rest =>
      text <- do (GetText a);;
      more <- texts rest;;
      ret (text :: more)
  end.

Definition get_movie_details : M (option movie_details) :=
  try_except
    (title_element <- do (FindElement ByCssSelector "h1.Title");;
     title <- do (GetText title_element);;
     img_element <- do (FindElement ByCssSelector "figure img.lazy");;
     image_url <- do (GetAttribute img_element "src");;
     description_element <- do (FindElement ByCssSelector "div.Description");;
     description <- do (GetText description_element);;
     info_element <- do (FindElement ByCssSelector "p.Info");;
     info <- do (GetText info_element);;
     genre_links <- do (FindElements ByCssSelector "li.AAIco-adjust:first-child a");;
     genres <- texts genre_links;;
     actor_links <- do (FindElements ByCssSelector "li.AAIco-adjust:nth-child(2) a");;
     actors <- texts actor_links;;
     ret (Some {| title := title; image_url := image_url;
                  description := description; info := info;
                  genres := genres; actors := actors |}))
    (fun _ => ret None).

(** ** Manifest entry formatter: [format_roku_xml] *)

(** [str(x)] of a value that may be [None], as an f-string prints it. *)
Definition str_of (x : option string) : string :=
  match x with Some s => s | None => "None" end.

(** [.strip().replace(<two quotes>, '').replace(<one quote>, '')] *)
Definition clean_text (s : string) : string :=
  Str.replace (String Str.dquote EmptyString) ""
    (Str.replace (String Str.dquote (String Str.dquote EmptyString)) ""
       (Str.strip s)).

(** The f-string of lines 621-634. *)
Definition item_xml (title description image_url video_url genres year runtime : string)
  : string :=
  String.concat ""
    [ "   <item"; newline;
      "           title="; quoted title; newline;
      "           description="; quoted description; newline;
      "           hdposterurl="; quoted image_url; newline;
      "           streamformat="; quoted "hls"; newline;
      "           url="; quoted video_url; ">"; newline;
      newline;
      "      <genre>"; genres; "</genre>"; newline;
      "      <year>"; year; "</year>"; newline;
      "      <runtime>"; runtime; "</runtime>"; newline;
      newline;
      "      <subtitle language="; quoted "eng"; " description="; quoted "English";
        " url="; quoted ""; "/>"; newline;
      "      <subtitle language="; quoted "spa"; " description="; quoted "Spanish";
        " url="; quoted ""; "/>"; newline;
      "   </item>" ].

(** [info_parts[-1] if len(info_parts) > 0 else ""] *)
Definition year_of (info_parts : list string) : string :=
  List.last info_parts "".

(** [" ".join(info_parts[1:-1]) if len(info_parts) > 2 else ""] *)
Definition runtime_of (info_parts : list string) : string :=
  if (2 <? length info_parts)%nat
  then Str.join " " (removelast (tail info_parts))
  else "".

(** The loop that looks for the first link the player sustains; the result
    is [video_url], empty when none passes. *)
Fixpoint first_working_link (fuel : nat) (video_links : list string) : M string :=
  match video_links with
  | [] => ret ""
  | link :: rest =>
      plays <- try_play_in_vlc fuel [link] true;;
      if plays then ret link else first_working_link fuel rest
  end.

Definition format_roku_xml (fuel : nat) (details : option movie_details)
    (video_links : list string) : M (option string) :=
  match details with
  | None => ret None
  | Some details =>
      if bool_decide (video_links = []) then ret None
      else
        let info_parts := Str.split_ws (info details) in
        let year := year_of info_parts in
        let runtime := runtime_of info_parts in
        video_url <- first_working_link fuel video_links;;
        if String.eqb video_url "" then ret None
        else
          let genres := Str.join ", " (genres details) in
          let title := clean_text (title details) in
          let description := clean_text (description details) in
          ret (Some (item_xml title description (str_of (image_url details))
                       video_url genres year runtime))
  end.

(** ** Batch run: [process_all_movies_for_roku] *)

(** The titles of the history file: the first segment of every line that
    has the separator, stripped and lower-cased. *)
Definition load_history (lines : list string) : gset string :=
  fold_left
    (fun processed_movies line =>
       if Str.contains " | " line then
         let title := Str.strip (List.hd "" (Str.split " | " line)) in
         processed_movies ∪ {[ Str.lower title ]}
       else processed_movies)
    lines ∅.


(** The click on the dropdown, tried three times: only an intercepted
    click is retried, and the third one is raised. *)
Fixpoint click_dropdown (attempts : nat) (dropdown_button : handle) : M unit :=
  match attempts with
  | O => ret tt
  | S remaining =>
      try_except
        (do (ExecuteScript ScriptScrollClick [dropdown_button]);;
         do (Sleep 2))
        (fun e =>
           match e with
           | ElementClickInterceptedException =>
               match remaining with
               | O => raise e
               | S _ => do (Sleep 2);; click_dropdown remaining dropdown_button
               end
           | _ => raise e
           end)
  end.

(** The loop that looks for the first link the player sustains; [None] when
    none passes. *)
Fixpoint working_link_of (fuel : nat) (video_links : list string)
  : M (option string) :=
  match video_links with
  | [] => ret None
  | link :: rest =>
      plays <- try_play_in_vlc fuel [link] true;;
      if plays then ret (Some link) else working_link_of fuel rest
  end.

(** What happens inside the session of one target, from [driver.get(url)]
    to the writes (lines 731-818). The result is the manifest text to carry
    to the next target. An exception after [content] was assigned leaves
    the new text in place, hence the handler around the history write. *)
Definition session_body (fuel : nat) (content title url : string) : M string :=
  do (Get url);;
  do (WaitReadyState 30);;
  do (Sleep 5);;
  details <- get_movie_details;;
  match details with
  | None => ret content
  | Some _ =>
      try_except
        (do (ExecuteScript ScriptRemovePopups []);; do (Sleep 2))
        (fun _ => ret tt);;
      dropdown_button <-
        wait_for_element ByCssSelector "div.H_ndV_0.fa.fa-chevron-down" 20;;
      click_dropdown 3 dropdown_button;;
      selected <- find_and_click_video_option None;;
      let '(success, is_netu) := selected in
      if negb success then ret content
      else
        do (Sleep 5);;
        final_url <- check_and_handle_iframe fuel;;
        video_links <-
          (match final_url with
           | Some (String _ _) => find_m3u8_links false
           | _ => do (Sleep 10);; find_m3u8_links is_netu
           end);;
        if bool_decide (video_links = []) then ret content
        else
          working_link <- working_link_of fuel video_links;;
          match working_link with
          | None | Some EmptyString => ret content
          | Some working_link =>
              roku_xml <- format_roku_xml fuel details [working_link];;
              match roku_xml with
              | None | Some EmptyString => ret content
              | Some roku_xml =>
                  do (WriteFile "RokuChannelList.xml"
                        (String.concat ""
                           [content; newline; roku_xml; newline; "</Content>"]));;
                  let content' := String.concat "" [content; newline; roku_xml] in
                  try_except
                    (do (AppendFile "MainHistory.txt"
                           (String.concat "" [title; " | "; working_link; newline]));;
                     ret content')
                    (fun _ => ret content')
              end
          end
  end.

(** One turn of the loop over the targets. Every exception ends the turn
    (the [except Exception ... continue]), so the handlers below return the
    manifest text as it stands; [driver.quit()] is the [finally] of the
    session, and an exception of its own ends the turn all the same. The
    handler of the turn logs [title]: when the unpacking of the very first
    line fails, [title] is unbound there and the error leaves the loop.
    [title_bound] says whether an earlier turn has assigned it. *)
Definition process_movie (fuel : nat) (processed_movies : gset string)
    (title_bound : bool) (content movie_line : string) : M string :=
  match Str.split " | " movie_line with
  | [title; url] =>
      let title := Str.strip title in
      let url := Str.strip url in
      if bool_decide (Str.lower title ∈ processed_movies) then ret content
      else
        try_except
          (do ChromeStart;;
           do (SetPageLoadTimeout 60);;
           do (ExecuteCdpCmd "Network.setUserAgentOverride");;
           do (ExecuteCdpCmd "Page.addScriptToEvaluateOnNewDocument");;
           content' <- try_except (session_body fuel content title url)
                         (fun _ => ret content);;
           try_except (do Quit) (fun _ => ret tt);;
           ret content')
          (fun _ => ret content)
  | _ => if title_bound then ret content else raise UnboundLocalError
  end.

(** Whether the unpacking [title, url = movie_line.split(' | ')] succeeds. *)
Definition well_formed (movie_line : string) : bool :=
  match Str.split " | " movie_line with
  | [_; _] => true
  | _ => false
  end.

Fixpoint process_movies (fuel : nat) (processed_movies : gset string)
    (title_bound : bool) (content : string) (movies : list string) : M unit :=
  match movies with
  | [] => ret tt
  | movie_line :: rest =>
      content' <- process_movie fuel processed_movies title_bound content movie_line;;
      process_movies fuel processed_movies
        (title_bound || well_formed movie_line) content' rest
  end.


(** ** Notions used in the statements, and sample environments *)


(** Whether a page was navigated to after the last lookup of elements. *)
Definition navigated_since_lookup (t : trace) : bool :=
  fold_left
    (fun navigated c =>
       match c with
       | FindElements _ _ => false
       | Get _ => true
       | _ => navigated
       end) t false.



Definition voe_frame_url : string := "https://voe.sx/e/abc".
Definition player_frame_url : string := "https://player.cuevana3.eu/player.php?h=xyz".
Definition stream_page_url : string := "https://cdn.example/stream".



(** The clock advances with the sleeps only, and sleeping never fails. *)
Definition ideal_clock (w : env) : Prop :=
  forall t : trace,
    w t TimeTime = inr (ticks * Z.of_nat (slept t))%Z /\
    forall n, w t (Sleep n) = inr tt.

(** The elapsed seconds written to the log on a redirect. *)
Definition redirect_elapsed (t : trace) : list Z :=
  omap (fun c => match c with Log (LogRedirected e) => Some e | _ => None end) t.

(** The log lines of [k] rounds of waiting that start at round [j]. *)
Definition waiting_lines (j k : nat) : list log_record :=
  map (fun i => LogWaiting (max_wait - Z.of_nat i)) (seq j k).

(** A player page whose URL changes once [k] seconds of polling have
    passed (the three seconds before the click come first). *)
Definition redirect_page (k : nat) : env :=
  fun t c =>
    match c return exn + resp c with
    | Get _ => inr tt
    | Sleep _ => inr tt
    | WaitPresence _ _ _ => inr 9%nat
    | ExecuteScript _ _ => inr tt
    | TimeTime => inr (ticks * Z.of_nat (slept t))%Z
    | CurrentUrl =>
        inr (if (slept t <? 3 + k)%nat then player_frame_url else stream_page_url)
    | _ => inl WebDriverException
    end.




(** A machine where the player is installed and keeps playing whatever it
    is given. *)
Definition working_player : env :=
  fun _ c =>
    match c return exn + resp c with
    | PathExists _ => inr true
    | Popen _ _ => inr 1%nat
    | Poll _ => inr None
    | Sleep _ => inr tt
    | Terminate _ => inr tt
    | _ => inl OSError
    end.

(** A scraped page whose title and description carry double quotes. *)
Definition quoted_details : movie_details :=
  {| title := String.append " " (String.append (quoted "Alien") ": Romulus ");
     image_url := Some "https://img.example/alien.jpg";
     description := String.append "They said " (quoted (quoted "run"));
     info := "7.2 1h 59m 2024";
     genres := ["Terror"; "Ciencia ficcion"];
     actors := ["Cailee Spaeny"] |}.

(** The stream URLs in one answer of the performance log, in order and with
    repetitions. *)
Definition stream_urls (logs : list perf_entry) : list string :=
  omap (fun entry =>
          match entry with
          | Message method (Some url) =>
              if Str.contains "Network.responseReceived" method
                 && Str.contains ".m3u8" url
              then Some url else None
          | _ => None
          end) logs.

(** The stream URLs in the answers to the log reads among the calls [d],
    made after the calls [t]. *)
Fixpoint observed (w : env) (t d : trace) : list string :=
  match d with
  | [] => []
  | c :: d' =>
      match c with
      | GetLogPerformance =>
          match w t GetLogPerformance with
          | inr logs => stream_urls logs
          | inl _ => []
          end
      | _ => []
      end ++ observed w (t ++ [c]) d'
  end.

Definition stream_a : string := "https://cdn.example/hls/index.m3u8".
Definition stream_b : string := "https://cdn.example/hls/master.m3u8".

(** A page with one frame: the top-level log shows a stream, the log read
    inside the frame shows it again with a second one, and so does every
    later read. *)
Definition page_with_streams : env :=
  fun t c =>
    match c return exn + resp c with
    | GetLogPerformance =>
        inr (match t with
             | [] => [ Message "Network.responseReceived" (Some stream_a);
                       Message "Network.requestWillBeSent" (Some stream_b);
                       Malformed ]
             | _ => [ Message "Network.responseReceived" (Some stream_b);
                      Message "Network.responseReceived" (Some stream_a);
                      Message "Network.responseReceived" (Some "https://cdn.example/a.js") ]
             end)
    | FindElements _ _ => inr [0%nat]
    | SwitchToFrame _ => inr tt
    | SwitchToDefaultContent => inr tt
    | Sleep _ => inr tt
    | _ => inl WebDriverException
    end.

(** Whether a target line has a title that some history line records,
    compared on the stripped, lower-cased first segment. *)
Definition in_history (history_lines : list string) (movie_line : string) : bool :=
  match Str.split " | " movie_line with
  | [title; _] =>
      existsb
        (fun h =>
           Str.contains " | " h &&
           String.eqb (Str.lower (Str.strip (List.hd "" (Str.split " | " h))))
                      (Str.lower (Str.strip title)))
        history_lines
  | _ => false
  end.

(** The targets of a batch that can make it to a session: well formed and
    not in the history. *)
Definition new_targets (history_lines movies : list string) : list string :=
  List.filter
    (fun line => well_formed line && negb (in_history history_lines line))
    movies.

Definition history_example : list string :=
  [ String.append "MOVIE X | https://cdn.example/x/index.m3u8" newline;
    String.append "Otra Pelicula | https://cdn.example/o/index.m3u8" newline;
    String.append "ÉXITO TOTAL | https://cdn.example/e/index.m3u8" newline ].

Definition targets_example : list string :=
  [ "Movie X | https://cuevana.example/movie-x";
    "otra pelicula | https://cuevana.example/otra";
    "éxito total | https://cuevana.example/exito" ].

(** ** Further functions of the module *)

(** [retry_on_timeout(retries, delay)(func)]: the wrapper the decorator
    builds, for a [func] without arguments. [remaining] counts the turns of
    the loop still to come, so the last attempt is the one with none left;
    a loop that runs out of turns returns [None]. *)
Fixpoint retry_on_timeout {A} (remaining delay : nat) (func : M A) : M (option A) :=
  match remaining with
  | O => ret None
  | S later =>
      try_except
        (a <- func;; ret (Some a))
        (fun e =>
           match e with
           | TimeoutException =>
               match later with
               | O => raise e
               | S _ => do (Sleep delay);; retry_on_timeout later delay func
               end
           | _ => raise e
           end)
  end.


(** The body of the loop of [search_movie_by_title] over the lines of the
    catalog: the (title, URL) pair a line contributes, if any. *)
Definition search_line (search_term line : string) : option (string * string) :=
  let line := Str.strip line in
  if String.eqb line "" then None
  else
    match Str.split " | " line with
    | [title; url] =>
        if Str.contains (Str.lower search_term) (Str.lower title)
        then Some (title, url) else None
    | _ => None
    end.

(** [search_movie_by_title(search_term)]; both handlers return [None]. *)
Definition search_movie_by_title (search_term : string)
  : M (option (list (string * string))) :=
  try_except
    (lines <- do (ReadLines "movie_links.txt");;
     let matches := omap (search_line search_term) lines in
     if negb (bool_decide (matches = [])) then ret (Some matches) else ret None)
    (fun _ => ret None).

(** The line appended to the history for a target that was processed
    (line 814). *)
Definition history_line (title working_link : string) : string :=
  String.concat "" [title; " | "; working_link; newline].

(** ** Further notions and sample environments *)


(** The question of the interactive verification. *)
Definition prompt_text : string :=
  String.append newline "Is the video playing correctly in VLC? (yes/no): ".

(** A machine on which the player is installed nowhere. *)
Definition no_player : env :=
  fun _ c =>
    match c return exn + resp c with
    | PathExists _ => inr false
    | ExpandUser p => inr p
    | _ => inl OSError
    end.

(** A machine with the player, and a user who first answers beside the
    question and then confirms, in capitals and with blanks around. *)
Definition hesitant_user : env :=
  fun t c =>
    match c return exn + resp c with
    | PathExists _ => inr true
    | Popen _ _ => inr 7%nat
    | Poll _ => inr None
    | Sleep _ => inr tt
    | Terminate _ => inr tt
    | Print _ => inr tt
    | Input _ =>
        inr (if existsb (fun c => match c with Input _ => true | _ => false end) t
             then " YES " else "maybe")
    | _ => inl OSError
    end.

(** The processes terminated. *)
Definition terminate_of (c : call) : option pid :=
  match c with Terminate p => Some p | _ => None end.

Definition terminations (t : trace) : list pid := omap terminate_of t.

(** The calls of an automated verification of [link] that succeeds, made
    after the calls [t0]: the player is started, found alive after 5 and
    after 25 more seconds, and terminated. *)
Definition automated_success (w : env) (t0 : trace) (link : string) (tail : trace)
  : Prop :=
  exists (exe : string) (p : pid),
    tail = [ Popen exe link; Sleep 5; Poll p; Sleep 25; Poll p;
             Terminate p; Sleep 2 ] /\
    w t0 (Popen exe link) = inr p.

(** The calls of an interactive verification of [link] that succeeds, made
    after the calls [t0]: the player is started, nothing is terminated or
    started after it, and the last call is the question answered yes. *)
Definition confirmed_by_user (w : env) (t0 : trace) (link : string) (tail : trace)
  : Prop :=
  exists (exe : string) (d : trace) (answer : string),
    tail = Popen exe link :: d ++ [Input prompt_text] /\
    terminations d = [] /\ spawns d = [] /\
    w (t0 ++ Popen exe link :: d) (Input prompt_text) = inr answer /\
    Str.strip (Str.lower answer) = "yes".

(** [p] only returns values that satisfy [P]. *)
Definition returns {A} (P : A -> Prop) (p : M A) : Prop :=
  forall (w : env) (t t' : trace) (a : A), p w t = (t', Ok a) -> P a.

(** A page where no frame is of a known provider: a [src] is missing,
    empty, or has neither marker. *)
Definition unknown_src (src : option string) : Prop :=
  match src with
  | None => True
  | Some src =>
      src = "" \/
      (Str.contains "voe.sx" src = false /\
       Str.contains "player.cuevana3.eu/player.php" src = false)
  end.

(** A page with three frames of no known provider. *)
Definition plain_frames_page : env :=
  fun _ c =>
    match c return exn + resp c with
    | FindElements _ _ => inr [0%nat; 1%nat; 2%nat]
    | GetAttribute h _ =>
        inr (match h with
             | O => None
             | S O => Some ""
             | _ => Some "https://ads.example/banner"
             end)
    | _ => inl WebDriverException
    end.

(** A page whose first frame is a voe.sx frame with its logo in place. *)
Definition voe_page : env :=
  fun _ c =>
    match c return exn + resp c with
    | FindElements _ _ => inr [0%nat; 1%nat]
    | GetAttribute h _ =>
        inr (Some (if Nat.eqb h 0 then voe_frame_url else player_frame_url))
    | Get _ => inr tt
    | Sleep _ => inr tt
    | WaitPresence _ _ _ => inr 4%nat
    | ExecuteScript _ _ => inr tt
    | CurrentUrl => inr voe_frame_url
    | _ => inl WebDriverException
    end.

(** A player page on which the play button never shows up. *)
Definition no_button_page : env :=
  fun _ c =>
    match c return exn + resp c with
    | Get _ => inr tt
    | Sleep _ => inr tt
    | WaitPresence _ _ _ => inl TimeoutException
    | ActionClick _ => inr tt
    | ExecuteScript _ _ => inr tt
    | CurrentUrl => inr stream_page_url
    | TimeTime => inr 0%Z
    | _ => inl WebDriverException
    end.

Definition log_read_of (c : call) : option unit :=
  match c with GetLogPerformance => Some tt | _ => None end.

(** The frames entered with [switch_to.frame]. *)
Definition frame_of (c : call) : option handle :=
  match c with SwitchToFrame h => Some h | _ => None end.

Definition frames_entered (t : trace) : list handle := omap frame_of t.

(** A page with three frames: the first cannot be entered, the second
    cannot be left, the third behaves; every log read shows one stream. *)
Definition stubborn_frames_page : env :=
  fun _ c =>
    match c return exn + resp c with
    | GetLogPerformance => inr [Message "Network.responseReceived" (Some stream_a)]
    | FindElements _ _ => inr [0%nat; 1%nat; 2%nat]
    | SwitchToFrame h => if Nat.eqb h 0 then inl WebDriverException else inr tt
    | SwitchToDefaultContent => inl WebDriverException
    | Sleep _ => inr tt
    | _ => inl WebDriverException
    end.

(** The clicks on the dropdown. *)
Definition dropdown_click_of (c : call) : option unit :=
  match c with ExecuteScript ScriptScrollClick _ => Some tt | _ => None end.

Definition dropdown_clicks (t : trace) : nat := length (omap dropdown_click_of t).

(** A page on which an overlay intercepts every click on the dropdown. *)
Definition overlay_page : env :=
  fun _ c =>
    match c return exn + resp c with
    | ExecuteScript ScriptScrollClick _ => inl ElementClickInterceptedException
    | Sleep _ => inr tt
    | _ => inl WebDriverException
    end.

(** A call made inside a session on the page, the player or the clock: it
    neither opens or closes a session nor touches a file. *)
Definition session_call (c : call) : Prop :=
  match c with
  | ChromeStart | SetPageLoadTimeout _ | ExecuteCdpCmd _ | Quit
  | ReadLines _ | ReadFile _ | WriteFile _ _ | AppendFile _ _ | Shuffle _ => False
  | _ => True
  end.

(** The manifest text after the entry [roku_xml] was added to [content]. *)
Definition with_entry (content roku_xml : string) : string :=
  String.concat "" [content; newline; roku_xml].

(** What the session of the target [title], started with the manifest text
    [content], may do: work on the page, the player and the clock, rewrite
    the manifest as the old text, one entry and the closing tag, and append
    a line for [title] to the history. *)
Definition body_call (content title : string) (c : call) : Prop :=
  match c with
  | WriteFile path body =>
      path = "RokuChannelList.xml" /\
      exists roku_xml,
        body = String.concat "" [content; newline; roku_xml; newline; "</Content>"]
  | AppendFile path line =>
      path = "MainHistory.txt" /\
      exists working_link, line = history_line title working_link
  | c => session_call c
  end.

(** What one turn of the batch loop may do: open and close its session,
    and in between what a session may do. *)
Definition turn_call (content title : string) (c : call) : Prop :=
  match c with
  | ChromeStart | SetPageLoadTimeout _ | ExecuteCdpCmd _ | Quit => True
  | c => body_call content title c
  end.

(** The four calls that open a session of the batch run. *)
Definition session_setup : trace :=
  [ ChromeStart; SetPageLoadTimeout 60;
    ExecuteCdpCmd "Network.setUserAgentOverride";
    ExecuteCdpCmd "Page.addScriptToEvaluateOnNewDocument" ].

(** A site and a machine on which everything works: one stream in the
    network log, no frames, a player that keeps playing. *)
Definition working_site : env :=
  fun t c =>
    match c return exn + resp c with
    | ChromeStart | SetPageLoadTimeout _ | ExecuteCdpCmd _ | Quit => inr tt
    | Get _ | WaitReadyState _ | Sleep _ | ExecuteScript _ _ => inr tt
    | FindElement _ _ => inr 1%nat
    | FindElements ByTagName _ => inr []
    | FindElements _ _ => inr [2%nat]
    | GetText _ => inr "Drama 1h 30m 2020"
    | GetAttribute _ _ => inr (Some "https://img.example/p.jpg")
    | WaitPresence _ _ _ | WaitVisibility _ _ _ => inr 3%nat
    | GetLogPerformance => inr [Message "Network.responseReceived" (Some stream_a)]
    | PathExists _ => inr true
    | Popen _ _ => inr 1%nat
    | Poll _ => inr None
    | Terminate _ => inr tt
    | WriteFile _ _ | AppendFile _ _ => inr tt
    | _ => inl WebDriverException
    end.

(** Every call of [calls], issued in turn from the trace [t], is answered
    with a value. *)
Fixpoint answered (w : env) (t : trace) (calls : list call) : Prop :=
  match calls with
  | [] => True
  | c :: calls => (exists v, w t c = inr v) /\ answered w (t ++ [c]) calls
  end.


(** A machine on which the browser starts and then refuses every call. *)
Definition setup_fails : env :=
  fun _ c =>
    match c return exn + resp c with
    | ChromeStart => inr tt
    | _ => inl WebDriverException
    end.





(** A word: a non-empty string in which no white space begins. *)
Fixpoint no_space (s : string) : bool :=
  match s with
  | EmptyString => true
  | String c s' =>
      match Str.space_front c s' with
      | Some _ => false
      | None => no_space s'
      end
  end.

Definition is_word (s : string) : bool :=
  negb (String.eqb s "") && no_space s.


(** A machine on which pauses pass and every other call times out. *)
Definition always_timeout : env :=
  fun _ c =>
    match c return exn + resp c with
    | Sleep _ => inr tt
    | _ => inl TimeoutException
    end.






(** The write of the manifest with the entry [roku_xml] added (line 806). *)
Definition manifest_write (content roku_xml : string) : call :=
  WriteFile "RokuChannelList.xml"
    (String.concat "" [content; newline; roku_xml; newline; "</Content>"]).

(** The shape of the calls of a computation that writes files only at its
    very end: calls that write no file, and then nothing more, or a write
    of the manifest that fails, or a write of the manifest that succeeds
    followed by the append of the target's line to the history. *)
Definition writes_last {A} (content title : string) (p : M A) : Prop :=
  forall w t,
    exists before last,
      (p w t).1 = t ++ before ++ last /\
      Forall session_call before /\
      (last = [] \/
       exists roku_xml,
         (last = [manifest_write content roku_xml] /\
          exists e, w (t ++ before) (manifest_write content roku_xml) = inl e) \/
         (exists working_link,
            last = [manifest_write content roku_xml;
                    AppendFile "MainHistory.txt" (history_line title working_link)]) /\
         w (t ++ before) (manifest_write content roku_xml) = inr tt).


(** * Properties *)

(** ** Link prioritizer *)

Lemma filter_head_find {A} (p : A -> bool) (l : list A) :
  List.filter p l !! 0%nat = List.find p l.
Proof.
  induction l as [|a l IH]; simpl; [reflexivity|].
  destruct (p a); simpl; [reflexivity | exact IH].
Qed.

Lemma filter_nil_find {A} (p : A -> bool) (l : list A) :
  List.filter p l = [] <-> List.find p l = None.
Proof.
  induction l as [|a l IH]; simpl; [tauto|].
  destruct (p a); [split; discriminate | exact IH].
Qed.

(** C1. The prioritizer returns the first candidate with "index" and without
    "master" (lower-cased) when there is one, else the first candidate
    without "master", else the first candidate; it returns none exactly on
    the empty sequence; and it gives the three results of the spec's
    examples. *)
Theorem get_best_m3u8_link_rule :
  (forall links : list string,
     get_best_m3u8_link links =
       match List.find is_priority_link links with
       | Some x => Some x
       | None =>
           match List.find is_non_master_link links with
           | Some x => Some x
           | None => head links
           end
       end) /\
  (forall links : list string, get_best_m3u8_link links = None <-> links = []) /\
  get_best_m3u8_link ["a/master.m3u8"; "b/index.m3u8"; "c/index_master.m3u8"]
    = Some "b/index.m3u8" /\
  get_best_m3u8_link ["x/master.m3u8"; "y/master.m3u8"] = Some "x/master.m3u8" /\
  get_best_m3u8_link [] = None.
Proof.
  assert (Hrule : forall links : list string,
     get_best_m3u8_link links =
       match List.find is_priority_link links with
       | Some x => Some x
       | None =>
           match List.find is_non_master_link links with
           | Some x => Some x
           | None => head links
           end
       end).
  { intros links. unfold get_best_m3u8_link.
    destruct links as [|l0 links]; [reflexivity|].
    rewrite bool_decide_eq_false_2 by discriminate.
    rewrite !filter_head_find.
    destruct (List.find is_priority_link (l0 :: links)) as [x|] eqn:Hp.
    - rewrite bool_decide_eq_false_2; [reflexivity|].
      intros H%filter_nil_find. congruence.
    - rewrite bool_decide_eq_true_2 by (apply filter_nil_find; exact Hp).
      cbn [negb].
      destruct (List.find is_non_master_link (l0 :: links)) as [y|] eqn:Hn.
      + rewrite bool_decide_eq_false_2; [reflexivity|].
        intros H%filter_nil_find. congruence.
      + rewrite bool_decide_eq_true_2 by (apply filter_nil_find; exact Hn).
        reflexivity. }
  split; [exact Hrule|].
  split.
  - intros links. split.
    + rewrite Hrule. destruct links as [|l0 links]; [reflexivity|].
      destruct (List.find is_priority_link (l0 :: links)); [discriminate|].
      destruct (List.find is_non_master_link (l0 :: links)); discriminate.
    + intros ->. reflexivity.
  - repeat split; vm_compute; reflexivity.
Qed.

(** ** Source option selector *)

Lemma has_flags_true (m : gmap string bool) :
  has_flags m = true <-> exists k, m !! k = Some true.
Proof.
  unfold has_flags. rewrite existsb_exists. split.
  - intros [[k v] [Hin Hv]]. simpl in Hv. subst v.
    exists k. apply elem_of_map_to_list. apply list_elem_of_In. exact Hin.
  - intros [k Hk]. exists (k, true). split; [|reflexivity].
    apply list_elem_of_In. apply elem_of_map_to_list. exact Hk.
Qed.

Lemma has_flags_false (m : gmap string bool) :
  has_flags m = false <-> forall k, m !! k <> Some true.
Proof.
  split.
  - intros H k Hk.
    assert (has_flags m = true) by (apply has_flags_true; eauto). congruence.
  - intros H. destruct (has_flags m) eqn:E; [|reflexivity].
    apply has_flags_true in E as [k Hk]. destruct (H k Hk).
Qed.

Lemma waited_xpaths_app (t d : trace) :
  waited_xpaths (t ++ d) = (waited_xpaths t ++ waited_xpaths d)%list.
Proof. unfold waited_xpaths. apply omap_app. Qed.

(** An attempt waits for its own locator once, whatever the outcome, and
    ends with a plain yes or no. *)
Lemma try_option_outcome (o : string * string) (w : env) (t : trace) :
  exists t' b,
    try_option o w t = (t', Ok b) /\
    waited_xpaths t' = (waited_xpaths t ++ [o.1])%list.
Proof.
  destruct o as [x q].
  cbv [try_option wait_for_element try_except bind do ret raise].
  destruct (w t (WaitPresence ByXPath x 20)) as [e|h]; cbn.
  { eexists _, _. split; [reflexivity|]. rewrite waited_xpaths_app. reflexivity. }
  destruct (w (t ++ [WaitPresence ByXPath x 20])%list (WaitVisibility ByXPath x 20))
    as [e|h']; cbn.
  { eexists _, _. split; [reflexivity|]. rewrite !waited_xpaths_app.
    cbn. rewrite app_nil_r. reflexivity. }
  match goal with |- context [w ?t' (ExecuteScript ?s ?a)] =>
    destruct (w t' (ExecuteScript s a)) as [e|u] end; cbn.
  { eexists _, _. split; [reflexivity|]. rewrite !waited_xpaths_app.
    cbn. rewrite !app_nil_r. reflexivity. }
  match goal with |- context [w ?t' (Sleep 8)] =>
    destruct (w t' (Sleep 8)) as [e|u'] end; cbn.
  all: eexists _, _; (split; [reflexivity|]); rewrite !waited_xpaths_app;
    cbn; rewrite !app_nil_r; reflexivity.
Qed.

Lemma try_option_waited (o : string * string) (w : env) (t t' : trace) r :
  try_option o w t = (t', r) ->
  waited_xpaths t' = (waited_xpaths t ++ [o.1])%list.
Proof.
  intros H. destruct (try_option_outcome o w t) as (t1 & b & E & Hw).
  congruence.
Qed.

Lemma failed_attempts_waited (w : env) (options : list (string * string)) :
  forall t t', failed_attempts w t options = Some t' ->
    waited_xpaths t' = (waited_xpaths t ++ map fst options)%list.
Proof.
  induction options as [|o os IH]; intros t t' H; cbn in H.
  - injection H as <-. cbn. rewrite app_nil_r. reflexivity.
  - destruct (try_option o w t) as [t1 r] eqn:E.
    destruct r as [[|]| |]; try discriminate.
    rewrite (IH _ _ H), (try_option_waited _ _ _ _ _ E).
    cbn. rewrite <- app_assoc. reflexivity.
Qed.

(** The loop stops at the first attempt that succeeds. *)
Lemma try_options_first_success (w : env) (pre : list (string * string)) o post :
  forall t t1 t2,
    failed_attempts w t pre = Some t1 ->
    try_option o w t1 = (t2, Ok true) ->
    try_options (pre ++ o :: post) w t = (t2, Ok (true, false)).
Proof.
  induction pre as [|p pre IH]; intros t t1 t2 Hpre Ho; cbn in Hpre.
  - injection Hpre as <-. cbn. unfold bind. rewrite Ho. reflexivity.
  - destruct (try_option p w t) as [t' r] eqn:E.
    destruct r as [[|]| |]; try discriminate.
    cbn. unfold bind at 1. rewrite E. eapply IH; eassumption.
Qed.

(** The loop gives up after the last attempt of its list. *)
Lemma try_options_all_fail (w : env) (options : list (string * string)) :
  forall t t', failed_attempts w t options = Some t' ->
    try_options options w t = (t', Ok (false, false)).
Proof.
  induction options as [|o os IH]; intros t t' H; cbn in H.
  - injection H as <-. reflexivity.
  - destruct (try_option o w t) as [t1 r] eqn:E.
    destruct r as [[|]| |]; try discriminate.
    cbn. unfold bind at 1. rewrite E. apply IH. exact H.
Qed.

(** The selector never raises and its second component is never set. *)
Lemma try_options_second_false (w : env) (options : list (string * string)) :
  forall t, exists t' b, try_options options w t = (t', Ok (b, false)).
Proof.
  induction options as [|o os IH]; intros t.
  - eexists _, _. reflexivity.
  - cbn. unfold bind at 1.
    destruct (try_option_outcome o w t) as (t1 & b & E & _). rewrite E.
    destruct b; [eexists _, _; reflexivity | apply IH].
Qed.

(** C2. With no flag true (no dict, an empty one or all false) the attempt
    list is the six known options, HD group then CAM group in provider
    order; the selector returns success at the first attempt that is found
    and clicked, and the locators waited for are those up to and including
    that attempt, none after it. *)
Theorem selector_default_order
    (source_flags : option (gmap string bool))
    (Hnone : forall m, source_flags = Some m -> forall k, m !! k <> Some true) :
  options_to_try (default ∅ source_flags)
    = map (fun '(_, xpath, quality) => (xpath, quality)) known_options /\
  forall (w : env) (t t1 t2 : trace) pre o post,
    map (fun '(_, xpath, quality) => (xpath, quality)) known_options
      = (pre ++ o :: post)%list ->
    failed_attempts w t pre = Some t1 ->
    try_option o w t1 = (t2, Ok true) ->
    find_and_click_video_option source_flags w t = (t2, Ok (true, false)) /\
    waited_xpaths t2 = (waited_xpaths t ++ map fst pre ++ [o.1])%list.
Proof.
  assert (Hf : has_flags (default ∅ source_flags) = false).
  { apply has_flags_false. destruct source_flags as [m|]; cbn.
    - apply Hnone. reflexivity.
    - intros k. rewrite lookup_empty. discriminate. }
  assert (Hopts : options_to_try (default ∅ source_flags)
    = map (fun '(_, xpath, quality) => (xpath, quality)) known_options).
  { unfold options_to_try. rewrite Hf. reflexivity. }
  split; [exact Hopts|].
  intros w t t1 t2 pre o post Hsplit Hpre Ho.
  split.
  - unfold find_and_click_video_option. cbv zeta. rewrite Hf. cbn [andb].
    rewrite Hopts, Hsplit. eapply try_options_first_success; eassumption.
  - rewrite (try_option_waited _ _ _ _ _ Ho), (failed_attempts_waited _ _ _ _ Hpre).
    rewrite <- app_assoc. reflexivity.
Qed.

Lemma selector_default_order_witness :
  find_and_click_video_option (Some ∅)
    (page_with (String.eqb filemoon_hd_xpath)) []
  = ([ WaitPresence ByXPath "//span[contains(text(), 'vidhide - HD')]" 20;
       WaitPresence ByXPath filemoon_hd_xpath 20;
       WaitVisibility ByXPath filemoon_hd_xpath 20;
       ExecuteScript ScriptClick [1%nat];
       Sleep 8 ],
     Ok (true, false)).
Proof.
  refine (proj1 (proj2 (selector_default_order (Some ∅) _)
            (page_with (String.eqb filemoon_hd_xpath)) [] _ _
            [("//span[contains(text(), 'vidhide - HD')]", "HD")]
            (filemoon_hd_xpath, "HD")
            [("//span[contains(text(), 'voesx - HD')]", "HD");
             ("//span[contains(text(), 'vidhide - CAM')]", "CAM");
             ("//span[contains(text(), 'filemoon - CAM')]", "CAM");
             ("//span[contains(text(), 'voesx - CAM')]", "CAM")]
            _ _ _)).
  - intros m [= <-] k. rewrite lookup_empty. discriminate.
  - reflexivity.
  - reflexivity.
  - reflexivity.
Defined.

Lemma flag_set_decide (m : gmap string bool) (flag : string) :
  flag_set m flag = bool_decide (m !! flag = Some true).
Proof.
  unfold flag_set. destruct (m !! flag) as [[|]|].
  - rewrite bool_decide_eq_true_2; reflexivity.
  - rewrite bool_decide_eq_false_2; [reflexivity | discriminate].
  - rewrite bool_decide_eq_false_2; [reflexivity | discriminate].
Qed.

Lemma selector_runs_options (m : gmap string bool) (w : env) (t : trace) :
  find_and_click_video_option (Some m) w t = try_options (options_to_try m) w t.
Proof.
  unfold find_and_click_video_option. cbv zeta.
  change (default ∅ (Some m)) with m.
  destruct (has_flags m && bool_decide (options_to_try m = [])) eqn:E;
    [|reflexivity].
  apply andb_true_iff in E as [_ E]. apply bool_decide_eq_true_1 in E.
  rewrite E. reflexivity.
Qed.

(** C3. With at least one flag true the attempt list is the known options
    whose flag is true, HD group before CAM group in provider order; when
    every attempt of that list fails the selector returns failure and has
    waited for the locators of that list only. With filemoon_hd the only
    true flag the list has the single filemoon-HD entry, and its failure is
    the selector's failure with no other locator waited for. *)
Theorem selector_restricted_no_fallback
    (m : gmap string bool) (Hsome : exists k, m !! k = Some true) :
  options_to_try m
    = omap (fun '(flag, xpath, quality) =>
              if bool_decide (m !! flag = Some true)
              then Some (xpath, quality) else None) known_options /\
  (forall (w : env) (t t' : trace),
     failed_attempts w t (options_to_try m) = Some t' ->
     find_and_click_video_option (Some m) w t = (t', Ok (false, false)) /\
     waited_xpaths t' = waited_xpaths t ++ map fst (options_to_try m)) /\
  ((forall k, m !! k = Some true -> k = "filemoon_hd") ->
     options_to_try m = [(filemoon_hd_xpath, "HD")] /\
     forall (w : env) (t t' : trace),
       try_option (filemoon_hd_xpath, "HD") w t = (t', Ok false) ->
       find_and_click_video_option (Some m) w t = (t', Ok (false, false)) /\
       waited_xpaths t' = waited_xpaths t ++ [filemoon_hd_xpath]).
Proof.
  assert (Hf : has_flags m = true) by (apply has_flags_true; exact Hsome).
  assert (Hopts : options_to_try m
    = omap (fun '(flag, xpath, quality) =>
              if bool_decide (m !! flag = Some true)
              then Some (xpath, quality) else None) known_options).
  { unfold options_to_try. rewrite Hf.
    unfold flagged, hd_options, cam_options, known_options. cbn.
    rewrite !flag_set_decide.
    repeat destruct (bool_decide _); reflexivity. }
  assert (Hfail : forall (w : env) (t t' : trace),
     failed_attempts w t (options_to_try m) = Some t' ->
     find_and_click_video_option (Some m) w t = (t', Ok (false, false)) /\
     waited_xpaths t' = waited_xpaths t ++ map fst (options_to_try m)).
  { intros w t t' H. split.
    - rewrite selector_runs_options. apply try_options_all_fail. exact H.
    - apply (failed_attempts_waited _ _ _ _ H). }
  split; [exact Hopts|]. split; [exact Hfail|].
  intros Honly.
  assert (Hone : options_to_try m = [(filemoon_hd_xpath, "HD")]).
  { destruct Hsome as [k Hk]. pose proof (Honly k Hk) as ->.
    rewrite Hopts. unfold known_options. cbn.
    rewrite (bool_decide_eq_true_2 _ Hk).
    repeat match goal with
    | |- context [bool_decide (m !! ?f = Some true)] =>
        rewrite (bool_decide_eq_false_2 (m !! f = Some true))
          by (intros Hx; apply Honly in Hx; discriminate)
    end.
    reflexivity. }
  split; [exact Hone|].
  intros w t t' H.
  destruct (Hfail w t t') as [H1 H2].
  - rewrite Hone. cbn [failed_attempts]. rewrite H. reflexivity.
  - split; [exact H1|]. rewrite H2, Hone. reflexivity.
Qed.

Lemma selector_restricted_no_fallback_witness :
  options_to_try {[ "filemoon_hd" := true ]} = [(filemoon_hd_xpath, "HD")] /\
  find_and_click_video_option (Some {[ "filemoon_hd" := true ]})
    page_without_options []
  = ([WaitPresence ByXPath filemoon_hd_xpath 20], Ok (false, false)).
Proof.
  assert (Hsome : exists k, ({[ "filemoon_hd" := true ]} : gmap string bool) !! k
                            = Some true).
  { exists "filemoon_hd". apply lookup_singleton_eq. }
  assert (Honly : forall k, ({[ "filemoon_hd" := true ]} : gmap string bool) !! k
                            = Some true -> k = "filemoon_hd").
  { intros k Hk. apply lookup_singleton_Some in Hk as [<- _]. reflexivity. }
  destruct (selector_restricted_no_fallback _ Hsome) as (_ & _ & Hp).
  destruct (Hp Honly) as [Hone Hrun].
  split; [exact Hone|].
  refine (proj1 (Hrun page_without_options []
                   [WaitPresence ByXPath filemoon_hd_xpath 20] _)).
  reflexivity.
Defined.

(** ** Traces *)

Section Adds.
Context {A : Type} (Q : call -> Prop).

Lemma adds_ret (a : A) : adds Q (ret a).
Proof. intros w t. exists []. rewrite app_nil_r. split; [reflexivity | constructor]. Qed.

Lemma adds_raise (e : exn) : adds Q (@raise A e).
Proof. intros w t. exists []. rewrite app_nil_r. split; [reflexivity | constructor]. Qed.

Lemma adds_out_of_fuel : adds Q (@out_of_fuel A).
Proof. intros w t. exists []. rewrite app_nil_r. split; [reflexivity | constructor]. Qed.

Lemma adds_try_except (body : M A) (handler : exn -> M A) :
  adds Q body -> (forall e, adds Q (handler e)) -> adds Q (try_except body handler).
Proof.
  intros Hb Hh w t. unfold try_except.
  destruct (Hb w t) as (d & Hd & HQ).
  destruct (body w t) as [t1 [a|e|]]; cbn in Hd; subst t1;
    try (exists d; split; [reflexivity | exact HQ]).
  destruct (Hh e w (t ++ d)) as (d' & Hd' & HQ').
  exists (d ++ d'). rewrite Hd', app_assoc. split; [reflexivity|].
  apply Forall_app. split; assumption.
Qed.
End Adds.

Lemma adds_do (Q : call -> Prop) (c : call) : Q c -> adds Q (do c).
Proof.
  intros Hc w t. exists [c]. split; [reflexivity|].
  constructor; [exact Hc | constructor].
Qed.

Lemma adds_log (Q : call -> Prop) (r : log_record) : Q (Log r) -> adds Q (log r).
Proof.
  intros Hc w t. exists [Log r]. split; [reflexivity|].
  constructor; [exact Hc | constructor].
Qed.

Lemma adds_bind {A B} (Q : call -> Prop) (m : M A) (k : A -> M B) :
  adds Q m -> (forall a, adds Q (k a)) -> adds Q (bind m k).
Proof.
  intros Hm Hk w t. unfold bind.
  destruct (Hm w t) as (d & Hd & HQ).
  destruct (m w t) as [t1 [a|e|]]; cbn in Hd; subst t1;
    try (exists d; split; [reflexivity | exact HQ]).
  destruct (Hk a w (t ++ d)) as (d' & Hd' & HQ').
  exists (d ++ d'). rewrite Hd', app_assoc. split; [reflexivity|].
  apply Forall_app. split; assumption.
Qed.

(** A call followed by a computation that adds [Q]-calls only. *)
Lemma adds_after_do {A} (Q : call -> Prop) (c : call) (k : resp c -> M A) :
  (forall v, adds Q (k v)) ->
  forall (w : env) (t : trace),
    exists d, (bind (do c) k w t).1 = t ++ c :: d /\ Forall Q d.
Proof.
  intros Hk w t. unfold bind, do.
  destruct (w t c) as [e|v].
  - exists []. split; [reflexivity | constructor].
  - destruct (Hk v w (t ++ [c])) as (d & Hd & HQ).
    exists d. rewrite Hd, <- app_assoc. split; [reflexivity | exact HQ].
Qed.

Lemma omap_silent {B} (f : call -> option B) (d : trace) :
  Forall (fun c => f c = None) d -> omap f d = [].
Proof.
  induction 1 as [|c d Hc _ IH]; [reflexivity|].
  cbn. rewrite Hc. exact IH.
Qed.

(** One step of a proof that a computation adds [Q]-calls only. *)
Ltac adds_step :=
  match goal with
  | |- adds _ (bind _ _) => apply adds_bind; [| intros ?]
  | |- adds _ (try_except _ _) => apply adds_try_except; [| intros ?]
  | |- adds _ (ret _) => apply adds_ret
  | |- adds _ (raise _) => apply adds_raise
  | |- adds _ out_of_fuel => apply adds_out_of_fuel
  | |- adds _ (do _) =>
      apply adds_do; first [reflexivity | exact I | split; [reflexivity | exact I]]
  | |- adds _ (log _) =>
      apply adds_log; first [reflexivity | exact I | split; [reflexivity | exact I]]
  | |- adds _ (if ?b then _ else _) => destruct b
  | |- adds _ (match ?x with _ => _ end) => destruct x
  end.

Ltac adds_auto := repeat (adds_step; try assumption).

(** ** Special-provider flag *)

Lemma selector_result (source_flags : option (gmap string bool))
    (w : env) (t : trace) :
  exists t' b, find_and_click_video_option source_flags w t = (t', Ok (b, false)).
Proof.
  unfold find_and_click_video_option. cbv zeta.
  destruct (has_flags _ && bool_decide _).
  - eexists _, _. reflexivity.
  - apply try_options_second_false.
Qed.

(** C4 (as stated, refuted). No execution of the selector returns a pair
    whose second component is true. *)
Lemma selector_special_flag_never_true :
  ~ exists (source_flags : option (gmap string bool)) (w : env) (t t' : trace)
      (success : bool),
      find_and_click_video_option source_flags w t = (t', Ok (success, true)).
Proof.
  intros (source_flags & w & t & t' & success & H).
  destruct (selector_result source_flags w t) as (t1 & b & E).
  rewrite E in H. discriminate.
Qed.

(** C4 (amended). In every execution the selector ends without an
    exception and returns a pair whose second component is false: no
    selectable option is the special provider. *)
Theorem selector_special_flag_false
    (source_flags : option (gmap string bool)) (w : env) (t : trace) :
  exists (t' : trace) (success : bool),
    find_and_click_video_option source_flags w t = (t', Ok (success, false)).
Proof.
  unfold find_and_click_video_option. cbv zeta.
  destruct (has_flags _ && bool_decide _).
  - exists t, false. reflexivity.
  - apply try_options_second_false.
Qed.

(** ** Embed/redirect resolver: which frames are acted on *)





Lemma navigated_since_lookup_app (t d : trace) :
  navigated_since_lookup (t ++ d)
  = fold_left
      (fun navigated c =>
         match c with
         | FindElements _ _ => false
         | Get _ => true
         | _ => navigated
         end) d (navigated_since_lookup t).
Proof. unfold navigated_since_lookup. apply fold_left_app. Qed.


Lemma navigated_after_attribute (t : trace) (h : handle) (name : string) :
  navigated_since_lookup (t ++ [GetAttribute h name]) = navigated_since_lookup t.
Proof. rewrite navigated_since_lookup_app. reflexivity. Qed.










(** ** Embed/redirect resolver: the redirect poll *)

Lemma bind_do_ok {A} (c : call) (k : resp c -> M A) (w : env) (t : trace) v :
  w t c = inr v -> bind (do c) k w t = k v w (t ++ [c]).
Proof. intros H. unfold bind, do. rewrite H. reflexivity. Qed.

Lemma bind_log {A} (r : log_record) (k : unit -> M A) (w : env) (t : trace) :
  bind (log r) k w t = k tt w (t ++ [Log r]).
Proof. reflexivity. Qed.

Lemma slept_app (t d : trace) : slept (t ++ d) = (slept t + slept d)%nat.
Proof. unfold slept. rewrite omap_app, list_sum_app. reflexivity. Qed.

Lemma polls_app (t d : trace) : polls (t ++ d) = (polls t + polls d)%nat.
Proof. unfold polls. rewrite omap_app, length_app. reflexivity. Qed.

Lemma logged_app (t d : trace) : logged (t ++ d) = logged t ++ logged d.
Proof. unfold logged. apply omap_app. Qed.

Lemma elapsed_seconds (s0 j : nat) :
  Z.quot (ticks * Z.of_nat (s0 + j) - ticks * Z.of_nat s0) ticks = Z.of_nat j.
Proof.
  unfold ticks.
  replace (1000 * Z.of_nat (s0 + j) - 1000 * Z.of_nat s0)%Z
    with (Z.of_nat j * 1000)%Z by lia.
  apply Z.quot_mul. lia.
Qed.

Section RedirectPoll.
Variables (w : env) (player_url : string) (url_at : nat -> string) (s0 : nat).
Hypothesis Hclock : ideal_clock w.
Hypothesis Hurl : forall t : trace, w t CurrentUrl = inr (url_at (slept t)).

Let start_time : Z := (ticks * Z.of_nat s0)%Z.

Ltac run_clock :=
  erewrite bind_do_ok by (apply Hclock).

Ltac trace_facts :=
  repeat split;
  first [ lia
        | rewrite ?app_nil_r, <- ?app_assoc; cbn; reflexivity ].

(** One round in which the URL has not changed yet. *)
Lemma poll_loop_round (fuel j : nat) (t : trace) :
  slept t = (s0 + j)%nat -> (j < 30)%nat ->
  url_at (s0 + j) = player_url ->
  poll_loop (S fuel) player_url start_time w t
  = poll_loop fuel player_url start_time w
      (t ++ [TimeTime; CurrentUrl; TimeTime;
             Log (LogWaiting (max_wait - Z.of_nat j)); Sleep 1]).
Proof.
  intros Hs Hj Hsame. cbn [poll_loop].
  run_clock. rewrite Hs.
  assert (Hlt : (ticks * Z.of_nat (s0 + j) - start_time <? max_wait * ticks)%Z = true).
  { apply Z.ltb_lt. unfold start_time, ticks, max_wait. lia. }
  rewrite Hlt.
  erewrite bind_do_ok by (apply Hurl).
  rewrite slept_app, Hs. cbn [slept omap list_sum sleep_of].
  rewrite Nat.add_0_r, Hsame, String.eqb_refl. cbn [negb].
  run_clock. rewrite !slept_app, Hs. cbn [slept omap list_sum sleep_of].
  rewrite !Nat.add_0_r. unfold start_time. rewrite elapsed_seconds.
  rewrite bind_log. run_clock.
  rewrite <- !app_assoc. reflexivity.
Qed.

(** The URL changes at round [k]: the loop returns it after [k] rounds
    of waiting and logs [k] elapsed seconds. *)
Lemma poll_loop_redirect (k : nat) (Hk : (k < 30)%nat)
    (Hbefore : forall j, (j < k)%nat -> url_at (s0 + j) = player_url)
    (Hchange : url_at (s0 + k) <> player_url) :
  forall (n j fuel : nat) (t : trace),
    (j + n = k)%nat -> slept t = (s0 + j)%nat -> (n < fuel)%nat ->
    exists t',
      poll_loop fuel player_url start_time w t = (t', Ok (Some (url_at (s0 + k)))) /\
      polls t' = (polls t + n + 1)%nat /\
      slept t' = (slept t + n)%nat /\
      logged t' = logged t ++ waiting_lines j n
                    ++ [LogRedirected (Z.of_nat k); LogFinalUrl (url_at (s0 + k))].
Proof.
  induction n as [|n IH]; intros j fuel t Hjn Hs Hfuel.
  - destruct fuel as [|fuel]; [lia|].
    assert (j = k) by lia. subst j. cbn [poll_loop].
    run_clock. rewrite Hs.
    assert (Hlt : (ticks * Z.of_nat (s0 + k) - start_time <? max_wait * ticks)%Z = true).
    { apply Z.ltb_lt. unfold start_time, ticks, max_wait. lia. }
    rewrite Hlt.
    erewrite bind_do_ok by (apply Hurl).
    rewrite slept_app, Hs. cbn [slept omap list_sum sleep_of].
    rewrite Nat.add_0_r.
    destruct (String.eqb_spec (url_at (s0 + k)) player_url) as [E|_];
      [destruct (Hchange E)|]. cbn [negb].
    run_clock. rewrite !slept_app, Hs. cbn [slept omap list_sum sleep_of].
    rewrite !Nat.add_0_r. unfold start_time. rewrite elapsed_seconds.
    rewrite !bind_log. eexists. split; [reflexivity|].
    rewrite !polls_app, !slept_app, !logged_app. cbn. trace_facts.
  - destruct fuel as [|fuel]; [lia|].
    rewrite (poll_loop_round fuel j t Hs) by (first [lia | apply Hbefore; lia]).
    edestruct (IH (S j) fuel) as (t' & Hrun & Hp & Hsl & Hlog);
      [| | | exists t'; split; [exact Hrun|]].
    + lia.
    + rewrite slept_app, Hs. cbn. lia.
    + lia.
    + rewrite Hp, Hsl, Hlog, polls_app, slept_app, logged_app. cbn.
      trace_facts.
Qed.

(** The URL never changes: the loop gives up after thirty rounds. *)
Lemma poll_loop_timeout
    (Hsame : forall j, (j < 30)%nat -> url_at (s0 + j) = player_url) :
  forall (n j fuel : nat) (t : trace),
    (j + n = 30)%nat -> slept t = (s0 + j)%nat -> (n < fuel)%nat ->
    exists t',
      poll_loop fuel player_url start_time w t = (t', Ok None) /\
      polls t' = (polls t + n)%nat /\
      slept t' = (slept t + n)%nat /\
      logged t' = logged t ++ waiting_lines j n ++ [LogNoRedirect].
Proof.
  induction n as [|n IH]; intros j fuel t Hjn Hs Hfuel.
  - destruct fuel as [|fuel]; [lia|].
    assert (j = 30)%nat by lia. subst j. cbn [poll_loop].
    run_clock. rewrite Hs.
    assert (Hge : (ticks * Z.of_nat (s0 + 30) - start_time <? max_wait * ticks)%Z = false).
    { apply Z.ltb_ge. unfold start_time, ticks, max_wait. lia. }
    rewrite Hge, bind_log. eexists. split; [reflexivity|].
    rewrite !polls_app, !slept_app, !logged_app. cbn. trace_facts.
  - destruct fuel as [|fuel]; [lia|].
    rewrite (poll_loop_round fuel j t Hs) by (first [lia | apply Hsame; lia]).
    edestruct (IH (S j) fuel) as (t' & Hrun & Hp & Hsl & Hlog);
      [| | | exists t'; split; [exact Hrun|]].
    + lia.
    + rewrite slept_app, Hs. cbn. lia.
    + lia.
    + rewrite Hp, Hsl, Hlog, polls_app, slept_app, logged_app. cbn.
      trace_facts.
Qed.
End RedirectPoll.

Lemma bind_ok {A B} (m : M A) (k : A -> M B) (w : env) (t t' : trace) a :
  m w t = (t', Ok a) -> bind m k w t = k a w t'.
Proof. intros H. unfold bind. rewrite H. reflexivity. Qed.

Lemma try_except_ok {A} (body : M A) (handler : exn -> M A)
    (w : env) (t t' : trace) a :
  body w t = (t', Ok a) -> try_except body handler w t = (t', Ok a).
Proof. intros H. unfold try_except. rewrite H. reflexivity. Qed.

(** The branch up to the start of the poll, when the page loads and the
    play button is found and clicked. *)
Lemma handle_player_iframe_polls
    (w : env) (player_url : string) (button : handle) (fuel : nat) (t : trace)
    (Hclock : ideal_clock w)
    (Hget : w t (Get player_url) = inr tt)
    (Hbutton : w (t ++ [Get player_url; Sleep 3])
                 (WaitPresence ByCssSelector play_button_css 10) = inr button)
    (Hclick : w (t ++ [Get player_url; Sleep 3;
                       WaitPresence ByCssSelector play_button_css 10])
                (ExecuteScript ScriptClick [button]) = inr tt)
    (t' : trace) (r : option string) :
  let t1 := t ++ [Get player_url; Sleep 3;
                  WaitPresence ByCssSelector play_button_css 10;
                  ExecuteScript ScriptClick [button]; TimeTime] in
  poll_loop fuel player_url (ticks * Z.of_nat (slept t + 3)) w t1 = (t', Ok r) ->
  handle_player_iframe fuel player_url w t = (t', Ok r).
Proof.
  intros t1 Hloop. unfold handle_player_iframe.
  rewrite (bind_do_ok _ _ _ _ _ Hget).
  erewrite bind_do_ok by (apply Hclock).
  rewrite <- app_assoc. cbn [app].
  erewrite bind_ok; cycle 1.
  { apply try_except_ok. rewrite (bind_do_ok _ _ _ _ _ Hbutton). reflexivity. }
  cbv beta iota. apply try_except_ok.
  rewrite <- app_assoc. cbn [app].
  rewrite (bind_do_ok _ _ _ _ _ Hclick).
  unfold wait_for_redirect.
  erewrite bind_do_ok by (apply Hclock).
  rewrite !slept_app.
  change (slept [Get player_url; Sleep 3;
                 WaitPresence ByCssSelector play_button_css 10]) with 3%nat.
  change (slept [ExecuteScript ScriptClick [button]]) with 0%nat.
  rewrite Nat.add_0_r, <- !app_assoc. cbn [app].
  exact Hloop.
Qed.

(** C6 (as stated, refuted). A redirect seen at second 12 and one seen at
    second 5 give the same result, the new URL and nothing else: the elapsed
    seconds are in the log only. *)
Lemma redirect_result_has_no_elapsed :
  (handle_player_iframe 40 player_frame_url (redirect_page 12) []).2
    = Ok (Some stream_page_url) /\
  (handle_player_iframe 40 player_frame_url (redirect_page 5) []).2
    = Ok (Some stream_page_url) /\
  redirect_elapsed (handle_player_iframe 40 player_frame_url (redirect_page 12) []).1
    = [12%Z] /\
  redirect_elapsed (handle_player_iframe 40 player_frame_url (redirect_page 5) []).1
    = [5%Z].
Proof. repeat split; vm_compute; reflexivity. Qed.

(** C6 (amended). With a clock that advances with the sleeps, a page that
    loads and a play button that is found and clicked, the branch reads the
    page URL once per second, at most thirty times. If the URL first
    differs from the player URL at second [k < 30], the call returns the new
    URL (and only that) after [k + 1] reads and [k] seconds of polling, and
    the log records [k] elapsed seconds and the new URL. If it never differs
    in thirty reads, the call returns none after thirty seconds and logs no
    URL. *)
Theorem player_redirect_poll
    (w : env) (player_url : string) (url_at : nat -> string) (button : handle)
    (fuel : nat) (t : trace)
    (Hclock : ideal_clock w)
    (Hurl : forall t : trace, w t CurrentUrl = inr (url_at (slept t)))
    (Hget : forall t : trace, w t (Get player_url) = inr tt)
    (Hbutton : forall t : trace,
        w t (WaitPresence ByCssSelector play_button_css 10) = inr button)
    (Hclick : forall t : trace, w t (ExecuteScript ScriptClick [button]) = inr tt)
    (Hfuel : (30 < fuel)%nat) :
  let s0 := (slept t + 3)%nat in
  (forall k : nat, (k < 30)%nat ->
     (forall j, (j < k)%nat -> url_at (s0 + j) = player_url) ->
     url_at (s0 + k) <> player_url ->
     exists t',
       handle_player_iframe fuel player_url w t = (t', Ok (Some (url_at (s0 + k)))) /\
       polls t' = (polls t + k + 1)%nat /\
       slept t' = (s0 + k)%nat /\
       logged t' = logged t ++ waiting_lines 0 k
                     ++ [LogRedirected (Z.of_nat k); LogFinalUrl (url_at (s0 + k))]) /\
  ((forall j, (j < 30)%nat -> url_at (s0 + j) = player_url) ->
     exists t',
       handle_player_iframe fuel player_url w t = (t', Ok None) /\
       polls t' = (polls t + 30)%nat /\
       slept t' = (s0 + 30)%nat /\
       logged t' = logged t ++ waiting_lines 0 30 ++ [LogNoRedirect]).
Proof.
  intros s0.
  set (t1 := t ++ [Get player_url; Sleep 3;
                   WaitPresence ByCssSelector play_button_css 10;
                   ExecuteScript ScriptClick [button]; TimeTime]).
  assert (Hs1 : slept t1 = (s0 + 0)%nat).
  { unfold t1, s0. rewrite slept_app. cbn. lia. }
  assert (Hp1 : polls t1 = polls t).
  { unfold t1. rewrite polls_app. cbn. lia. }
  assert (Hl1 : logged t1 = logged t).
  { unfold t1. rewrite logged_app. cbn. apply app_nil_r. }
  split.
  - intros k Hk Hbefore Hchange.
    destruct (poll_loop_redirect w player_url url_at s0 Hclock Hurl k Hk
                Hbefore Hchange k 0%nat fuel t1)
      as (t' & Hrun & Hp & Hsl & Hlog); [lia | exact Hs1 | lia |].
    exists t'. split.
    + apply handle_player_iframe_polls with (button := button); auto.
    + rewrite Hp, Hsl, Hlog, Hp1, Hs1, Hl1. repeat split; lia.
  - intros Hsame.
    destruct (poll_loop_timeout w player_url url_at s0 Hclock Hurl
                Hsame 30%nat 0%nat fuel t1)
      as (t' & Hrun & Hp & Hsl & Hlog); [lia | exact Hs1 | lia |].
    exists t'. split.
    + apply handle_player_iframe_polls with (button := button); auto.
    + rewrite Hp, Hsl, Hlog, Hp1, Hs1, Hl1. repeat split; lia.
Qed.

Lemma player_redirect_poll_witness :
  exists t',
    handle_player_iframe 40 player_frame_url (redirect_page 12) []
      = (t', Ok (Some stream_page_url)) /\
    polls t' = 13%nat /\ slept t' = 15%nat /\
    logged t' = waiting_lines 0 12
                  ++ [LogRedirected 12; LogFinalUrl stream_page_url].
Proof.
  refine (proj1 (player_redirect_poll (redirect_page 12) player_frame_url
                   (fun s => if (s <? 3 + 12)%nat then player_frame_url
                             else stream_page_url)
                   9%nat 40%nat [] _ _ _ _ _ _) 12%nat _ _ _).
  - intros t. split; [reflexivity | intros n; reflexivity].
  - intros t. reflexivity.
  - intros t. reflexivity.
  - intros t. reflexivity.
  - intros t. reflexivity.
  - lia.
  - lia.
  - intros j Hj. cbv beta.
    destruct (Nat.ltb_spec (slept [] + 3 + j) (3 + 12)) as [_|H];
      [reflexivity | cbn in H; lia].
  - vm_compute. discriminate.
Defined.

(** ** Playback verifier: the excluded links *)

Lemma adds_weaken {A} (Q Q' : call -> Prop) (p : M A) :
  (forall c, Q c -> Q' c) -> adds Q p -> adds Q' p.
Proof.
  intros HQ Hp w t. destruct (Hp w t) as (d & Hd & Hf).
  exists d. split; [exact Hd|]. eapply Forall_impl; eassumption.
Qed.










(** ** Manifest entry formatter: quotes in title and description *)

Lemma prefix_empty (s : string) : String.prefix "" s = true.
Proof. destruct s; reflexivity. Qed.

Lemma prefix_one_char (c d : ascii) (s : string) :
  String.prefix (String c EmptyString) (String d s) = Ascii.eqb c d.
Proof.
  cbn. destruct (ascii_dec c d) as [->|Hne].
  - rewrite Ascii.eqb_refl. apply prefix_empty.
  - symmetry. apply Ascii.eqb_neq. exact Hne.
Qed.

(** Replacing the one-character string by nothing removes the character. *)
Lemma replace_one_char (c : ascii) (s : string) :
  Str.replace (String c EmptyString) "" s = Str.remove_char c s.
Proof.
  unfold Str.replace. induction s as [|d s IH]; [reflexivity|].
  cbn [Str.replace_go Str.remove_char]. rewrite prefix_one_char.
  destruct (Ascii.eqb c d); cbn; rewrite IH; reflexivity.
Qed.

Lemma prefix_two_chars (c d : ascii) (s : string) :
  String.prefix (String c (String c EmptyString)) (String d s) = true ->
  d = c /\ exists s', s = String c s'.
Proof.
  intros H. cbn in H. destruct (ascii_dec c d) as [<-|]; [|discriminate].
  destruct s as [|e s']; cbn in H; [discriminate|].
  destruct (ascii_dec c e) as [<-|]; [|discriminate].
  split; [reflexivity | exists s'; reflexivity].
Qed.

(** Dropping pairs of a character does not change what is left once the
    character itself is removed. *)
Lemma remove_char_replace_pair (c : ascii) (s : string) :
  forall skip,
    Str.remove_char c
      (Str.replace_go (String c (String c EmptyString)) "" skip s)
    = Str.remove_char c (Str.drop skip s).
Proof.
  induction s as [|d s IH]; intros skip.
  - destruct skip; reflexivity.
  - destruct skip as [|k]; cbn [Str.replace_go Str.drop].
    + destruct (String.prefix (String c (String c EmptyString)) (String d s)) eqn:Hp.
      * apply prefix_two_chars in Hp as [-> [s' ->]].
        change (Str.remove_char c
                  (Str.replace_go (String c (String c "")) "" 1 (String c s'))
                = Str.remove_char c (String c (String c s'))).
        rewrite IH.
        cbn [Str.drop Str.remove_char]. rewrite Ascii.eqb_refl. reflexivity.
      * cbn [Str.remove_char]. rewrite (IH 0%nat).
        cbn [Str.drop]. destruct s; reflexivity.
    + apply IH.
Qed.

Lemma drop_0 (s : string) : Str.drop 0 s = s.
Proof. destruct s; reflexivity. Qed.

Lemma clean_text_removes_quotes (s : string) :
  clean_text s = Str.remove_char Str.dquote (Str.strip s).
Proof.
  unfold clean_text. rewrite replace_one_char. unfold Str.replace.
  rewrite remove_char_replace_pair. rewrite drop_0. reflexivity.
Qed.

Lemma has_char_remove_char (c : ascii) (s : string) :
  Str.has_char c (Str.remove_char c s) = false.
Proof.
  induction s as [|d s IH]; [reflexivity|].
  cbn [Str.remove_char]. destruct (Ascii.eqb c d) eqn:E; [exact IH|].
  cbn [Str.has_char]. rewrite E. exact IH.
Qed.

(** C10. Whenever the formatter produces an entry, the title and the
    description it embeds are the stripped scraped texts with every
    double-quote character deleted (none is escaped), so neither contains a
    double quote. *)
Theorem format_roku_xml_deletes_quotes
    (fuel : nat) (details : movie_details) (video_links : list string)
    (w : env) (t t' : trace) (xml : string)
    (Hrun : format_roku_xml fuel (Some details) video_links w t = (t', Ok (Some xml))) :
  let title' := Str.remove_char Str.dquote (Str.strip (title details)) in
  let description' := Str.remove_char Str.dquote (Str.strip (description details)) in
  (exists video_url,
     In video_url video_links /\
     xml = item_xml title' description' (str_of (image_url details)) video_url
             (Str.join ", " (genres details))
             (year_of (Str.split_ws (info details)))
             (runtime_of (Str.split_ws (info details)))) /\
  Str.has_char Str.dquote title' = false /\
  Str.has_char Str.dquote description' = false.
Proof.
  intros title' description'.
  split; [|split; apply has_char_remove_char].
  unfold format_roku_xml in Hrun.
  destruct (bool_decide (video_links = [])); [discriminate|].
  unfold bind in Hrun.
  assert (Hlink : forall links w t t' v,
             first_working_link fuel links w t = (t', Ok v) ->
             v = "" \/ In v links).
  { clear. induction links as [|l links IH]; intros w t t' v H.
    - injection H as _ <-. left. reflexivity.
    - cbn [first_working_link] in H. unfold bind in H.
      destruct (try_play_in_vlc fuel [l] true w t) as [t1 [[|]| |]];
        try discriminate.
      + injection H as _ <-. right. left. reflexivity.
      + destruct (IH _ _ _ _ H) as [->|Hin]; [left; reflexivity | right; right; exact Hin]. }
  destruct (first_working_link fuel video_links w t) as [t1 [v| |]] eqn:E;
    try discriminate.
  destruct (String.eqb_spec v "") as [->|Hne]; [discriminate|].
  injection Hrun as _ <-.
  exists v. split.
  - destruct (Hlink _ _ _ _ _ E) as [->|Hin]; [destruct (Hne eq_refl) | exact Hin].
  - rewrite !clean_text_removes_quotes. reflexivity.
Qed.

Lemma format_roku_xml_deletes_quotes_witness :
  exists xml,
    (format_roku_xml 5 (Some quoted_details) ["https://cdn.example/index.m3u8"]
       working_player []).2 = Ok (Some xml) /\
    Str.has_char Str.dquote (Str.remove_char Str.dquote (Str.strip (title quoted_details)))
      = false /\
    Str.remove_char Str.dquote (Str.strip (title quoted_details)) = "Alien: Romulus" /\
    Str.remove_char Str.dquote (Str.strip (description quoted_details))
      = "They said run".
Proof.
  eexists. split; [vm_compute; reflexivity|].
  split; [|split; vm_compute; reflexivity].
  refine (proj1 (proj2 (format_roku_xml_deletes_quotes 5 quoted_details
                          ["https://cdn.example/index.m3u8"] working_player [] _ _ _))).
  vm_compute. reflexivity.
Defined.

(** ** Resource harvester: set semantics *)

Lemma scan_entry_elem (s : gset string) (entry : perf_entry) (u : string) :
  u ∈ scan_entry s entry <-> u ∈ s \/ In u (stream_urls [entry]).
Proof.
  unfold scan_entry, stream_urls. cbn.
  destruct entry as [|method [url|]]; cbn; [tauto | |];
    (destruct (Str.contains "Network.responseReceived" method); cbn; [|tauto]);
    [|tauto].
  destruct (Str.contains ".m3u8" url); cbn; [|tauto].
  rewrite elem_of_union, elem_of_singleton. split.
  - intros [H| ->]; [left; exact H | right; left; reflexivity].
  - intros [H|[<-|[]]]; [left; exact H | right; reflexivity].
Qed.

Lemma stream_urls_cons (entry : perf_entry) (logs : list perf_entry) :
  stream_urls (entry :: logs) = stream_urls [entry] ++ stream_urls logs.
Proof. unfold stream_urls. apply (omap_app _ [entry] logs). Qed.

Lemma scan_entries_elem (logs : list perf_entry) :
  forall (s : gset string) (u : string),
    u ∈ scan_entries s logs <-> u ∈ s \/ In u (stream_urls logs).
Proof.
  unfold scan_entries.
  induction logs as [|entry logs IH]; intros s u; cbn [fold_left].
  - cbn. tauto.
  - rewrite (stream_urls_cons entry logs), in_app_iff, IH, scan_entry_elem. tauto.
Qed.

Lemma observed_app (w : env) (d1 d2 : trace) :
  forall t, observed w t (d1 ++ d2) = observed w t d1 ++ observed w (t ++ d1) d2.
Proof.
  induction d1 as [|c d1 IH]; intros t; cbn [observed app].
  - rewrite app_nil_r. reflexivity.
  - rewrite IH, <- !app_assoc. reflexivity.
Qed.

(** One frame: what the set gains is what the frame's log read showed. *)
Lemma scan_frame_observed (s : gset string) (iframe : handle) (w : env) (t : trace) :
  exists d s',
    scan_frame s iframe w t = (t ++ d, Ok s') /\
    forall u, u ∈ s' <-> u ∈ s \/ In u (observed w t d).
Proof.
  unfold scan_frame, try_except, bind, do.
  destruct (w t (SwitchToFrame iframe)) as [e|[]] eqn:E1.
  { exists [SwitchToFrame iframe], s. split; [reflexivity|]. cbn. tauto. }
  destruct (w (t ++ [SwitchToFrame iframe]) (Sleep 2)) as [e|[]] eqn:E2.
  { exists [SwitchToFrame iframe; Sleep 2], s.
    rewrite <- app_assoc. split; [reflexivity|]. cbn. tauto. }
  destruct (w ((t ++ [SwitchToFrame iframe]) ++ [Sleep 2]) GetLogPerformance)
    as [e|logs] eqn:E3.
  { exists [SwitchToFrame iframe; Sleep 2; GetLogPerformance], s.
    rewrite <- !app_assoc. split; [reflexivity|].
    cbn [observed app]. rewrite E3. cbn. tauto. }
  exists [SwitchToFrame iframe; Sleep 2; GetLogPerformance; SwitchToDefaultContent],
         (scan_entries s logs).
  split.
  - destruct (w _ SwitchToDefaultContent) as [e|[]];
      cbn; rewrite <- !app_assoc; reflexivity.
  - intros u. cbn [observed app]. rewrite E3, !app_nil_r. cbn [app].
    apply scan_entries_elem.
Qed.

(** The loop over the frames never fails, and the set it returns holds the
    set it was given and what the frames' log reads showed. *)
Lemma scan_frame_logs_observed (iframes : list handle) :
  forall (s : gset string) (w : env) (t : trace),
    exists d s',
      scan_frame_logs s iframes w t = (t ++ d, Ok s') /\
      forall u, u ∈ s' <-> u ∈ s \/ In u (observed w t d).
Proof.
  induction iframes as [|iframe rest IH]; intros s w t.
  - exists [], s. rewrite app_nil_r. split; [reflexivity|]. cbn. tauto.
  - destruct (scan_frame_observed s iframe w t) as (d1 & s1 & E1 & H1).
    destruct (IH s1 w (t ++ d1)) as (d2 & s2 & E2 & H2).
    exists (d1 ++ d2), s2. split.
    + cbn [scan_frame_logs]. unfold bind. rewrite E1, E2, app_assoc. reflexivity.
    + intros u. rewrite observed_app, in_app_iff, H2, H1. tauto.
Qed.

(** The whole normal-mode harvest, when no top-level call raises. *)
Lemma find_m3u8_links_observed (w : env) (t t' : trace) (links : list string) :
  find_m3u8_links false w t = (t', Ok links) ->
  exists d (s : gset string),
    t' = t ++ d /\ links = elements s /\
    forall u, u ∈ s <-> In u (observed w t d).
Proof.
  unfold find_m3u8_links. unfold bind at 1. unfold do at 1.
  destruct (w t GetLogPerformance) as [e|logs] eqn:E1; [discriminate|].
  unfold bind at 1. unfold do at 1.
  destruct (w (t ++ [GetLogPerformance]) (FindElements ByTagName "iframe"))
    as [e|iframes] eqn:E2; [discriminate|].
  unfold bind at 1.
  destruct (scan_frame_logs_observed iframes (scan_entries ∅ logs) w
              ((t ++ [GetLogPerformance]) ++ [FindElements ByTagName "iframe"]))
    as (d2 & s2 & E3 & H3).
  rewrite E3.
  unfold bind at 1. unfold do at 1.
  match goal with |- context [w ?t3 (Sleep 5)] =>
    destruct (w t3 (Sleep 5)) as [e|[]] eqn:E4; [discriminate|] end.
  unfold bind, do.
  match goal with |- context [w ?t4 GetLogPerformance] =>
    destruct (w t4 GetLogPerformance) as [e|final_logs] eqn:E5; [discriminate|] end.
  cbn. intros [= <- <-].
  exists ([GetLogPerformance; FindElements ByTagName "iframe"] ++ d2
            ++ [Sleep 5; GetLogPerformance]),
         (scan_entries s2 final_logs).
  split; [|split; [reflexivity|]].
  - rewrite <- !app_assoc. reflexivity.
  - intros u. rewrite scan_entries_elem, H3, scan_entries_elem.
    rewrite !observed_app, !in_app_iff. cbn [observed app].
    rewrite E1.
    replace (((t ++ [GetLogPerformance; FindElements ByTagName "iframe"]) ++ d2)
               ++ [Sleep 5])
      with ((((t ++ [GetLogPerformance]) ++ [FindElements ByTagName "iframe"]) ++ d2)
               ++ [Sleep 5])
      by (rewrite <- !app_assoc; reflexivity).
    rewrite E5.
    replace (t ++ [GetLogPerformance; FindElements ByTagName "iframe"])
      with ((t ++ [GetLogPerformance]) ++ [FindElements ByTagName "iframe"])
      by (rewrite <- !app_assoc; reflexivity).
    rewrite !app_nil_r, elem_of_empty. tauto.
Qed.

(** C9. The sequence the normal-mode harvester returns holds every stream
    URL that some log read of the call showed (the top-level read, the reads
    inside the frames, the final read), holds nothing else, and holds each
    of them exactly once. *)
Theorem harvester_set_semantics
    (w : env) (t d : trace) (links : list string)
    (Hrun : find_m3u8_links false w t = (t ++ d, Ok links)) :
  NoDup links /\
  (forall u, In u links <-> In u (observed w t d)) /\
  (forall u, In u (observed w t d) -> count_occ string_dec links u = 1%nat).
Proof.
  destruct (find_m3u8_links_observed _ _ _ _ Hrun) as (d' & s & Ht & -> & Hs).
  apply app_inv_head in Ht. subst d'.
  assert (Hnd : NoDup (elements s)) by apply NoDup_elements.
  assert (Hin : forall u, In u (elements s) <-> In u (observed w t d)).
  { intros u. rewrite <- Hs, <- list_elem_of_In. apply elem_of_elements. }
  split; [exact Hnd|]. split; [exact Hin|].
  intros u Hu. apply Hin in Hu.
  apply (proj1 (List.NoDup_count_occ' string_dec (elements s))).
  - apply NoDup_ListNoDup. exact Hnd.
  - exact Hu.
Qed.

Lemma harvester_set_semantics_witness :
  exists d links,
    find_m3u8_links false page_with_streams [] = (d, Ok links) /\
    observed page_with_streams [] d
      = [stream_a; stream_b; stream_a; stream_b; stream_a] /\
    count_occ string_dec links stream_a = 1%nat /\
    count_occ string_dec links stream_b = 1%nat.
Proof.
  eexists _, _. split; [vm_compute; reflexivity|].
  split; [vm_compute; reflexivity|].
  split.
  - refine (proj2 (proj2 (harvester_set_semantics page_with_streams [] _ _ _))
              stream_a _).
    + vm_compute. reflexivity.
    + vm_compute. left. reflexivity.
  - refine (proj2 (proj2 (harvester_set_semantics page_with_streams [] _ _ _))
              stream_b _).
    + vm_compute. reflexivity.
    + vm_compute. right. left. reflexivity.
Defined.

(** ** Batch run: the history guard *)

Section NoSession.
Let Q : call -> Prop := fun c => session_of c = None.

Lemma texts_no_session (elements : list handle) : adds Q (texts elements).
Proof. induction elements as [|a rest IH]; cbn [texts]; adds_auto. Qed.

Lemma get_movie_details_no_session : adds Q get_movie_details.
Proof. unfold get_movie_details. adds_auto; apply texts_no_session. Qed.

Lemma wait_for_element_no_session b value timeout :
  adds Q (wait_for_element b value timeout).
Proof. unfold wait_for_element. adds_auto. Qed.

Lemma click_dropdown_no_session (attempts : nat) (button : handle) :
  adds Q (click_dropdown attempts button).
Proof. induction attempts as [|remaining IH]; cbn [click_dropdown]; adds_auto. Qed.

Lemma try_options_no_session (options : list (string * string)) :
  adds Q (try_options options).
Proof.
  induction options as [|[xpath quality] rest IH]; cbn [try_options]; adds_auto.
  unfold try_option, wait_for_element. adds_auto.
Qed.

Lemma selector_no_session (source_flags : option (gmap string bool)) :
  adds Q (find_and_click_video_option source_flags).
Proof.
  unfold find_and_click_video_option. cbv zeta.
  adds_auto. apply try_options_no_session.
Qed.

Lemma poll_loop_no_session (fuel : nat) (player_url : string) (start_time : Z) :
  adds Q (poll_loop fuel player_url start_time).
Proof. induction fuel as [|fuel IH]; cbn [poll_loop]; adds_auto. Qed.

Lemma alternative_click_no_session fuel player_url play_button :
  adds Q (alternative_click fuel player_url play_button).
Proof.
  unfold alternative_click, wait_for_redirect. adds_auto.
  apply poll_loop_no_session.
Qed.

Lemma scan_iframes_no_session (fuel : nat) (iframes : list handle) :
  adds Q (scan_iframes fuel iframes).
Proof.
  induction iframes as [|iframe rest IH]; cbn [scan_iframes];
    unfold handle_voe_iframe, handle_player_iframe, wait_for_redirect;
    adds_auto;
    first [apply alternative_click_no_session | apply poll_loop_no_session].
Qed.

Lemma resolver_no_session (fuel : nat) : adds Q (check_and_handle_iframe fuel).
Proof.
  unfold check_and_handle_iframe. adds_auto. apply scan_iframes_no_session.
Qed.

Lemma first_waaw_src_no_session (iframes : list handle) :
  adds Q (first_waaw_src iframes).
Proof. induction iframes as [|iframe rest IH]; cbn [first_waaw_src]; adds_auto. Qed.

Lemma scan_frame_logs_no_session (iframes : list handle) :
  forall s, adds Q (scan_frame_logs s iframes).
Proof.
  induction iframes as [|iframe rest IH]; intros s; cbn [scan_frame_logs];
    unfold scan_frame; adds_auto. apply IH.
Qed.

Lemma harvester_no_session (is_netu : bool) : adds Q (find_m3u8_links is_netu).
Proof.
  unfold find_m3u8_links, get_waaw_link. adds_auto;
    first [apply first_waaw_src_no_session | apply scan_frame_logs_no_session].
Qed.

Lemma first_existing_path_no_session (paths : list string) :
  adds Q (first_existing_path paths).
Proof. induction paths as [|path rest IH]; cbn [first_existing_path]; adds_auto. Qed.

Lemma ask_user_no_session (fuel : nat) : adds Q (ask_user fuel).
Proof. induction fuel as [|fuel IH]; cbn [ask_user]; adds_auto. Qed.

Lemma play_links_no_session fuel auto_test (links : list string) :
  adds Q (play_links fuel auto_test links).
Proof.
  induction links as [|link rest IH]; cbn [play_links];
    unfold play_link, locate_vlc; adds_auto;
    first [apply first_existing_path_no_session | apply ask_user_no_session].
Qed.

Lemma verifier_no_session fuel (links : list string) auto_test :
  adds Q (try_play_in_vlc fuel links auto_test).
Proof. unfold try_play_in_vlc. adds_auto. apply play_links_no_session. Qed.

Lemma working_link_of_no_session fuel (links : list string) :
  adds Q (working_link_of fuel links).
Proof.
  induction links as [|link rest IH]; cbn [working_link_of]; adds_auto.
  apply verifier_no_session.
Qed.

Lemma first_working_link_no_session fuel (links : list string) :
  adds Q (first_working_link fuel links).
Proof.
  induction links as [|link rest IH]; cbn [first_working_link]; adds_auto.
  apply verifier_no_session.
Qed.

Lemma formatter_no_session fuel details (links : list string) :
  adds Q (format_roku_xml fuel details links).
Proof.
  unfold format_roku_xml. adds_auto. apply first_working_link_no_session.
Qed.

(** Nothing inside a session opens another one. *)
Lemma session_body_no_session fuel (content title url : string) :
  adds Q (session_body fuel content title url).
Proof.
  unfold session_body. adds_auto;
    first [ apply get_movie_details_no_session
          | apply wait_for_element_no_session
          | apply click_dropdown_no_session
          | apply selector_no_session
          | apply resolver_no_session
          | apply harvester_no_session
          | apply working_link_of_no_session
          | apply formatter_no_session ].
Qed.
End NoSession.

Lemma load_history_elem (lines : list string) (x : string) :
  x ∈ load_history lines <->
  exists h, In h lines /\ Str.contains " | " h = true /\
            x = Str.lower (Str.strip (List.hd "" (Str.split " | " h))).
Proof.
  unfold load_history.
  assert (G : forall (acc : gset string),
    x ∈ fold_left
          (fun processed_movies line =>
             if Str.contains " | " line then
               processed_movies
                 ∪ {[ Str.lower (Str.strip (List.hd "" (Str.split " | " line))) ]}
             else processed_movies) lines acc <->
    x ∈ acc \/
    exists h, In h lines /\ Str.contains " | " h = true /\
              x = Str.lower (Str.strip (List.hd "" (Str.split " | " h)))).
  { induction lines as [|l lines IH]; intros acc; cbn [fold_left].
    - split; [intros H; left; exact H | intros [H|(h & [] & _)]; exact H].
    - rewrite IH. split.
      + intros [H|(h & Hin & Hc & Hx)].
        * destruct (Str.contains " | " l) eqn:Hl; [|left; exact H].
          apply elem_of_union in H as [H|H]; [left; exact H|].
          apply elem_of_singleton in H. right. exists l.
          split; [left; reflexivity | split; assumption].
        * right. exists h. split; [right; exact Hin | split; assumption].
      + intros [H|(h & [<-|Hin] & Hc & Hx)].
        * left. destruct (Str.contains " | " l); [|exact H].
          apply elem_of_union. left. exact H.
        * left. rewrite Hc. apply elem_of_union. right.
          apply elem_of_singleton. exact Hx.
        * right. exists h. split; [exact Hin | split; assumption]. }
  rewrite G. rewrite elem_of_empty. tauto.
Qed.

Lemma in_history_processed (history_lines : list string) (line title url : string) :
  Str.split " | " line = [title; url] ->
  in_history history_lines line
  = bool_decide (Str.lower (Str.strip title) ∈ load_history history_lines).
Proof.
  intros Hsplit. unfold in_history. rewrite Hsplit.
  apply eq_true_iff_eq. rewrite existsb_exists, bool_decide_eq_true, load_history_elem.
  split.
  - intros (h & Hin & [Hc Heq%String.eqb_eq]%andb_true_iff).
    exists h. split; [exact Hin | split; [exact Hc | symmetry; exact Heq]].
  - intros (h & Hin & Hc & Heq).
    exists h. split; [exact Hin|]. apply andb_true_iff.
    split; [exact Hc | apply String.eqb_eq; symmetry; exact Heq].
Qed.

Lemma sessions_app (t d : trace) : sessions (t ++ d) = (sessions t + sessions d)%nat.
Proof. unfold sessions. rewrite omap_app, length_app. reflexivity. Qed.

(** One turn opens a session only for a well-formed target that is not in
    the history, and then only one. *)
Lemma process_movie_sessions fuel (history_lines : list string) (title_bound : bool)
    (content line : string) (w : env) (t : trace) :
  (sessions
     (process_movie fuel (load_history history_lines) title_bound content line w t).1
   <= sessions t
      + (if well_formed line && negb (in_history history_lines line) then 1 else 0))%nat.
Proof.
  unfold process_movie, well_formed.
  destruct (Str.split " | " line) as [|title [|url [|x rest]]] eqn:Hsplit;
    try (destruct title_bound; unfold ret, raise; cbn [fst andb]; lia).
  rewrite (in_history_processed _ _ _ _ Hsplit). cbn [andb].
  destruct (bool_decide (Str.lower (Str.strip title) ∈ load_history history_lines));
    [unfold ret; cbn [fst negb]; lia|].
  cbn [negb]. unfold try_except at 1.
  match goal with |- context [bind (do ChromeStart) ?k] =>
    destruct (adds_after_do (fun c => session_of c = None) ChromeStart k) with w t
      as (d & Hd & Hs) end.
  { intros _. adds_auto. apply session_body_no_session. }
  match goal with |- context [bind (do ChromeStart) ?k w t] =>
    destruct (bind (do ChromeStart) k w t) as [t1 r] end.
  cbn in Hd. subst t1.
  assert (Hc : sessions (t ++ ChromeStart :: d) = (sessions t + 1)%nat).
  { rewrite sessions_app. unfold sessions. cbn.
    rewrite (omap_silent _ _ Hs). reflexivity. }
  destruct r; unfold ret; cbn [fst]; rewrite Hc; lia.
Qed.

Lemma new_targets_cons (history_lines : list string) (line : string) (movies : list string) :
  length (new_targets history_lines (line :: movies))
  = ((if well_formed line && negb (in_history history_lines line) then 1 else 0)
     + length (new_targets history_lines movies))%nat.
Proof.
  unfold new_targets. cbn [List.filter].
  destruct (well_formed line && negb (in_history history_lines line)); reflexivity.
Qed.

Lemma process_movies_sessions fuel (history_lines movies : list string) :
  forall (title_bound : bool) (content : string) (w : env) (t : trace),
    (sessions
       (process_movies fuel (load_history history_lines) title_bound content
          movies w t).1
     <= sessions t + length (new_targets history_lines movies))%nat.
Proof.
  induction movies as [|line movies IH]; intros title_bound content w t.
  - cbn [process_movies]. unfold ret. cbn [fst]. lia.
  - cbn [process_movies]. unfold bind.
    pose proof (process_movie_sessions fuel history_lines title_bound content
                  line w t) as H1.
    rewrite new_targets_cons.
    destruct (process_movie fuel (load_history history_lines) title_bound
                content line w t) as [t1 [content'|e|]];
      cbn [fst] in *; try lia.
    specialize (IH (title_bound || well_formed line) content' w t1). lia.
Qed.

(** C8. In a batch run, a target whose title is the first segment of some
    history line, compared stripped and lower-cased, is skipped before
    anything else happens: its turn makes no call at all, so no browser
    session is opened for it, and the manifest text is unchanged. Over the
    whole loop the sessions opened are at most the well-formed targets that
    are not in the history. *)
Theorem history_guard
    (fuel : nat) (history_lines : list string) (title_bound : bool)
    (content line title url h : string) (w : env) (t : trace)
    (Hline : Str.split " | " line = [title; url])
    (Hh : In h history_lines)
    (Hsep : Str.contains " | " h = true)
    (Hsame : Str.lower (Str.strip (List.hd "" (Str.split " | " h)))
             = Str.lower (Str.strip title)) :
  process_movie fuel (load_history history_lines) title_bound content line w t
    = (t, Ok content) /\
  sessions
    (process_movie fuel (load_history history_lines) title_bound content line w t).1
    = sessions t /\
  forall movies,
    (sessions
       (process_movies fuel (load_history history_lines) title_bound content
          movies w t).1
     <= sessions t + length (new_targets history_lines movies))%nat.
Proof.
  assert (E : process_movie fuel (load_history history_lines) title_bound content
                line w t = (t, Ok content)).
  { unfold process_movie. rewrite Hline.
    rewrite bool_decide_eq_true_2; [reflexivity|].
    apply load_history_elem. exists h.
    split; [exact Hh | split; [exact Hsep | symmetry; exact Hsame]]. }
  split; [exact E|]. split; [rewrite E; reflexivity|].
  intros movies. apply process_movies_sessions.
Qed.

Lemma history_guard_witness :
  process_movie 40 (load_history history_example) false "<Content>"
    "Movie X | https://cuevana.example/movie-x" working_player []
    = ([], Ok "<Content>") /\
  sessions
    (process_movies 40 (load_history history_example) false "<Content>"
       targets_example working_player []).1 = 0%nat.
Proof.
  destruct (history_guard 40 history_example false "<Content>"
              "Movie X | https://cuevana.example/movie-x"
              "Movie X" "https://cuevana.example/movie-x"
              (String.append "MOVIE X | https://cdn.example/x/index.m3u8" newline)
              working_player [])
    as (E & _ & Hall).
  - reflexivity.
  - left. reflexivity.
  - reflexivity.
  - reflexivity.
  - split; [exact E|].
    specialize (Hall targets_example).
    change (length (new_targets history_example targets_example)) with 0%nat in Hall.
    cbn [sessions omap length] in Hall.
    apply Nat.le_0_r. exact Hall.
Defined.

(** * Further properties of the module *)

(** ** Playback verifier: how a verification ends *)

Lemma adds_anything {A} (p : M A) :
  adds (fun _ => True) p -> forall (w : env) (t : trace), exists d, (p w t).1 = t ++ d.
Proof. intros H w t. destruct (H w t) as (d & Hd & _). exists d. exact Hd. Qed.

Lemma locate_vlc_extends (w : env) (t : trace) :
  exists d, (locate_vlc w t).1 = t ++ d.
Proof.
  apply adds_anything. unfold locate_vlc. adds_auto.
  cbn [first_existing_path]. adds_auto.
Qed.

(** X1. When the player executable is at none of the three known places,
    the verifier gives up at the first candidate: it looks the three places
    up once, starts nothing and returns failure, however many candidates
    are left. *)
Theorem verifier_player_missing_is_fatal
    (fuel : nat) (video_links : list string) (auto_test : bool)
    (w : env) (t : trace) (home : string)
    (Hlinks : List.filter (fun link => negb (is_excluded_link link)) video_links <> [])
    (Hmissing : forall t' path, w t' (PathExists path) = inr false)
    (Hhome : forall t', w t' (ExpandUser vlc_user_path) = inr home) :
  try_play_in_vlc fuel video_links auto_test w t
  = (t ++ [ PathExists vlc_default_path; ExpandUser vlc_user_path;
            PathExists vlc_x86_path; PathExists home ],
     Ok false).
Proof.
  unfold try_play_in_vlc.
  destruct video_links as [|l0 ls]; [destruct Hlinks; reflexivity|].
  rewrite bool_decide_eq_false_2 by discriminate. cbv zeta.
  destruct (List.filter (fun link => negb (is_excluded_link link)) (l0 :: ls))
    as [|link rest]; [destruct Hlinks; reflexivity|].
  rewrite bool_decide_eq_false_2 by discriminate.
  assert (Hlocate : locate_vlc w t
            = (t ++ [ PathExists vlc_default_path; ExpandUser vlc_user_path;
                      PathExists vlc_x86_path; PathExists home ], Ok None)).
  { unfold locate_vlc.
    rewrite (bind_do_ok _ _ _ _ _ (Hmissing _ _)). cbv iota.
    rewrite (bind_do_ok _ _ _ _ _ (Hhome _)).
    cbn [first_existing_path].
    rewrite (bind_do_ok _ _ _ _ _ (Hmissing _ _)). cbv iota.
    rewrite (bind_do_ok _ _ _ _ _ (Hmissing _ _)). cbv iota.
    rewrite <- !app_assoc. reflexivity. }
  cbn [play_links]. unfold play_link.
  erewrite bind_ok; cycle 1.
  { apply try_except_ok. rewrite (bind_ok _ _ _ _ _ _ Hlocate). reflexivity. }
  reflexivity.
Qed.

Lemma verifier_player_missing_is_fatal_witness :
  try_play_in_vlc 5 ["https://a.example/1.m3u8"; "https://a.example/2.m3u8"]
    true no_player []
  = ([ PathExists vlc_default_path; ExpandUser vlc_user_path;
       PathExists vlc_x86_path; PathExists vlc_user_path ], Ok false).
Proof.
  refine (verifier_player_missing_is_fatal 5 _ true no_player [] vlc_user_path _ _ _).
  - vm_compute. discriminate.
  - intros t' path. reflexivity.
  - intros t'. reflexivity.
Defined.

Lemma ask_user_any (fuel : nat) : adds (fun _ => True) (ask_user fuel).
Proof. induction fuel as [|fuel IH]; cbn [ask_user]; adds_auto. Qed.

Lemma first_existing_path_any (paths : list string) :
  adds (fun _ => True) (first_existing_path paths).
Proof. induction paths as [|path rest IH]; cbn [first_existing_path]; adds_auto. Qed.

Lemma play_link_extends fuel auto_test link (w : env) (t : trace) :
  exists d, (play_link fuel auto_test link w t).1 = t ++ d.
Proof.
  apply adds_anything. unfold play_link, locate_vlc.
  adds_auto; first [apply first_existing_path_any | apply ask_user_any].
Qed.

(** Whatever makes a single verification succeed also ends a successful
    run over a list of candidates, for one of the candidates. *)
Lemma play_links_success fuel auto_test
    (S : env -> trace -> string -> trace -> Prop)
    (HS : forall link (w : env) (t t' : trace),
        play_link fuel auto_test link w t = (t', Ok (Some true)) ->
        exists d tail, t' = t ++ d ++ tail /\ S w (t ++ d) link tail)
    (links : list string) :
  forall (w : env) (t t' : trace),
    play_links fuel auto_test links w t = (t', Ok true) ->
    exists d link tail,
      In link links /\ t' = t ++ d ++ tail /\ S w (t ++ d) link tail.
Proof.
  induction links as [|link rest IH]; intros w t t' H; cbn [play_links] in H.
  - discriminate.
  - unfold bind, try_except in H.
    destruct (play_link_extends fuel auto_test link w t) as (d0 & Hd0).
    destruct (play_link fuel auto_test link w t) as [t1 r] eqn:E.
    cbn [fst] in Hd0. subst t1.
    assert (Hnext : play_links fuel auto_test rest w (t ++ d0) = (t', Ok true) ->
                    exists d link' tail,
                      In link' (link :: rest) /\ t' = t ++ d ++ tail /\
                      S w (t ++ d) link' tail).
    { intros Hrest. destruct (IH _ _ _ Hrest) as (d & l & tail & Hin & -> & Hs).
      exists (d0 ++ d), l, tail. split; [right; exact Hin|].
      rewrite <- !app_assoc. split; [reflexivity|].
      rewrite app_assoc. exact Hs. }
    destruct r as [[[|]|]|e|]; cbn in H; try discriminate; try (apply Hnext; exact H).
    injection H as <-.
    destruct (HS _ _ _ _ E) as (d & tail & Ht & Hs).
    exists d, link, tail. split; [left; reflexivity|]. split; assumption.
Qed.

Lemma play_link_automated fuel link (w : env) (t t' : trace) :
  play_link fuel true link w t = (t', Ok (Some true)) ->
  exists d tail, t' = t ++ d ++ tail /\ automated_success w (t ++ d) link tail.
Proof.
  unfold play_link. unfold bind at 1.
  destruct (locate_vlc_extends w t) as (d & Hd).
  destruct (locate_vlc w t) as [t1 [[exe|]|e|]]; cbn [fst] in Hd; subst t1;
    try discriminate.
  unfold bind, do.
  destruct (w (t ++ d) (Popen exe link)) as [e|p] eqn:Ep; [discriminate|].
  destruct (w ((t ++ d) ++ [Popen exe link]) (Sleep 5)) as [e|[]]; [discriminate|].
  destruct (w (((t ++ d) ++ [Popen exe link]) ++ [Sleep 5]) (Poll p)) as [e|[z|]];
    try discriminate.
  cbn [negb bool_decide].
  rewrite bool_decide_eq_true_2 by reflexivity. cbn [negb].
  destruct (w _ (Sleep 25)) as [e|[]]; [discriminate|].
  destruct (w _ (Poll p)) as [e|[z|]]; try discriminate.
  rewrite bool_decide_eq_true_2 by reflexivity.
  destruct (w _ (Terminate p)) as [e|[]]; [discriminate|].
  destruct (w _ (Sleep 2)) as [e|[]]; [discriminate|].
  intros [= <-].
  exists d, [Popen exe link; Sleep 5; Poll p; Sleep 25; Poll p; Terminate p; Sleep 2].
  split; [rewrite <- !app_assoc; reflexivity|].
  exists exe, p. split; [reflexivity | exact Ep].
Qed.

(** X2. An automated verification that succeeds has terminated the player
    it started: the run ends with the player started on a candidate that
    passed the filter, found alive after 5 and after 25 more seconds, then
    terminated, and two seconds of waiting. *)
Theorem verifier_automated_success_terminates
    (fuel : nat) (video_links : list string) (w : env) (t t' : trace)
    (Hrun : try_play_in_vlc fuel video_links true w t = (t', Ok true)) :
  exists d link tail,
    In link video_links /\ is_excluded_link link = false /\
    t' = t ++ d ++ tail /\ automated_success w (t ++ d) link tail.
Proof.
  unfold try_play_in_vlc in Hrun.
  destruct (bool_decide (video_links = [])); [discriminate|].
  destruct (bool_decide (List.filter _ video_links = [])); [discriminate|].
  destruct (play_links_success fuel true automated_success
              (play_link_automated fuel) _ _ _ _ Hrun)
    as (d & link & tail & [Hin Hex]%filter_In & Ht & Hs).
  exists d, link, tail. split; [exact Hin|].
  split; [apply negb_true_iff; exact Hex|]. split; assumption.
Qed.

Lemma verifier_automated_success_terminates_witness :
  exists d link tail,
    In link ["https://swiftplayers.com/stream/x.m3u8"; "https://a.example/1.m3u8"] /\
    is_excluded_link link = false /\
    (try_play_in_vlc 5 ["https://swiftplayers.com/stream/x.m3u8";
                        "https://a.example/1.m3u8"] true working_player []).1
      = [] ++ d ++ tail /\
    automated_success working_player ([] ++ d) link tail.
Proof.
  refine (verifier_automated_success_terminates 5 _ working_player [] _ _).
  vm_compute. reflexivity.
Defined.

Lemma terminations_app (t d : trace) :
  terminations (t ++ d) = terminations t ++ terminations d.
Proof. unfold terminations. apply omap_app. Qed.

Lemma spawns_app (t d : trace) : spawns (t ++ d) = spawns t ++ spawns d.
Proof. unfold spawns. apply omap_app. Qed.

(** The prompt returns a normalised yes or no, the answer to its last
    question; before it there are only questions and reminders. *)
Lemma ask_user_answer (fuel : nat) :
  forall (w : env) (t t' : trace) (response : string),
    ask_user fuel w t = (t', Ok response) ->
    (response = "yes" \/ response = "no") /\
    exists d answer,
      t' = t ++ d ++ [Input prompt_text] /\
      terminations d = [] /\ spawns d = [] /\
      w (t ++ d) (Input prompt_text) = inr answer /\
      Str.strip (Str.lower answer) = response.
Proof.
  induction fuel as [|fuel IH]; intros w t t' response H; [discriminate|].
  cbn [ask_user] in H. fold prompt_text in H. unfold bind at 1 in H. unfold do at 1 in H.
  destruct (w t (Input prompt_text)) as [e|answer] eqn:Ea; [discriminate|].
  cbv zeta in H.
  destruct (String.eqb (Str.strip (Str.lower answer)) "yes"
            || String.eqb (Str.strip (Str.lower answer)) "no") eqn:Ev.
  - injection H as <- <-. split.
    + apply orb_true_iff in Ev as [Ev|Ev]; apply String.eqb_eq in Ev; auto.
    + exists [], answer. rewrite app_nil_r. repeat split; assumption.
  - unfold bind, do in H.
    destruct (w (t ++ [Input prompt_text]) (Print "Please answer 'yes' or 'no'"))
      as [e|[]]; [discriminate|].
    destruct (IH _ _ _ _ H) as (Hr & d & a & -> & Ht & Hsp & Hw & Hs).
    split; [exact Hr|].
    exists ([Input prompt_text; Print "Please answer 'yes' or 'no'"] ++ d), a.
    rewrite <- !app_assoc. split; [reflexivity|].
    rewrite terminations_app, spawns_app, Ht, Hsp.
    split; [reflexivity|]. split; [reflexivity|].
    split; [|exact Hs].
    rewrite <- !app_assoc in Hw. exact Hw.
Qed.

Lemma play_link_confirmed fuel link (w : env) (t t' : trace) :
  play_link fuel false link w t = (t', Ok (Some true)) ->
  exists d tail, t' = t ++ d ++ tail /\ confirmed_by_user w (t ++ d) link tail.
Proof.
  unfold play_link. unfold bind at 1.
  destruct (locate_vlc_extends w t) as (d & Hd).
  destruct (locate_vlc w t) as [t1 [[exe|]|e|]]; cbn [fst] in Hd; subst t1;
    try discriminate.
  unfold bind at 1. unfold do at 1.
  destruct (w (t ++ d) (Popen exe link)) as [e|p] eqn:Ep; [discriminate|].
  unfold bind at 1. unfold do at 1.
  destruct (w ((t ++ d) ++ [Popen exe link]) (Sleep 5)) as [e|[]]; [discriminate|].
  unfold bind at 1. unfold do at 1.
  destruct (w (((t ++ d) ++ [Popen exe link]) ++ [Sleep 5]) (Poll p)) as [e|[z|]];
    try discriminate.
  rewrite bool_decide_eq_true_2 by reflexivity. cbn [negb]. cbv iota.
  unfold bind at 1.
  destruct (ask_user fuel w ((((t ++ d) ++ [Popen exe link]) ++ [Sleep 5]) ++ [Poll p]))
    as [t2 [response|e|]] eqn:Ea; try discriminate.
  destruct (ask_user_answer _ _ _ _ _ Ea) as (_ & d2 & answer & -> & Ht & Hsp & Hw & Hs).
  destruct (String.eqb_spec response "yes") as [->|Hno].
  - intros [= <-].
    exists d, (Popen exe link :: ([Sleep 5; Poll p] ++ d2) ++ [Input prompt_text]).
    split; [rewrite <- !app_assoc; reflexivity|].
    exists exe, ([Sleep 5; Poll p] ++ d2), answer.
    split; [reflexivity|].
    rewrite terminations_app, spawns_app, Ht, Hsp.
    split; [reflexivity|]. split; [reflexivity|].
    split; [|exact Hs].
    rewrite <- !app_assoc in Hw. rewrite <- !app_assoc. exact Hw.
  - unfold bind, do.
    destruct (w _ (Terminate p)) as [e|[]]; [discriminate|].
    destruct (w _ (Sleep 2)) as [e|[]]; discriminate.
Qed.

(** X3. An interactive verification succeeds only on a yes: the run ends
    with the question, answered yes up to case and surrounding blanks, and
    the player started last, on a candidate that passed the filter, is not
    terminated: it is left running. *)
Theorem verifier_interactive_success_keeps_player
    (fuel : nat) (video_links : list string) (w : env) (t t' : trace)
    (Hrun : try_play_in_vlc fuel video_links false w t = (t', Ok true)) :
  exists d link tail,
    In link video_links /\ is_excluded_link link = false /\
    t' = t ++ d ++ tail /\ confirmed_by_user w (t ++ d) link tail.
Proof.
  unfold try_play_in_vlc in Hrun.
  destruct (bool_decide (video_links = [])); [discriminate|].
  destruct (bool_decide (List.filter _ video_links = [])); [discriminate|].
  destruct (play_links_success fuel false confirmed_by_user
              (play_link_confirmed fuel) _ _ _ _ Hrun)
    as (d & link & tail & [Hin Hex]%filter_In & Ht & Hs).
  exists d, link, tail. split; [exact Hin|].
  split; [apply negb_true_iff; exact Hex|]. split; assumption.
Qed.

Lemma verifier_interactive_success_keeps_player_witness :
  exists d link tail,
    In link ["https://a.example/1.m3u8"] /\
    is_excluded_link link = false /\
    (try_play_in_vlc 5 ["https://a.example/1.m3u8"] false hesitant_user []).1
      = [] ++ d ++ tail /\
    confirmed_by_user hesitant_user ([] ++ d) link tail.
Proof.
  refine (verifier_interactive_success_keeps_player 5 _ hesitant_user [] _ _).
  vm_compute. reflexivity.
Defined.

(** ** Exception barriers *)









(** ** Resource harvester: the special provider and the frames *)

(** The lookup of the special provider reads no log, and what it finds is a
    non-empty [src] with the provider's marker. *)
Lemma first_waaw_src_result (iframes : list handle) :
  forall (w : env) (t : trace),
    exists d r,
      first_waaw_src iframes w t = (t ++ d, r) /\
      Forall (fun c => log_read_of c = None) d /\
      match r with
      | Ok (Some src) => src <> "" /\ Str.contains "waaw.to" src = true
      | Ok None | Exc _ => True
      | OutOfFuel => False
      end.
Proof.
  induction iframes as [|iframe rest IH]; intros w t; cbn [first_waaw_src].
  - exists [], (Ok None). rewrite app_nil_r. repeat split. constructor.
  - unfold bind, do.
    destruct (w t (GetAttribute iframe "src")) as [e|src].
    { exists [GetAttribute iframe "src"], (Exc e). repeat split.
      constructor; [reflexivity | constructor]. }
    assert (Hnext : exists d r,
               first_waaw_src rest w (t ++ [GetAttribute iframe "src"]) = (t ++ d, r) /\
               Forall (fun c => log_read_of c = None) d /\
               match r with
               | Ok (Some src) => src <> "" /\ Str.contains "waaw.to" src = true
               | Ok None | Exc _ => True
               | OutOfFuel => False
               end).
    { destruct (IH w (t ++ [GetAttribute iframe "src"])) as (d & r & E & Hd & Hr).
      exists (GetAttribute iframe "src" :: d), r.
      rewrite E, <- app_assoc. split; [reflexivity|]. split; [|exact Hr].
      constructor; [reflexivity | exact Hd]. }
    destruct src as [src|]; [|exact Hnext].
    destruct (negb (String.eqb src "") && Str.contains "waaw.to" src) eqn:Hm;
      [|exact Hnext].
    apply andb_true_iff in Hm as [Hne Hc].
    exists [GetAttribute iframe "src"], (Ok (Some src)).
    split; [reflexivity|]. split; [constructor; [reflexivity | constructor]|].
    split; [|exact Hc]. intros ->. discriminate.
Qed.

(** X5. In special-provider mode the harvester never reads the network
    log and never fails: it returns the empty list, or the single [src] of
    a frame, which then carries the provider's marker. *)
Theorem special_mode_harvest (w : env) (t : trace) :
  exists (d : trace) (links : list string),
    find_m3u8_links true w t = (t ++ d, Ok links) /\
    Forall (fun c => log_read_of c = None) d /\
    (links = [] \/
     exists src, links = [src] /\ src <> "" /\ Str.contains "waaw.to" src = true).
Proof.
  unfold find_m3u8_links, get_waaw_link, bind, try_except. unfold do at 1.
  destruct (w t (FindElements ByTagName "iframe")) as [e|iframes].
  { exists [FindElements ByTagName "iframe"], []. split; [reflexivity|].
    split; [constructor; [reflexivity | constructor] | left; reflexivity]. }
  destruct (first_waaw_src_result iframes w (t ++ [FindElements ByTagName "iframe"]))
    as (d & r & E & Hd & Hr).
  rewrite E.
  assert (Hall : Forall (fun c => log_read_of c = None)
                   (FindElements ByTagName "iframe" :: d))
    by (constructor; [reflexivity | exact Hd]).
  destruct r as [[src|]|e|]; cbn.
  - destruct Hr as [Hne Hc].
    destruct (String.eqb_spec src "") as [->|_]; [destruct (Hne eq_refl)|].
    exists (FindElements ByTagName "iframe" :: d), [src].
    rewrite <- app_assoc. split; [reflexivity|]. split; [exact Hall|].
    right. exists src. repeat split; assumption.
  - exists (FindElements ByTagName "iframe" :: d), [].
    rewrite <- app_assoc. split; [reflexivity|]. split; [exact Hall | left; reflexivity].
  - exists (FindElements ByTagName "iframe" :: d), [].
    rewrite <- app_assoc. split; [reflexivity|]. split; [exact Hall | left; reflexivity].
  - destruct Hr.
Qed.

Lemma frames_entered_app (t d : trace) :
  frames_entered (t ++ d) = frames_entered t ++ frames_entered d.
Proof. unfold frames_entered. apply omap_app. Qed.

(** Every frame of the list is entered, in order; nothing that fails in a
    frame leaves the loop. *)
Lemma scan_frame_logs_enters_all (iframes : list handle) :
  forall (s : gset string) (w : env) (t : trace),
    exists d s',
      scan_frame_logs s iframes w t = (t ++ d, Ok s') /\
      frames_entered d = iframes.
Proof.
  induction iframes as [|iframe rest IH]; intros s w t.
  - exists [], s. rewrite app_nil_r. split; reflexivity.
  - assert (Hframe : exists d1 s1,
               scan_frame s iframe w t = (t ++ SwitchToFrame iframe :: d1, Ok s1) /\
               frames_entered d1 = []).
    { unfold scan_frame, try_except, bind, do.
      destruct (w t (SwitchToFrame iframe)) as [e|[]].
      { exists [], s. split; reflexivity. }
      destruct (w (t ++ [SwitchToFrame iframe]) (Sleep 2)) as [e|[]].
      { exists [Sleep 2], s. rewrite <- app_assoc. split; reflexivity. }
      destruct (w ((t ++ [SwitchToFrame iframe]) ++ [Sleep 2]) GetLogPerformance)
        as [e|logs].
      { exists [Sleep 2; GetLogPerformance], s. rewrite <- !app_assoc.
        split; reflexivity. }
      exists [Sleep 2; GetLogPerformance; SwitchToDefaultContent],
             (scan_entries s logs).
      destruct (w _ SwitchToDefaultContent) as [e|[]];
        rewrite <- !app_assoc; split; reflexivity. }
    destruct Hframe as (d1 & s1 & E1 & H1).
    destruct (IH s1 w (t ++ SwitchToFrame iframe :: d1)) as (d2 & s2 & E2 & H2).
    exists ((SwitchToFrame iframe :: d1) ++ d2), s2. split.
    + cbn [scan_frame_logs]. unfold bind. rewrite E1, E2, app_assoc. reflexivity.
    + rewrite frames_entered_app.
      change (iframe :: frames_entered d1 ++ frames_entered d2 = iframe :: rest).
      rewrite H1, H2. reflexivity.
Qed.

(** X6. In normal mode a frame that cannot be entered or left does not stop
    the harvest: when the log reads, the lookup of the frames and the final
    wait are answered, the harvester returns a list, and it has entered
    every frame of the page, in page order, whatever failed inside one. *)
Theorem harvester_enters_every_frame
    (w : env) (t : trace) (iframes : list handle)
    (Hlogs : forall t', exists logs, w t' GetLogPerformance = inr logs)
    (Hframes : w (t ++ [GetLogPerformance]) (FindElements ByTagName "iframe")
               = inr iframes)
    (Hwait : forall t', w t' (Sleep 5) = inr tt) :
  exists (d : trace) (links : list string),
    find_m3u8_links false w t = (t ++ d, Ok links) /\
    frames_entered d = iframes.
Proof.
  unfold find_m3u8_links.
  destruct (Hlogs t) as [logs E1]. rewrite (bind_do_ok _ _ _ _ _ E1).
  rewrite (bind_do_ok _ _ _ _ _ Hframes).
  destruct (scan_frame_logs_enters_all iframes (scan_entries ∅ logs) w
              ((t ++ [GetLogPerformance]) ++ [FindElements ByTagName "iframe"]))
    as (d & s & E & Hd).
  rewrite (bind_ok _ _ _ _ _ _ E).
  rewrite (bind_do_ok _ _ _ _ _ (Hwait _)).
  destruct (Hlogs ((((t ++ [GetLogPerformance]) ++ [FindElements ByTagName "iframe"])
                      ++ d) ++ [Sleep 5])) as [final_logs E2].
  rewrite (bind_do_ok _ _ _ _ _ E2).
  exists ([GetLogPerformance; FindElements ByTagName "iframe"] ++ d
            ++ [Sleep 5; GetLogPerformance]), (elements (scan_entries s final_logs)).
  split.
  - unfold ret. rewrite <- !app_assoc. reflexivity.
  - rewrite !frames_entered_app. cbn. rewrite Hd, app_nil_r. reflexivity.
Qed.

Lemma harvester_enters_every_frame_witness :
  exists d links,
    find_m3u8_links false stubborn_frames_page [] = ([] ++ d, Ok links) /\
    frames_entered d = [0%nat; 1%nat; 2%nat].
Proof.
  refine (harvester_enters_every_frame stubborn_frames_page [] _ _ _ _).
  - intros t'. eexists. reflexivity.
  - reflexivity.
  - intros t'. reflexivity.
Defined.

(** ** Embed/redirect resolver: the three ways of a frame *)

(** X7. A page without a frame of a known provider resolves to nothing,
    and that is all: the resolver reads the [src] of every frame once, in
    page order, navigates nowhere and returns none. *)
Theorem resolver_without_known_frame
    (fuel : nat) (w : env) (t : trace) (iframes : list handle)
    (Hframes : w t (FindElements ByTagName "iframe") = inr iframes)
    (Hsrc : forall t' h, exists src,
        w t' (GetAttribute h "src") = inr src /\ unknown_src src) :
  check_and_handle_iframe fuel w t
  = (t ++ FindElements ByTagName "iframe"
        :: map (fun h => GetAttribute h "src") iframes,
     Ok None).
Proof.
  unfold check_and_handle_iframe.
  apply try_except_ok. rewrite (bind_do_ok _ _ _ _ _ Hframes).
  assert (G : forall (iframes : list handle) (t : trace),
             scan_iframes fuel iframes w t
             = (t ++ map (fun h => GetAttribute h "src") iframes, Ok None)).
  { clear iframes Hframes t.
    induction iframes as [|iframe rest IH]; intros t.
    - cbn. rewrite app_nil_r. reflexivity.
    - cbn [scan_iframes map].
      destruct (Hsrc t iframe) as (src & E & Hu).
      rewrite (bind_do_ok _ _ _ _ _ E).
      assert (Hskip : scan_iframes fuel rest w (t ++ [GetAttribute iframe "src"])
                      = (t ++ GetAttribute iframe "src"
                           :: map (fun h => GetAttribute h "src") rest, Ok None)).
      { rewrite IH, <- app_assoc. reflexivity. }
      destruct src as [src|]; [|exact Hskip].
      destruct Hu as [->|[Hv Hp]]; [exact Hskip|].
      rewrite Hv, Hp. destruct (String.eqb src ""); exact Hskip. }
  rewrite G, <- app_assoc. reflexivity.
Qed.

Lemma resolver_without_known_frame_witness :
  check_and_handle_iframe 40 plain_frames_page []
  = ([ FindElements ByTagName "iframe"; GetAttribute 0 "src";
       GetAttribute 1 "src"; GetAttribute 2 "src" ], Ok None).
Proof.
  refine (resolver_without_known_frame 40 plain_frames_page []
            [0%nat; 1%nat; 2%nat] _ _).
  - reflexivity.
  - intros t' [|[|h]]; eexists; (split; [reflexivity|]); cbn.
    + exact I.
    + left. reflexivity.
    + right. split; reflexivity.
Defined.

(** X8. A voe.sx frame whose logo is found and clicked ends the call with
    the page URL read once, three seconds after the click, whatever that URL
    is (the frame's own URL included): there is no poll and no later frame
    is looked at. *)
Theorem resolver_voe_frame_returns_current_url
    (fuel : nat) (w : env) (t : trace) (iframe logo : handle)
    (rest : list handle) (src current_url : string)
    (Hframes : w t (FindElements ByTagName "iframe") = inr (iframe :: rest))
    (Hsrc : forall t', w t' (GetAttribute iframe "src") = inr (Some src))
    (Hvoe : Str.contains "voe.sx" src = true)
    (Hget : forall t', w t' (Get src) = inr tt)
    (Hsleep : forall t', w t' (Sleep 3) = inr tt)
    (Hlogo : forall t', w t' (WaitPresence ByCssSelector voe_logo_css 10) = inr logo)
    (Hclick : forall t', w t' (ExecuteScript ScriptClick [logo]) = inr tt)
    (Hurl : forall t', w t' CurrentUrl = inr current_url) :
  check_and_handle_iframe fuel w t
  = (t ++ [ FindElements ByTagName "iframe"; GetAttribute iframe "src";
            Get src; Sleep 3; WaitPresence ByCssSelector voe_logo_css 10;
            ExecuteScript ScriptClick [logo]; Sleep 3; CurrentUrl ],
     Ok (Some current_url)).
Proof.
  unfold check_and_handle_iframe.
  apply try_except_ok. rewrite (bind_do_ok _ _ _ _ _ Hframes).
  cbn [scan_iframes]. rewrite (bind_do_ok _ _ _ _ _ (Hsrc _)).
  assert (Hne : String.eqb src "" = false).
  { destruct (String.eqb_spec src "") as [->|]; [discriminate | reflexivity]. }
  rewrite Hne, Hvoe.
  erewrite bind_ok; cycle 1.
  { unfold handle_voe_iframe.
    rewrite (bind_do_ok _ _ _ _ _ (Hget _)).
    rewrite (bind_do_ok _ _ _ _ _ (Hsleep _)).
    apply try_except_ok.
    rewrite (bind_do_ok _ _ _ _ _ (Hlogo _)).
    rewrite (bind_do_ok _ _ _ _ _ (Hclick _)).
    rewrite (bind_do_ok _ _ _ _ _ (Hsleep _)).
    rewrite (bind_do_ok _ _ _ _ _ (Hurl _)).
    reflexivity. }
  cbv iota beta. unfold ret. rewrite <- !app_assoc. reflexivity.
Qed.

Lemma resolver_voe_frame_returns_current_url_witness :
  check_and_handle_iframe 40 voe_page []
  = ([ FindElements ByTagName "iframe"; GetAttribute 0 "src";
       Get voe_frame_url; Sleep 3; WaitPresence ByCssSelector voe_logo_css 10;
       ExecuteScript ScriptClick [4%nat]; Sleep 3; CurrentUrl ],
     Ok (Some voe_frame_url)).
Proof.
  refine (resolver_voe_frame_returns_current_url 40 voe_page [] 0%nat 4%nat
            [1%nat] voe_frame_url voe_frame_url _ _ _ _ _ _ _ _);
    try (intros t'; reflexivity); reflexivity.
Defined.

(** X9. When the play button of a player frame never shows up, the other
    way to click cannot be taken either, for want of a button: the branch
    clicks nothing, reads no URL and returns none at once. *)
Theorem player_frame_without_button
    (fuel : nat) (w : env) (t : trace) (player_url : string) (e : exn)
    (Hget : w t (Get player_url) = inr tt)
    (Hsleep : w (t ++ [Get player_url]) (Sleep 3) = inr tt)
    (Hbutton : w (t ++ [Get player_url; Sleep 3])
                 (WaitPresence ByCssSelector play_button_css 10) = inl e) :
  handle_player_iframe fuel player_url w t
  = (t ++ [Get player_url; Sleep 3; WaitPresence ByCssSelector play_button_css 10],
     Ok None).
Proof.
  unfold handle_player_iframe.
  rewrite (bind_do_ok _ _ _ _ _ Hget), (bind_do_ok _ _ _ _ _ Hsleep).
  rewrite <- app_assoc. cbn [app].
  unfold bind at 1. unfold try_except at 1. unfold bind at 1. unfold do at 1.
  rewrite Hbutton. cbn. rewrite <- !app_assoc. reflexivity.
Qed.

Lemma player_frame_without_button_witness :
  handle_player_iframe 40 player_frame_url no_button_page []
  = ([ Get player_frame_url; Sleep 3;
       WaitPresence ByCssSelector play_button_css 10 ], Ok None).
Proof.
  refine (player_frame_without_button 40 no_button_page [] player_frame_url
            TimeoutException _ _ _); reflexivity.
Defined.

(** ** Pipeline: the click on the dropdown *)

Lemma dropdown_clicks_app (t d : trace) :
  dropdown_clicks (t ++ d) = (dropdown_clicks t + dropdown_clicks d)%nat.
Proof. unfold dropdown_clicks. rewrite omap_app, length_app. reflexivity. Qed.

Lemma click_dropdown_clicks (attempts : nat) (button : handle) :
  forall (w : env) (t : trace),
    exists d, (click_dropdown attempts button w t).1 = t ++ d /\
              (dropdown_clicks d <= attempts)%nat.
Proof.
  induction attempts as [|remaining IH]; intros w t; cbn [click_dropdown].
  - exists []. rewrite app_nil_r. split; [reflexivity | cbn; lia].
  - unfold try_except, bind. unfold do at 1.
    destruct (w t (ExecuteScript ScriptScrollClick [button])) as [e|[]].
    + destruct e;
        try (exists [ExecuteScript ScriptScrollClick [button]];
             split; [reflexivity | cbn; lia]).
      destruct remaining as [|remaining'].
      { exists [ExecuteScript ScriptScrollClick [button]].
        split; [reflexivity | cbn; lia]. }
      unfold bind, do.
      destruct (w (t ++ [ExecuteScript ScriptScrollClick [button]]) (Sleep 2))
        as [e|[]].
      { exists [ExecuteScript ScriptScrollClick [button]; Sleep 2].
        rewrite <- app_assoc. split; [reflexivity | cbn; lia]. }
      destruct (IH w ((t ++ [ExecuteScript ScriptScrollClick [button]]) ++ [Sleep 2]))
        as (d & Hd & Hn).
      exists ([ExecuteScript ScriptScrollClick [button]; Sleep 2] ++ d).
      rewrite Hd, <- !app_assoc. split; [reflexivity|].
      rewrite dropdown_clicks_app. cbn. cbn in Hn. lia.
    + unfold do.
      destruct (w (t ++ [ExecuteScript ScriptScrollClick [button]]) (Sleep 2))
        as [e|[]] eqn:Es.
      * destruct e;
          try (exists [ExecuteScript ScriptScrollClick [button]; Sleep 2];
               rewrite <- app_assoc; split; [reflexivity | cbn; lia]).
        destruct remaining as [|remaining'].
        { exists [ExecuteScript ScriptScrollClick [button]; Sleep 2].
          rewrite <- app_assoc. split; [reflexivity | cbn; lia]. }
        unfold bind, do.
        destruct (w ((t ++ [ExecuteScript ScriptScrollClick [button]]) ++ [Sleep 2])
                    (Sleep 2)) as [e|[]].
        { exists [ExecuteScript ScriptScrollClick [button]; Sleep 2; Sleep 2].
          rewrite <- !app_assoc. split; [reflexivity | cbn; lia]. }
        destruct (IH w (((t ++ [ExecuteScript ScriptScrollClick [button]])
                           ++ [Sleep 2]) ++ [Sleep 2])) as (d & Hd & Hn).
        exists ([ExecuteScript ScriptScrollClick [button]; Sleep 2; Sleep 2] ++ d).
        rewrite Hd, <- !app_assoc. split; [reflexivity|].
        rewrite dropdown_clicks_app. cbn. cbn in Hn. lia.
      * exists [ExecuteScript ScriptScrollClick [button]; Sleep 2].
        rewrite <- app_assoc. split; [reflexivity | cbn; lia].
Qed.

(** X10. The dropdown is clicked at most as often as attempts are allowed
    (three in the pipeline). A click that is intercepted is tried again
    after two seconds, and the third interception is raised; any other
    error of a click is raised at once, without another click. *)
Theorem click_dropdown_retries
    (button : handle) (w : env) (t : trace) :
  (forall attempts,
     exists d, (click_dropdown attempts button w t).1 = t ++ d /\
               (dropdown_clicks d <= attempts)%nat) /\
  ((forall t', w t' (ExecuteScript ScriptScrollClick [button])
               = inl ElementClickInterceptedException) ->
   (forall t', w t' (Sleep 2) = inr tt) ->
   click_dropdown 3 button w t
   = (t ++ [ ExecuteScript ScriptScrollClick [button]; Sleep 2;
             ExecuteScript ScriptScrollClick [button]; Sleep 2;
             ExecuteScript ScriptScrollClick [button] ],
      Exc ElementClickInterceptedException)) /\
  (forall attempts e,
     w t (ExecuteScript ScriptScrollClick [button]) = inl e ->
     e <> ElementClickInterceptedException ->
     click_dropdown (S attempts) button w t
     = (t ++ [ExecuteScript ScriptScrollClick [button]], Exc e)).
Proof.
  split; [|split].
  - intros attempts. apply click_dropdown_clicks.
  - intros Hclick Hsleep.
    assert (Hagain : forall n t',
              click_dropdown (S (S n)) button w t'
              = click_dropdown (S n) button w
                  (t' ++ [ExecuteScript ScriptScrollClick [button]; Sleep 2])).
    { intros n t'.
      change (click_dropdown (S (S n)) button)
        with (try_except
                (do (ExecuteScript ScriptScrollClick [button]);; do (Sleep 2))
                (fun e =>
                   match e with
                   | ElementClickInterceptedException =>
                       do (Sleep 2);; click_dropdown (S n) button
                   | _ => raise e
                   end)).
      unfold try_except at 1. unfold bind at 1. unfold do at 1.
      rewrite Hclick. rewrite (bind_do_ok _ _ _ _ _ (Hsleep _)).
      rewrite <- app_assoc. reflexivity. }
    assert (Hlast : forall t',
              click_dropdown 1 button w t'
              = (t' ++ [ExecuteScript ScriptScrollClick [button]],
                 Exc ElementClickInterceptedException)).
    { intros t'. cbn [click_dropdown].
      unfold try_except, bind. unfold do at 1. rewrite Hclick. reflexivity. }
    rewrite !Hagain, Hlast, <- !app_assoc. reflexivity.
  - intros attempts e He Hne. cbn [click_dropdown].
    unfold try_except, bind, do. rewrite He.
    destruct e; try reflexivity. destruct (Hne eq_refl).
Qed.

Lemma click_dropdown_retries_witness :
  click_dropdown 3 5%nat overlay_page []
  = ([ ExecuteScript ScriptScrollClick [5%nat]; Sleep 2;
       ExecuteScript ScriptScrollClick [5%nat]; Sleep 2;
       ExecuteScript ScriptScrollClick [5%nat] ],
     Exc ElementClickInterceptedException).
Proof.
  refine (proj1 (proj2 (click_dropdown_retries 5%nat overlay_page [])) _ _);
    intros t'; reflexivity.
Defined.

(** ** Batch run: what a history line does to the next run *)

Lemma conts_app (n : nat) (s x : string) (acc : N) :
  Unicode.conts n s = true ->
  (n <= String.length s)%nat /\
  Unicode.conts n (String.append s x) = true /\
  Unicode.payload n acc (String.append s x) = Unicode.payload n acc s.
Proof.
  revert s acc. induction n as [|n IH]; intros s acc H.
  - repeat split. cbn. lia.
  - destruct s as [|c s]; [discriminate|].
    cbn [Unicode.conts] in H. apply andb_true_iff in H as [Hc Hs].
    destruct (IH s (acc * 64 + (Unicode.byte c - 128))%N Hs) as (Hn & Hconts & Hpay).
    change (String.append (String c s) x) with (String c (String.append s x)).
    cbn [Unicode.conts Unicode.payload String.length].
    rewrite Hc, Hconts, Hpay. repeat split. lia.
Qed.

Lemma conts_blank (n : nat) (s x : string) :
  Unicode.conts n (String.append s (String " " x)) = true ->
  Unicode.conts n s = true.
Proof.
  revert s. induction n as [|n IH]; intros s H; [reflexivity|].
  destruct s as [|c s]; [discriminate|].
  change (String.append (String c s) (String " " x))
    with (String c (String.append s (String " " x))) in H.
  cbn [Unicode.conts] in *. apply andb_true_iff in H as [Hc Hs].
  rewrite Hc, (IH s Hs). reflexivity.
Qed.

Lemma is_space_stray (b : N) : Str.is_space (Unicode.stray b) = false.
Proof.
  unfold Str.is_space, Unicode.stray.
  repeat (apply orb_false_intro);
    try (apply andb_false_iff; right; apply N.leb_gt; lia);
    apply N.eqb_neq; lia.
Qed.

(** White space at the front stays white space when text is added. *)
Lemma space_front_app (c : ascii) (s x : string) (more : nat) :
  Str.space_front c s = Some more ->
  (more <= String.length s)%nat /\
  Str.space_front c (String.append s x) = Some more.
Proof.
  unfold Str.space_front, Unicode.front.
  destruct (Unicode.byte c <? 128)%N.
  { destruct (Str.is_space (Unicode.byte c)); [|discriminate].
    intros [= <-]. split; [lia | reflexivity]. }
  cbv zeta.
  destruct (Unicode.conts (Unicode.width (Unicode.byte c)) s) eqn:E.
  - destruct (conts_app _ s x
                (Unicode.lead_bits (Unicode.width (Unicode.byte c)) (Unicode.byte c)) E)
      as (Hn & -> & ->).
    destruct (Unicode.in_range _ _); cbn [andb].
    + destruct (Str.is_space _); [|discriminate].
      intros [= <-]. split; [exact Hn | reflexivity].
    + rewrite is_space_stray. discriminate.
  - cbn [andb]. rewrite is_space_stray. discriminate.
Qed.

(** No white space begins in front of a blank where none began before. *)
Lemma space_front_blank (c : ascii) (s x : string) :
  Str.space_front c s = None ->
  Str.space_front c (String.append s (String " " x)) = None.
Proof.
  unfold Str.space_front, Unicode.front.
  destruct (Unicode.byte c <? 128)%N; [exact id|].
  cbv zeta.
  destruct (Unicode.conts (Unicode.width (Unicode.byte c))
              (String.append s (String " " x))) eqn:E.
  - pose proof (conts_blank _ _ _ E) as E'.
    destruct (conts_app _ s (String " " x)
                (Unicode.lead_bits (Unicode.width (Unicode.byte c)) (Unicode.byte c)) E')
      as (_ & _ & ->).
    rewrite E'. exact id.
  - intros _. cbn [andb]. rewrite is_space_stray. reflexivity.
Qed.

Lemma drop_app (n : nat) (s x : string) :
  (n <= String.length s)%nat ->
  Str.drop n (String.append s x) = String.append (Str.drop n s) x.
Proof.
  revert s. induction n as [|n IH]; intros s H.
  - destruct s; reflexivity.
  - destruct s as [|c s]; [cbn in H; lia|].
    cbn [String.length] in H. apply (IH s). lia.
Qed.

Lemma drop_length (n : nat) (s : string) :
  (String.length (Str.drop n s) <= String.length s)%nat.
Proof.
  revert s. induction n as [|n IH]; intros s.
  - destruct s; cbn; lia.
  - destruct s as [|c s]; [cbn; lia|].
    cbn [Str.drop String.length]. specialize (IH s). lia.
Qed.

Lemma lstrip_go_drop (skip : nat) (s : string) :
  Str.lstrip_go skip s = Str.lstrip (Str.drop skip s).
Proof.
  revert skip. induction s as [|c s IH]; intros skip.
  - destruct skip; reflexivity.
  - destruct skip as [|k]; [reflexivity|].
    cbn [Str.lstrip_go Str.drop]. apply IH.
Qed.

(** [lstrip] drops the white space at the front and goes on. *)
Lemma lstrip_cons (c : ascii) (s : string) :
  Str.lstrip (String c s)
  = match Str.space_front c s with
    | Some more => Str.lstrip (Str.drop more s)
    | None => String c s
    end.
Proof.
  unfold Str.lstrip at 1. cbn [Str.lstrip_go].
  destruct (Str.space_front c s); [apply lstrip_go_drop | reflexivity].
Qed.

Lemma lstrip_head (s : string) :
  Str.lstrip s = "" \/
  exists c r, Str.lstrip s = String c r /\ Str.space_front c r = None.
Proof.
  remember (String.length s) as n eqn:Hn.
  revert s Hn. induction n as [n IH] using lt_wf_ind. intros s ->.
  destruct s as [|c s]; [left; reflexivity|].
  rewrite lstrip_cons. destruct (Str.space_front c s) as [more|] eqn:E.
  - apply (IH (String.length (Str.drop more s))); [|reflexivity].
    pose proof (drop_length more s). cbn [String.length]. lia.
  - right. exists c, s. split; [reflexivity | exact E].
Qed.

(** A string of white space in front of a text is stripped with it. *)
Lemma lstrip_app (a b : string) :
  Str.lstrip a = "" -> Str.lstrip (String.append a b) = Str.lstrip b.
Proof.
  remember (String.length a) as n eqn:Hn.
  revert a Hn. induction n as [n IH] using lt_wf_ind. intros a -> H.
  destruct a as [|c a]; [reflexivity|].
  rewrite lstrip_cons in H.
  change (String.append (String c a) b) with (String c (String.append a b)).
  rewrite lstrip_cons.
  destruct (Str.space_front c a) as [more|] eqn:E; [|discriminate].
  destruct (space_front_app c a b more E) as [Hmore ->].
  rewrite (drop_app _ _ _ Hmore).
  apply (IH (String.length (Str.drop more a))); [|reflexivity | exact H].
  pose proof (drop_length more a). cbn [String.length]. lia.
Qed.

(** What [rstrip] drops is white space. *)
Lemma rstrip_split (s : string) :
  exists tail, s = String.append (Str.rstrip s) tail /\ Str.lstrip tail = "".
Proof.
  induction s as [|c s (tail & Hs & Htail)]; [exists ""; split; reflexivity|].
  cbn [Str.rstrip]. destruct (String.eqb (Str.lstrip (String c s)) "") eqn:E.
  - apply String.eqb_eq in E. exists (String c s). split; [reflexivity | exact E].
  - exists tail. split; [|exact Htail].
    change (String.append (String c (Str.rstrip s)) tail)
      with (String c (String.append (Str.rstrip s) tail)).
    rewrite <- Hs. reflexivity.
Qed.

Lemma rstrip_idempotent (s : string) : Str.rstrip (Str.rstrip s) = Str.rstrip s.
Proof.
  induction s as [|c s IH]; [reflexivity|].
  cbn [Str.rstrip]. destruct (String.eqb (Str.lstrip (String c s)) "") eqn:E;
    [reflexivity|].
  cbn [Str.rstrip]. rewrite IH.
  destruct (String.eqb (Str.lstrip (String c (Str.rstrip s))) "") eqn:E';
    [|reflexivity].
  exfalso. apply String.eqb_eq in E'. apply String.eqb_neq in E. apply E.
  destruct (rstrip_split s) as (tail & Hs & Htail).
  rewrite Hs at 1.
  change (String c (String.append (Str.rstrip s) tail))
    with (String.append (String c (Str.rstrip s)) tail).
  rewrite (lstrip_app _ _ E'). exact Htail.
Qed.

Lemma rstrip_keeps_head (c : ascii) (s : string) :
  Str.space_front c s = None ->
  exists r, Str.rstrip (String c s) = String c r /\ Str.space_front c r = None.
Proof.
  intros Hc. cbn [Str.rstrip]. rewrite lstrip_cons, Hc. cbn [String.eqb].
  exists (Str.rstrip s). split; [reflexivity|].
  destruct (Str.space_front c (Str.rstrip s)) as [more|] eqn:E; [|reflexivity].
  destruct (rstrip_split s) as (tail & Hs & _).
  destruct (space_front_app c _ tail more E) as [_ H].
  rewrite <- Hs, Hc in H. discriminate.
Qed.

(** Stripping twice is stripping once. *)
Lemma strip_idempotent (s : string) : Str.strip (Str.strip s) = Str.strip s.
Proof.
  unfold Str.strip.
  destruct (lstrip_head s) as [->|(c & r & -> & Hc)]; [reflexivity|].
  destruct (rstrip_keeps_head c r Hc) as (r' & Hr & Hc').
  assert (Hl : Str.lstrip (Str.rstrip (String c r)) = Str.rstrip (String c r)).
  { rewrite Hr, lstrip_cons, Hc'. reflexivity. }
  rewrite Hl. apply rstrip_idempotent.
Qed.

Lemma prefix_separator_no_bar (c : ascii) (title rest : string) :
  Str.has_char "|" (String c title) = false ->
  String.prefix " | " (String c (String.append title (String.append " | " rest)))
  = false.
Proof.
  cbn [Str.has_char]. intros H. apply orb_false_iff in H as [_ Ht].
  cbn [String.prefix]. destruct (ascii_dec " " c) as [_|]; [|reflexivity].
  destruct title as [|d title'].
  - cbn. destruct (ascii_dec "|" " "); [discriminate | reflexivity].
  - cbn [Str.has_char] in Ht. apply orb_false_iff in Ht as [Hd _].
    change (String.append (String d title') (String.append " | " rest))
      with (String d (String.append title' (String.append " | " rest))).
    cbn [String.prefix].
    destruct (ascii_dec "|" d) as [<-|]; [|reflexivity].
    rewrite Ascii.eqb_refl in Hd. discriminate.
Qed.

Lemma prefix_separator_here (rest : string) :
  String.prefix " | " (String " " (String "|" (String " " rest))) = true.
Proof.
  cbn. destruct (ascii_dec " " " "); [|congruence].
  destruct (ascii_dec "|" "|"); [|congruence]. apply prefix_empty.
Qed.

(** A text without a bar in front of the separator is the first piece. *)
Lemma split_first_piece (title rest : string) :
  Str.has_char "|" title = false ->
  Str.split " | " (String.append title (String.append " | " rest))
  = title :: Str.split " | " rest.
Proof.
  intros H. unfold Str.split.
  assert (G : Str.split_go " | " 0 (String.append title (String.append " | " rest))
              = (title, let '(p, ps) := Str.split_go " | " 0 rest in p :: ps)).
  { induction title as [|c title IH].
    - change (String.append "" (String.append " | " rest))
        with (String " " (String "|" (String " " rest))).
      cbn [Str.split_go].
      rewrite prefix_separator_here. cbn [String.length Nat.sub].
      destruct (Str.split_go " | " 0 rest) as [p ps]. reflexivity.
    - change (String.append (String c title) (String.append " | " rest))
        with (String c (String.append title (String.append " | " rest))).
      cbn [Str.split_go]. rewrite (prefix_separator_no_bar c title rest H).
      cbn [Str.has_char] in H. apply orb_false_iff in H as [_ H].
      rewrite (IH H). reflexivity. }
  rewrite G. reflexivity.
Qed.

Lemma contains_separator (title rest : string) :
  Str.contains " | " (String.append title (String.append " | " rest)) = true.
Proof.
  induction title as [|c title IH].
  - change (String.append "" (String.append " | " rest))
      with (String " " (String "|" (String " " rest))).
    cbn [Str.contains]. rewrite prefix_separator_here. reflexivity.
  - change (String.append (String c title) (String.append " | " rest))
      with (String c (String.append title (String.append " | " rest))).
    cbn [Str.contains]. rewrite IH. apply orb_true_r.
Qed.

(** X11. The history closes the loop: once the line of a processed target
    is in the history file, whatever link it records, the next batch run
    skips that target without a single call, provided the stripped title
    has no bar character (a title that ends in a blank and a bar would be
    cut short when the line is read back). *)
Theorem history_line_skips_target
    (fuel : nat) (history_lines : list string) (title_bound : bool)
    (content line title url working_link : string) (w : env) (t : trace)
    (Hline : Str.split " | " line = [title; url])
    (Hbar : Str.has_char "|" (Str.strip title) = false)
    (Hin : In (history_line (Str.strip title) working_link) history_lines) :
  Str.lower (Str.strip title) ∈ load_history history_lines /\
  process_movie fuel (load_history history_lines) title_bound content line w t
    = (t, Ok content).
Proof.
  assert (Hmem : Str.lower (Str.strip title) ∈ load_history history_lines).
  { apply load_history_elem.
    exists (history_line (Str.strip title) working_link).
    split; [exact Hin|].
    change (history_line (Str.strip title) working_link)
      with (String.append (Str.strip title)
              (String.append " | " (String.append working_link newline))).
    split; [apply contains_separator|].
    rewrite (split_first_piece _ _ Hbar). cbn [List.hd].
    rewrite strip_idempotent. reflexivity. }
  split; [exact Hmem|].
  unfold process_movie. rewrite Hline.
  rewrite bool_decide_eq_true_2 by exact Hmem. reflexivity.
Qed.

Lemma history_line_skips_target_witness :
  process_movie 40
    (load_history [history_line "Movie X" "https://cdn.example/x/index.m3u8"])
    false "<Content>" "  Movie X  | https://cuevana.example/movie-x"
    working_player []
  = ([], Ok "<Content>").
Proof.
  refine (proj2 (history_line_skips_target 40
                   [history_line "Movie X" "https://cdn.example/x/index.m3u8"]
                   false "<Content>" "  Movie X  | https://cuevana.example/movie-x"
                   "  Movie X " "https://cuevana.example/movie-x"
                   "https://cdn.example/x/index.m3u8" working_player [] _ _ _)).
  - reflexivity.
  - reflexivity.
  - left. reflexivity.
Defined.

(** ** Batch run: what one turn may do *)

Section SessionCalls.
Let Q : call -> Prop := session_call.

Lemma texts_session_call (elements : list handle) : adds Q (texts elements).
Proof. induction elements as [|a rest IH]; cbn [texts]; adds_auto. Qed.

Lemma try_options_session_call (options : list (string * string)) :
  adds Q (try_options options).
Proof.
  induction options as [|[xpath quality] rest IH]; cbn [try_options]; adds_auto.
  unfold try_option, wait_for_element. adds_auto.
Qed.

Lemma click_dropdown_session_call (attempts : nat) (button : handle) :
  adds Q (click_dropdown attempts button).
Proof. induction attempts as [|remaining IH]; cbn [click_dropdown]; adds_auto. Qed.

Lemma poll_loop_session_call (fuel : nat) (player_url : string) (start_time : Z) :
  adds Q (poll_loop fuel player_url start_time).
Proof. induction fuel as [|fuel IH]; cbn [poll_loop]; adds_auto. Qed.

Lemma scan_iframes_session_call (fuel : nat) (iframes : list handle) :
  adds Q (scan_iframes fuel iframes).
Proof.
  induction iframes as [|iframe rest IH]; cbn [scan_iframes];
    unfold handle_voe_iframe, handle_player_iframe, alternative_click,
      wait_for_redirect;
    adds_auto; apply poll_loop_session_call.
Qed.

Lemma first_waaw_src_session_call (iframes : list handle) :
  adds Q (first_waaw_src iframes).
Proof. induction iframes as [|iframe rest IH]; cbn [first_waaw_src]; adds_auto. Qed.

Lemma scan_frame_logs_session_call (iframes : list handle) :
  forall s, adds Q (scan_frame_logs s iframes).
Proof.
  induction iframes as [|iframe rest IH]; intros s; cbn [scan_frame_logs];
    unfold scan_frame; adds_auto. apply IH.
Qed.

Lemma harvester_session_call (is_netu : bool) : adds Q (find_m3u8_links is_netu).
Proof.
  unfold find_m3u8_links, get_waaw_link. adds_auto;
    first [apply first_waaw_src_session_call | apply scan_frame_logs_session_call].
Qed.

Lemma ask_user_session_call (fuel : nat) : adds Q (ask_user fuel).
Proof. induction fuel as [|fuel IH]; cbn [ask_user]; adds_auto. Qed.

Lemma play_links_session_call fuel auto_test (links : list string) :
  adds Q (play_links fuel auto_test links).
Proof.
  induction links as [|link rest IH]; cbn [play_links];
    unfold play_link, locate_vlc; cbn [first_existing_path]; adds_auto;
    apply ask_user_session_call.
Qed.

Lemma verifier_session_call fuel (links : list string) auto_test :
  adds Q (try_play_in_vlc fuel links auto_test).
Proof. unfold try_play_in_vlc. adds_auto. apply play_links_session_call. Qed.

Lemma working_link_of_session_call fuel (links : list string) :
  adds Q (working_link_of fuel links).
Proof.
  induction links as [|link rest IH]; cbn [working_link_of]; adds_auto.
  apply verifier_session_call.
Qed.

Lemma first_working_link_session_call fuel (links : list string) :
  adds Q (first_working_link fuel links).
Proof.
  induction links as [|link rest IH]; cbn [first_working_link]; adds_auto.
  apply verifier_session_call.
Qed.
End SessionCalls.

Lemma session_call_body_call (content title : string) (c : call) :
  session_call c -> body_call content title c.
Proof. destruct c; cbn; tauto. Qed.

Lemma body_call_turn_call (content title : string) (c : call) :
  body_call content title c -> turn_call content title c.
Proof. destruct c; cbn; tauto. Qed.

(** Inside its session a turn works on the page and the player, and the
    only files it touches are the manifest and the history, in the shape of
    [body_call]. *)
Lemma session_body_calls fuel (content title url : string) :
  adds (body_call content title) (session_body fuel content title url).
Proof.
  assert (Hin : forall A (p : M A), adds session_call p ->
                                    adds (body_call content title) p).
  { intros A p. apply adds_weaken. apply session_call_body_call. }
  unfold session_body, get_movie_details, wait_for_element,
    find_and_click_video_option, check_and_handle_iframe, format_roku_xml.
  cbv zeta.
  repeat first
    [ adds_step
    | apply Hin;
      first [ apply texts_session_call
            | apply click_dropdown_session_call
            | apply try_options_session_call
            | apply scan_iframes_session_call
            | apply harvester_session_call
            | apply working_link_of_session_call
            | apply first_working_link_session_call ]
    | apply adds_do; split; [reflexivity | eexists; reflexivity] ].
Qed.

Section Returns.
Context {A : Type} (P : A -> Prop).

Lemma returns_ret (a : A) : P a -> returns P (ret a).
Proof. intros H w t t' a' [= _ <-]. exact H. Qed.

Lemma returns_raise (e : exn) : returns P (@raise A e).
Proof. intros w t t' a. discriminate. Qed.

Lemma returns_try_except (body : M A) (handler : exn -> M A) :
  returns P body -> (forall e, returns P (handler e)) ->
  returns P (try_except body handler).
Proof.
  intros Hb Hh w t t' a. unfold try_except.
  destruct (body w t) as [t1 [a1|e|]] eqn:E.
  - intros [= <- <-]. eapply Hb. exact E.
  - apply Hh.
  - discriminate.
Qed.
End Returns.

Lemma returns_bind {A B} (P : B -> Prop) (m : M A) (k : A -> M B) :
  (forall a, returns P (k a)) -> returns P (bind m k).
Proof.
  intros Hk w t t' b. unfold bind.
  destruct (m w t) as [t1 [a|e|]]; [apply Hk | discriminate | discriminate].
Qed.

Lemma returns_bind_with {A B} (Q : A -> Prop) (P : B -> Prop)
    (m : M A) (k : A -> M B) :
  returns Q m -> (forall a, Q a -> returns P (k a)) -> returns P (bind m k).
Proof.
  intros Hm Hk w t t' b. unfold bind.
  destruct (m w t) as [t1 [a|e|]] eqn:E; [|discriminate|discriminate].
  apply Hk. eapply Hm. exact E.
Qed.

Ltac returns_step :=
  match goal with
  | |- returns _ (bind _ _) => apply returns_bind; intros ?
  | |- returns _ (try_except _ _) => apply returns_try_except; [| intros ?]
  | |- returns _ (raise _) => apply returns_raise
  | |- returns _ (ret _) =>
      apply returns_ret; first [left; reflexivity | right; eexists; reflexivity]
  | |- returns _ (if ?b then _ else _) => destruct b
  | |- returns _ (match ?x with _ => _ end) => destruct x
  end.

(** The manifest text a session hands on is the text it was given, or that
    text with one entry added. *)
Lemma session_body_returns fuel (content title url : string) :
  returns (fun content' =>
             content' = content \/
             exists roku_xml, content' = with_entry content roku_xml)
          (session_body fuel content title url).
Proof. unfold session_body. repeat returns_step. Qed.

Lemma process_movie_calls
    (fuel : nat) (processed_movies : gset string) (title_bound : bool)
    (content line title url : string) :
  Str.split " | " line = [title; url] ->
  adds (turn_call content (Str.strip title))
    (process_movie fuel processed_movies title_bound content line).
Proof.
  intros Hline. unfold process_movie. rewrite Hline. adds_auto.
  eapply adds_weaken; [|apply session_body_calls].
  apply body_call_turn_call.
Qed.

Lemma process_movie_returns
    (fuel : nat) (processed_movies : gset string) (title_bound : bool)
    (content line : string) :
  returns (fun content' =>
             content' = content \/
             exists roku_xml, content' = with_entry content roku_xml)
    (process_movie fuel processed_movies title_bound content line).
Proof.
  unfold process_movie.
  destruct (Str.split " | " line) as [|title [|url [|]]];
    try (destruct title_bound;
         [apply returns_ret; left; reflexivity | apply returns_raise]).
  cbv zeta.
  destruct (bool_decide _); [apply returns_ret; left; reflexivity|].
  apply returns_try_except; [|intros ?; apply returns_ret; left; reflexivity].
  do 4 (apply returns_bind; intros ?).
  eapply returns_bind_with.
  - apply returns_try_except; [apply session_body_returns|].
    intros ?. apply returns_ret. left. reflexivity.
  - intros content' Hcontent'. apply returns_bind. intros ?.
    apply returns_ret. exact Hcontent'.
Qed.

(** X12. One turn of the batch loop touches no file but the manifest and
    the history, and only by appending: besides opening and closing its
    session and working on the page and the player, it at most rewrites the
    manifest as the text it was given, one new entry and the closing tag,
    and appends a line of the target's own title to the history; the text it
    hands to the next turn is the text it was given or that text with the
    one entry added. *)
Theorem batch_turn_only_appends
    (fuel : nat) (processed_movies : gset string) (title_bound : bool)
    (content line title url : string) (w : env) (t : trace)
    (Hline : Str.split " | " line = [title; url]) :
  exists d,
    (process_movie fuel processed_movies title_bound content line w t).1 = t ++ d /\
    Forall (turn_call content (Str.strip title)) d /\
    forall content',
      (process_movie fuel processed_movies title_bound content line w t).2
        = Ok content' ->
      content' = content \/
      exists roku_xml, content' = with_entry content roku_xml.
Proof.
  destruct (process_movie_calls fuel processed_movies title_bound content
              line title url Hline w t) as (d & Hd & Hf).
  exists d. split; [exact Hd|]. split; [exact Hf|].
  intros content' H.
  destruct (process_movie fuel processed_movies title_bound content line w t)
    as [t' r] eqn:E.
  cbn in H. subst r. eapply process_movie_returns. exact E.
Qed.

Lemma batch_turn_only_appends_witness :
  Str.split " | " "Movie X | https://cuevana.example/movie-x"
    = ["Movie X"; "https://cuevana.example/movie-x"] /\
  exists d,
    (process_movie 5 ∅ false "<Content>"
       "Movie X | https://cuevana.example/movie-x" working_site []).1 = [] ++ d /\
    Forall (turn_call "<Content>" (Str.strip "Movie X")) d /\
    forall content',
      (process_movie 5 ∅ false "<Content>"
         "Movie X | https://cuevana.example/movie-x" working_site []).2
        = Ok content' ->
      content' = "<Content>" \/
      exists roku_xml, content' = with_entry "<Content>" roku_xml.
Proof.
  split; [reflexivity|].
  apply (batch_turn_only_appends 5 ∅ false "<Content>"
           "Movie X | https://cuevana.example/movie-x"
           "Movie X" "https://cuevana.example/movie-x" working_site []).
  reflexivity.
Defined.


(** ** The browser session of a turn *)

Lemma bind_do_exc {A} (c : call) (k : resp c -> M A) (w : env) (t : trace) e :
  w t c = inl e -> bind (do c) k w t = (t ++ [c], Exc e).
Proof. intros H. unfold bind, do. rewrite H. reflexivity. Qed.

(** The [try ... finally: driver.quit()] of a session: whatever the body
    did, [Quit] is the next call and the turn goes on. *)
Lemma session_finally (body : M string) (content : string)
    (w : env) (t t' : trace) (r : result string) :
  body w t = (t', r) -> r <> OutOfFuel ->
  bind (try_except body (fun _ => ret content))
    (fun content' =>
       bind (try_except (do Quit) (fun _ => ret tt)) (fun _ => ret content')) w t
  = (t' ++ [Quit], Ok (match r with Ok content' => content' | _ => content end)).
Proof.
  intros H Hr. unfold bind, try_except, do, ret. rewrite H.
  destruct r as [a|e|]; [| |destruct (Hr eq_refl)];
    destruct (w t' Quit); reflexivity.
Qed.

(** X13. Once the browser of a turn is set up, it is closed: for a target
    that is not in the history, when the start of the browser and the three
    set-up calls are answered, the turn consists of the set-up, the work on
    the page, and [quit] as its last call, whatever failed in between, and
    the turn ends normally, as long as no loop of the page work exhausts
    its bound. (The page work opens or closes no browser.) *)
Theorem session_closed_after_setup
    (fuel : nat) (processed_movies : gset string) (title_bound : bool)
    (content line title url : string) (w : env) (t : trace)
    (Hline : Str.split " | " line = [title; url])
    (Hnew : Str.lower (Str.strip title) ∉ processed_movies)
    (Hsetup : answered w t session_setup)
    (Hfuel : (process_movie fuel processed_movies title_bound content line w t).2
             <> OutOfFuel) :
  exists d content',
    process_movie fuel processed_movies title_bound content line w t
      = (t ++ session_setup ++ d ++ [Quit], Ok content') /\
    Forall (body_call content (Str.strip title)) d.
Proof.
  unfold process_movie in *. rewrite Hline in *. cbv zeta in *.
  rewrite (bool_decide_eq_false_2 _ Hnew) in *.
  destruct Hsetup as ((v1 & H1) & (v2 & H2) & (v3 & H3) & (v4 & H4) & _).
  destruct (session_body_calls fuel content (Str.strip title) (Str.strip url) w
              ((((t ++ [ChromeStart]) ++ [SetPageLoadTimeout 60])
                  ++ [ExecuteCdpCmd "Network.setUserAgentOverride"])
                 ++ [ExecuteCdpCmd "Page.addScriptToEvaluateOnNewDocument"]))
    as (d & Hd & Hf).
  destruct (session_body fuel content (Str.strip title) (Str.strip url) w _)
    as [t' r] eqn:E.
  cbn [fst] in Hd. subst t'.
  assert (Hr : r <> OutOfFuel).
  { intros ->. apply Hfuel. unfold try_except at 1.
    rewrite (bind_do_ok _ _ _ _ _ H1), (bind_do_ok _ _ _ _ _ H2),
      (bind_do_ok _ _ _ _ _ H3), (bind_do_ok _ _ _ _ _ H4).
    unfold bind at 1. unfold try_except at 1. rewrite E. reflexivity. }
  exists d. eexists. split; [|exact Hf].
  apply try_except_ok.
  rewrite (bind_do_ok _ _ _ _ _ H1), (bind_do_ok _ _ _ _ _ H2),
    (bind_do_ok _ _ _ _ _ H3), (bind_do_ok _ _ _ _ _ H4).
  rewrite (session_finally _ _ _ _ _ _ E Hr).
  unfold session_setup. rewrite <- !app_assoc. reflexivity.
Qed.

Lemma session_closed_after_setup_witness :
  exists d content',
    process_movie 5 ∅ false "<Content>"
      "Movie X | https://cuevana.example/movie-x" working_site []
      = ([] ++ session_setup ++ d ++ [Quit], Ok content') /\
    Forall (body_call "<Content>" (Str.strip "Movie X")) d.
Proof.
  apply (session_closed_after_setup 5 ∅ false "<Content>"
           "Movie X | https://cuevana.example/movie-x"
           "Movie X" "https://cuevana.example/movie-x" working_site []).
  - reflexivity.
  - apply not_elem_of_empty.
  - cbn. repeat split; eexists; reflexivity.
  - vm_compute. discriminate.
Defined.

(** X14. A failure while the browser is being set up ends the turn on the
    spot: when a call of the set-up raises, it is the last call of the turn,
    the manifest text is handed on unchanged, and no [quit] is issued. So
    when the failing call is not the start itself, the browser that was
    started is left running. *)
Theorem setup_failure_leaves_browser
    (fuel : nat) (processed_movies : gset string) (title_bound : bool)
    (content line title url : string) (w : env) (t : trace)
    (before after : list call) (c : call) (e : exn)
    (Hline : Str.split " | " line = [title; url])
    (Hnew : Str.lower (Str.strip title) ∉ processed_movies)
    (Hsplit : session_setup = before ++ c :: after)
    (Hbefore : answered w t before)
    (Hfail : w (t ++ before) c = inl e) :
  process_movie fuel processed_movies title_bound content line w t
    = (t ++ before ++ [c], Ok content).
Proof.
  unfold process_movie. rewrite Hline. cbv zeta.
  rewrite (bool_decide_eq_false_2 _ Hnew).
  unfold try_except at 1.
  destruct before as [|c1 [|c2 [|c3 [|c4 before]]]];
    cbn in Hsplit; injection Hsplit as; subst; cbn [answered] in Hbefore.
  - rewrite app_nil_r in Hfail.
    rewrite (bind_do_exc _ _ _ _ _ Hfail). reflexivity.
  - destruct Hbefore as ((v1 & H1) & _).
    rewrite (bind_do_ok _ _ _ _ _ H1), (bind_do_exc _ _ _ _ _ Hfail).
    unfold ret. rewrite <- app_assoc. reflexivity.
  - destruct Hbefore as ((v1 & H1) & (v2 & H2) & _).
    rewrite (bind_do_ok _ _ _ _ _ H1), (bind_do_ok _ _ _ _ _ H2).
    rewrite <- app_assoc. cbn [app].
    rewrite (bind_do_exc _ _ _ _ _ Hfail).
    unfold ret. rewrite <- app_assoc. reflexivity.
  - destruct Hbefore as ((v1 & H1) & (v2 & H2) & (v3 & H3) & _).
    rewrite (bind_do_ok _ _ _ _ _ H1), (bind_do_ok _ _ _ _ _ H2),
      (bind_do_ok _ _ _ _ _ H3).
    rewrite <- !app_assoc. cbn [app].
    rewrite (bind_do_exc _ _ _ _ _ Hfail).
    unfold ret. rewrite <- app_assoc. reflexivity.
  - destruct before; discriminate.
Qed.


Lemma setup_failure_leaves_browser_witness :
  process_movie 5 ∅ false "<Content>"
    "Movie X | https://cuevana.example/movie-x" setup_fails []
  = ([] ++ [ChromeStart] ++ [SetPageLoadTimeout 60], Ok "<Content>").
Proof.
  apply (setup_failure_leaves_browser 5 ∅ false "<Content>"
           "Movie X | https://cuevana.example/movie-x"
           "Movie X" "https://cuevana.example/movie-x" setup_fails []
           [ChromeStart]
           [ExecuteCdpCmd "Network.setUserAgentOverride";
            ExecuteCdpCmd "Page.addScriptToEvaluateOnNewDocument"]
           (SetPageLoadTimeout 60) WebDriverException).
  - reflexivity.
  - apply not_elem_of_empty.
  - reflexivity.
  - split; [exists tt; reflexivity | exact I].
  - reflexivity.
Defined.

(** ** The loop over the targets *)







(** ** The manifest over a whole run of the loop *)

Lemma string_append_nil_r (s : string) : String.append s "" = s.
Proof.
  induction s as [|c s IH]; [reflexivity|].
  change (String c (String.append s "") = String c s). rewrite IH. reflexivity.
Qed.










(** ** The search of the catalog *)

Lemma search_line_some (search_term line title url : string) :
  search_line search_term line = Some (title, url) <->
  Str.split " | " (Str.strip line) = [title; url] /\
  Str.contains (Str.lower search_term) (Str.lower title) = true.
Proof.
  unfold search_line. cbv zeta. split.
  - destruct (String.eqb (Str.strip line) ""); [discriminate|].
    destruct (Str.split " | " (Str.strip line)) as [|a [|b [|]]];
      try discriminate.
    destruct (Str.contains (Str.lower search_term) (Str.lower a)) eqn:E;
      [|discriminate].
    intros [= <- <-]. split; [reflexivity | exact E].
  - intros [Hsplit Hin].
    destruct (String.eqb (Str.strip line) "") eqn:E.
    + apply String.eqb_eq in E. rewrite E in Hsplit. discriminate.
    + rewrite Hsplit, Hin. reflexivity.
Qed.

(** The comparison of the search ignores the case of every letter, not
    only of the unaccented ones. *)
Lemma search_line_case_variant :
  search_line "éxito"
    (String.append "ÉXITO TOTAL | https://cuevana.example/exito" newline)
  = Some ("ÉXITO TOTAL", "https://cuevana.example/exito").
Proof. vm_compute. reflexivity. Qed.

(** X17. The search of the catalog reads the catalog file and nothing else,
    and it always returns. When the file cannot be read the answer is
    [None]. Otherwise the pairs found are exactly the (title, address) pairs
    of the lines that, once stripped, split into two parts at the separator
    and whose title contains the search term, letter case ignored; and when
    there is no such line the answer is [None], never an empty list. *)
Theorem search_movie_by_title_result (search_term : string) (w : env) (t : trace) :
  exists found,
    search_movie_by_title search_term w t
      = (t ++ [ReadLines "movie_links.txt"], Ok found) /\
    match w t (ReadLines "movie_links.txt") with
    | inl _ => found = None
    | inr lines =>
        found <> Some [] /\
        forall title url,
          (title, url) ∈ default [] found <->
          exists line,
            line ∈ (lines : list string) /\
            Str.split " | " (Str.strip line) = [title; url] /\
            Str.contains (Str.lower search_term) (Str.lower title) = true
    end.
Proof.
  unfold search_movie_by_title, try_except, bind, do.
  destruct (w t (ReadLines "movie_links.txt")) as [e|lines]; cbv zeta.
  - exists None. split; reflexivity.
  - assert (Hin : forall title url,
              (title, url) ∈ omap (search_line search_term) lines <->
              exists line,
                line ∈ (lines : list string) /\
                Str.split " | " (Str.strip line) = [title; url] /\
                Str.contains (Str.lower search_term) (Str.lower title) = true).
    { intros title url. rewrite list_elem_of_omap.
      split; intros (line & Hline & H); exists line; (split; [exact Hline|]);
        apply search_line_some; exact H. }
    destruct (decide (omap (search_line search_term) lines = [])) as [E|E].
    + rewrite (bool_decide_eq_true_2 _ E). exists None.
      split; [reflexivity|]. split; [discriminate|].
      intros title url. rewrite <- Hin, E. reflexivity.
    + rewrite (bool_decide_eq_false_2 _ E). exists (Some (omap (search_line search_term) lines)).
      split; [reflexivity|]. split; [congruence|]. exact Hin.
Qed.


(** ** Year and running time of an entry *)

Lemma split_ws_go_word (word rest : string) :
  no_space word = true ->
  rest = "" \/ (exists x, rest = String " " x) ->
  Str.split_ws_go 0 (String.append word rest)
  = (String.append word (Str.split_ws_go 0 rest).1, (Str.split_ws_go 0 rest).2).
Proof.
  intros H Hrest. induction word as [|c word IH].
  - change (String.append "" rest) with rest.
    destruct (Str.split_ws_go 0 rest); reflexivity.
  - cbn [no_space] in H.
    destruct (Str.space_front c word) eqn:E; [discriminate|].
    assert (E' : Str.space_front c (String.append word rest) = None).
    { destruct Hrest as [->|[x ->]].
      - rewrite string_append_nil_r. exact E.
      - apply space_front_blank. exact E. }
    change (String.append (String c word) rest)
      with (String c (String.append word rest)).
    cbn [Str.split_ws_go]. rewrite E', (IH H). reflexivity.
Qed.

Lemma split_ws_go_blank (s : string) :
  Str.split_ws_go 0 (String " " s)
  = (EmptyString,
     match (Str.split_ws_go 0 s).1 with
     | EmptyString => (Str.split_ws_go 0 s).2
     | w => w :: (Str.split_ws_go 0 s).2
     end).
Proof.
  change (Str.split_ws_go 0 (String " " s))
    with (let '(w, ws) := Str.split_ws_go 0 s in
          (EmptyString, match w with EmptyString => ws | _ => w :: ws end)).
  destruct (Str.split_ws_go 0 s) as [[|a w] ws]; reflexivity.
Qed.

Lemma split_ws_go_join (words : list string) :
  Forall (fun word => is_word word = true) words ->
  Str.split_ws_go 0 (Str.join " " words)
  = match words with [] => (EmptyString, []) | word :: rest => (word, rest) end.
Proof.
  induction 1 as [|word rest Hword Hrest IH]; [reflexivity|].
  apply andb_true_iff in Hword as [_ Hword].
  destruct rest as [|next rest].
  - change (Str.join " " [word]) with word.
    rewrite <- (string_append_nil_r word) at 1.
    rewrite (split_ws_go_word _ _ Hword); [|left; reflexivity]. cbn.
    rewrite string_append_nil_r. reflexivity.
  - change (Str.join " " (word :: next :: rest))
      with (String.append word (String " " (Str.join " " (next :: rest)))).
    rewrite (split_ws_go_word _ _ Hword); [|right; eexists; reflexivity].
    rewrite split_ws_go_blank, IH. cbn [fst snd].
    rewrite string_append_nil_r.
    apply Forall_cons in Hrest as [Hnext _].
    apply andb_true_iff in Hnext as [Hnext _].
    destruct next; [discriminate|reflexivity].
Qed.

Lemma split_ws_join (words : list string) :
  Forall (fun word => is_word word = true) words ->
  Str.split_ws (Str.join " " words) = words.
Proof.
  intros H. unfold Str.split_ws. rewrite (split_ws_go_join _ H).
  destruct H as [|word rest Hword _]; [reflexivity|].
  apply andb_true_iff in Hword as [Hword _].
  destruct word; [discriminate|reflexivity].
Qed.

(** X18. The year and the running time of an entry, for an information
    line of words separated by single blanks: the year is the last word, and
    the running time is the words strictly between the first and the last,
    joined by blanks (empty when there are only two words). The first word
    is used for neither. *)
Theorem info_year_and_runtime (first : string) (middle : list string) (year : string)
    (Hwords : Forall (fun word => is_word word = true) (first :: middle ++ [year])) :
  let info_parts := Str.split_ws (Str.join " " (first :: middle ++ [year])) in
  year_of info_parts = year /\
  runtime_of info_parts = Str.join " " middle.
Proof.
  cbv zeta. rewrite (split_ws_join _ Hwords). split.
  - unfold year_of.
    change (first :: middle ++ [year]) with ((first :: middle) ++ [year]).
    apply last_last.
  - unfold runtime_of. cbn [tail length].
    rewrite removelast_last, length_app. cbn [length].
    destruct middle as [|m middle]; [reflexivity|].
    replace (2 <? S (length (m :: middle) + 1))%nat with true; [reflexivity|].
    symmetry. apply Nat.ltb_lt. cbn [length]. lia.
Qed.

Lemma info_year_and_runtime_witness :
  let info_parts := Str.split_ws "Drama 1h 30m 2020" in
  year_of info_parts = "2020" /\ runtime_of info_parts = "1h 30m".
Proof.
  apply (info_year_and_runtime "Drama" ["1h"; "30m"] "2020").
  repeat constructor.
Defined.


(** ** The retry wrapper *)

(** X19. The retry wrapper around a function that fails the same way every
    time it is called. When the failure is a timeout, the function is
    called [retries] times with a pause of [delay] seconds between two
    calls, and then the timeout is raised to the caller: there is no pause
    after the last attempt and no [None]. Any other exception is raised at
    once, after a single call and no pause. *)
Theorem retry_on_timeout_gives_up {A : Type} (retries delay : nat)
    (func : M A) (d : list call) (e : exn) (w : env)
    (Hfunc : forall t, func w t = (t ++ d, Exc e))
    (Hsleep : forall t, w t (Sleep delay) = inr tt) :
  forall t,
    retry_on_timeout (S retries) delay func w t
    = (t ++ d ++ match e with
                 | TimeoutException => concat (repeat (Sleep delay :: d) retries)
                 | _ => []
                 end,
       Exc e).
Proof.
  assert (Hbody : forall t (handler : exn -> M (option A)),
            try_except (a <- func;; ret (Some a)) handler w t
            = handler e w (t ++ d)).
  { intros t handler. unfold try_except, bind. rewrite Hfunc. reflexivity. }
  induction retries as [|retries IH]; intros t.
  - cbn [retry_on_timeout]. rewrite Hbody.
    destruct e; cbn [repeat concat]; rewrite app_nil_r; reflexivity.
  - change (retry_on_timeout (S (S retries)) delay func)
      with (try_except (a <- func;; ret (Some a))
              (fun e => match e with
                 | TimeoutException =>
                     do (Sleep delay);; retry_on_timeout (S retries) delay func
                 | _ => raise e
                 end)).
    rewrite Hbody.
    destruct e; try (rewrite app_nil_r; reflexivity).
    rewrite (bind_do_ok _ _ _ _ _ (Hsleep (t ++ d))), IH.
    cbn [repeat concat]. rewrite <- !app_assoc. reflexivity.
Qed.

Lemma retry_on_timeout_gives_up_witness :
  retry_on_timeout 3 2 (do (Get "https://cuevana.example/movie-x"))
    always_timeout []
  = ([] ++ [Get "https://cuevana.example/movie-x"]
        ++ concat (repeat [Sleep 2; Get "https://cuevana.example/movie-x"] 2),
     Exc TimeoutException).
Proof.
  apply (retry_on_timeout_gives_up 2 2
           (do (Get "https://cuevana.example/movie-x"))
           [Get "https://cuevana.example/movie-x"] TimeoutException
           always_timeout).
  - intros t. reflexivity.
  - intros t. reflexivity.
Defined.


(** ** A batch run that fails *)





(** ** The history follows the manifest *)

Lemma writes_last_quiet {A} (content title : string) (p : M A) :
  adds session_call p -> writes_last content title p.
Proof.
  intros Hp w t. destruct (Hp w t) as (d & Hd & Hf).
  exists d, []. rewrite app_nil_r. repeat split; [exact Hd | exact Hf | left; reflexivity].
Qed.

Lemma writes_last_bind {A B} (content title : string) (m : M A) (k : A -> M B) :
  adds session_call m -> (forall a, writes_last content title (k a)) ->
  writes_last content title (bind m k).
Proof.
  intros Hm Hk w t. unfold bind.
  destruct (Hm w t) as (d & Hd & Hf).
  destruct (m w t) as [t1 [a|e|]]; cbn [fst] in Hd; subst t1;
    try (exists d, []; rewrite app_nil_r;
         repeat split; [exact Hf | left; reflexivity]).
  destruct (Hk a w (t ++ d)) as (before & last & Ht & Hbefore & Hlast).
  exists (d ++ before), last.
  rewrite Ht, !app_assoc. split; [reflexivity|].
  split; [apply Forall_app; split; assumption|].
  exact Hlast.
Qed.

Lemma writes_last_update (content title roku_xml working_link : string) :
  writes_last content title
    (do (WriteFile "RokuChannelList.xml"
           (String.concat "" [content; newline; roku_xml; newline; "</Content>"]));;
     try_except
       (do (AppendFile "MainHistory.txt"
              (String.concat "" [title; " | "; working_link; newline]));;
        ret (String.concat "" [content; newline; roku_xml]))
       (fun _ => ret (String.concat "" [content; newline; roku_xml]))).
Proof.
  intros w t. exists [], (
    match w t (manifest_write content roku_xml) with
    | inl _ => [manifest_write content roku_xml]
    | inr _ => [manifest_write content roku_xml;
                AppendFile "MainHistory.txt" (history_line title working_link)]
    end).
  rewrite app_nil_r. cbn [app].
  split; [|split; [constructor|]].
  - unfold bind, try_except, do, ret. fold (manifest_write content roku_xml).
    destruct (w t (manifest_write content roku_xml)) as [e|v]; [reflexivity|].
    fold (history_line title working_link).
    destruct (w _ (AppendFile _ _)); cbn [fst]; rewrite <- app_assoc; reflexivity.
  - right. exists roku_xml.
    destruct (w t (manifest_write content roku_xml)) as [e|[]] eqn:E.
    + left. split; [reflexivity | exists e; reflexivity].
    + right. split; [exists working_link; reflexivity | reflexivity].
Qed.

(** X21. A target gets into the history only after its entry got into the
    manifest. In the page work of a turn no file is written before the very
    end; there, either nothing is written, or the manifest is written and
    the write fails, or the manifest is written successfully and the line
    of the target is appended to the history right after it. So the history
    is never appended without a successful write of the manifest just
    before, and at most once in a turn. *)
Theorem history_follows_manifest
    (fuel : nat) (content title url : string) (w : env) (t : trace) :
  exists before last,
    (session_body fuel content title url w t).1 = t ++ before ++ last /\
    Forall session_call before /\
    (last = [] \/
     exists roku_xml,
       (last = [manifest_write content roku_xml] /\
        exists e, w (t ++ before) (manifest_write content roku_xml) = inl e) \/
       (exists working_link,
          last = [manifest_write content roku_xml;
                  AppendFile "MainHistory.txt" (history_line title working_link)]) /\
       w (t ++ before) (manifest_write content roku_xml) = inr tt).
Proof.
  revert w t.
  change (writes_last content title (session_body fuel content title url)).
  unfold session_body.
  repeat first
    [ apply writes_last_update
    | apply writes_last_quiet; apply adds_ret
    | apply writes_last_bind;
      [ unfold get_movie_details, wait_for_element,
          find_and_click_video_option, check_and_handle_iframe, format_roku_xml;
        cbv zeta;
        repeat first
          [ adds_step
          | apply texts_session_call | apply click_dropdown_session_call
          | apply try_options_session_call | apply scan_iframes_session_call
          | apply harvester_session_call | apply working_link_of_session_call
          | apply first_working_link_session_call ]
      | intros ? ]
    | match goal with
      | |- writes_last _ _ (if ?b then _ else _) => destruct b
      | |- writes_last _ _ (match ?x with _ => _ end) => destruct x
      | |- writes_last _ _ (let '(_, _) := ?x in _) => destruct x
      end ].
Qed.
